(** * SvgEditor: the scene editing engine of [SVGDragDropEditor.jsx]

    A shallow embedding of the editing core of the component (geometry,
    path codec, gesture handlers, history, path-morph animations) and the
    properties of it that the specification states.

    Conventions of the embedding:
    - a JavaScript number is an extended rational ([num]): [NaN], the two
      infinities, or an exact rational.  Rounding of binary floating point
      and the sign of zero are not represented;
    - a JavaScript string is a [string] of 8-bit code units;
    - a JavaScript object is a finite map from property names to values
      ([obj]; the order of its properties is not represented); element
      objects live in a store ([heap]) and arrays of them are lists of
      store locations, so that two references to one object see each
      other's in-place updates;
    - a thrown [TypeError] is the result [None];
    - React state is a record; a handler reads the state of the render it
      closes over and returns the state after its [set...] calls. *)

From Stdlib Require Import ZArith QArith Qround Qfield Lia Ascii String.
From stdpp Require Import base option list strings gmap pretty.

Local Open Scope Z_scope.

(** ** Numbers *)

Module Num.

Inductive num : Type :=
  | NaN
  | PInf
  | NInf
  | Fin (q : Q).

(** Finite results are kept in lowest terms, so that equal numbers are
    equal terms. *)
Definition fin (q : Q) : num := Fin (Qred q).

Definition of_Z (z : Z) : num := Fin (inject_Z z).
Definition of_nat (n : nat) : num := of_Z (Z.of_nat n).

Definition sgn (q : Q) : comparison := Qcompare q (0#1).

Definition neg (a : num) : num :=
  match a with
  | NaN => NaN
  | PInf => NInf
  | NInf => PInf
  | Fin q => fin (Qopp q)
  end.

Definition add (a b : num) : num :=
  match a, b with
  | NaN, _ | _, NaN => NaN
  | PInf, NInf | NInf, PInf => NaN
  | PInf, _ | _, PInf => PInf
  | NInf, _ | _, NInf => NInf
  | Fin x, Fin y => fin (Qplus x y)
  end.

Definition sub (a b : num) : num := add a (neg b).

(** An infinity scaled by a finite factor. *)
Definition scale_inf (pos : bool) (q : Q) : num :=
  match sgn q with
  | Eq => NaN
  | Gt => if pos then PInf else NInf
  | Lt => if pos then NInf else PInf
  end.

Definition mul (a b : num) : num :=
  match a, b with
  | NaN, _ | _, NaN => NaN
  | PInf, PInf | NInf, NInf => PInf
  | PInf, NInf | NInf, PInf => NInf
  | PInf, Fin q | Fin q, PInf => scale_inf true q
  | NInf, Fin q | Fin q, NInf => scale_inf false q
  | Fin x, Fin y => fin (Qmult x y)
  end.

(** Division; a zero divisor counts as positive zero. *)
Definition div (a b : num) : num :=
  match a, b with
  | NaN, _ | _, NaN => NaN
  | (PInf | NInf), (PInf | NInf) => NaN
  | Fin _, (PInf | NInf) => fin (0#1)
  | PInf, Fin q => match sgn q with Lt => NInf | _ => PInf end
  | NInf, Fin q => match sgn q with Lt => PInf | _ => NInf end
  | Fin x, Fin y =>
      match sgn y with
      | Eq => match sgn x with Eq => NaN | Gt => PInf | Lt => NInf end
      | _ => fin (Qdiv x y)
      end
  end.

(** [a <= b] *)
Definition le (a b : num) : bool :=
  match a, b with
  | NaN, _ | _, NaN => false
  | NInf, _ | _, PInf => true
  | PInf, _ | _, NInf => false
  | Fin x, Fin y => Qle_bool x y
  end.

(** [a >= b] *)
Definition ge (a b : num) : bool := le b a.

(** [a === b] on numbers *)
Definition eqb (a b : num) : bool :=
  match a, b with
  | PInf, PInf | NInf, NInf => true
  | Fin x, Fin y => Qeq_bool x y
  | _, _ => false
  end.

(** [Math.max(a, b)] and [Math.min(a, b)] *)
Definition max (a b : num) : num :=
  match a, b with
  | NaN, _ | _, NaN => NaN
  | _, _ => if le a b then b else a
  end.

Definition min (a b : num) : num :=
  match a, b with
  | NaN, _ | _, NaN => NaN
  | _, _ => if le a b then a else b
  end.

(** [Math.floor(a)] *)
Definition floor (a : num) : num :=
  match a with
  | Fin q => of_Z (Qfloor q)
  | _ => a
  end.

(** [Math.round(a)]: the nearest integer, halves towards plus infinity *)
Definition round (a : num) : num :=
  match a with
  | Fin q => of_Z (Qfloor (Qplus q (1#2)))
  | _ => a
  end.

(** Truthiness of a number: [NaN] and zero are falsy. *)
Definition truthy (a : num) : bool :=
  match a with
  | NaN => false
  | Fin q => negb (Qeq_bool q (0#1))
  | _ => true
  end.

End Num.

Export Num(num, NaN, PInf, NInf, Fin).

(** ** Values, objects and the host environment *)

Inductive jsval : Type :=
  | VUndef
  | VNull
  | VNum (n : num)
  | VStr (s : string).

(** An object: property name to value.  A missing property reads as
    [undefined]. *)
Abbreviation obj := (gmap string jsval).

Definition prop (o : obj) (k : string) : jsval := default VUndef (o !! k).

(** [{ ...o, k: v }] and [o.k = v] *)
Definition setp (k : string) (v : jsval) (o : obj) : obj := <[k := v]> o.

(** The built-ins whose values the embedding does not compute: they are
    fixed but arbitrary functions. *)
Class Host : Type := {
  (** [Math.random]: the sequence of numbers it returns, call after call *)
  Math_random : nat -> num;
  (** [Math.sqrt], [Math.sin], [Math.PI] *)
  Math_sqrt : num -> num;
  Math_sin : num -> num;
  Math_PI : num;
  (** [Number.prototype.toString] of a finite number that is not an
      integer below 10^21 in magnitude *)
  Number_toString_other : Q -> string;
  (** the numeric value of a string in an arithmetic context *)
  String_toNumber : string -> num;
  (** [JSON.stringify] of an array of objects *)
  JSON_stringify : list obj -> string
}.

(** ** Strings *)

Module Str.

Definition char_in (set : string) (c : ascii) : bool :=
  existsb (Ascii.eqb c) (list_ascii_of_string set).

(** The class [\s] on 8-bit code units. *)
Definition is_ws (c : ascii) : bool :=
  let n := nat_of_ascii c in
  (Nat.leb 9 n && Nat.leb n 13) || Nat.eqb n 32 || Nat.eqb n 160.

(** The class [[,\s]] and its complement [[^,\s]]. *)
Definition is_sep (c : ascii) : bool := Ascii.eqb c "," || is_ws c.
Definition not_sep (c : ascii) : bool := negb (is_sep c).

(** The class [[MLHVCSQTAZmlhvcsqtaz]]. *)
Definition is_cmd (c : ascii) : bool := char_in "MLHVCSQTAZmlhvcsqtaz" c.

(** The class [[MLml]]. *)
Definition is_MLml (c : ascii) : bool := char_in "MLml" c.

Definition is_digit (c : ascii) : bool := char_in "0123456789" c.

(** [s.charAt(0)] *)
Definition charAt0 (s : string) : string :=
  match s with
  | EmptyString => EmptyString
  | String c _ => String c EmptyString
  end.

(** [s.includes(c)] for a one-character needle *)
Definition includes (s : string) (c : ascii) : bool :=
  existsb (Ascii.eqb c) (list_ascii_of_string s).

(** [pieces s]: the text of [s] up to its first command letter, and the
    pieces that start at each command letter of [s]. *)
Fixpoint pieces (s : string) : string * list string :=
  match s with
  | EmptyString => (EmptyString, [])
  | String c r =>
      let '(cur, more) := pieces r in
      if is_cmd c then (EmptyString, String c cur :: more)
      else (String c cur, more)
  end.

(** [s.split(/(?=[MLHVCSQTAZmlhvcsqtaz])/)]: a cut before every command
    letter except one at index 0 (an empty match at the start of the
    remaining text does not cut); the empty string gives one empty piece. *)
Definition splitCommands (s : string) : list string :=
  match s with
  | EmptyString => [EmptyString]
  | String c r => let '(cur, more) := pieces r in String c cur :: more
  end.

(** [a.join(sep)] on an array of strings *)
Fixpoint join (sep : string) (l : list string) : string :=
  match l with
  | [] => EmptyString
  | [s] => s
  | s :: rest => s +:+ sep +:+ join sep rest
  end.

(** *** A backtracking matcher for the fragment of regular expressions
    the editor uses *)

Inductive regex : Type :=
  | RClass (p : ascii -> bool)
  | RStar (p : ascii -> bool)
  | RPlus (p : ascii -> bool)
  | RSeq (r1 r2 : regex)
  | RGroup (r : regex).

(** One way to match: the text matched, the text left, the captures. *)
Definition attempt : Type := string * string * list string.

(** The ways [p*] matches a prefix of [s], longest first. *)
Fixpoint star (p : ascii -> bool) (s : string) : list (string * string) :=
  match s with
  | EmptyString => [(EmptyString, EmptyString)]
  | String c r =>
      if p c
      then map (λ '(m, t), (String c m, t)) (star p r) ++ [(EmptyString, s)]
      else [(EmptyString, s)]
  end.

(** All the ways [r] matches a prefix of [s], in the order a backtracking
    matcher tries them. *)
Fixpoint run (r : regex) (s : string) : list attempt :=
  match r with
  | RClass p =>
      match s with
      | String c t => if p c then [(String c EmptyString, t, [])] else []
      | EmptyString => []
      end
  | RStar p => map (λ '(m, t), (m, t, [])) (star p s)
  | RPlus p =>
      match s with
      | String c t =>
          if p c then map (λ '(m, t'), (String c m, t', [])) (star p t) else []
      | EmptyString => []
      end
  | RSeq r1 r2 =>
      flat_map (λ '(m1, t1, c1),
                 map (λ '(m2, t2, c2), (m1 +:+ m2, t2, c1 ++ c2)) (run r2 t1))
               (run r1 s)
  | RGroup r1 => map (λ '(m, t, c), (m, t, m :: c)) (run r1 s)
  end.

(** [s.match(r)] for a regex without the global flag: the leftmost match,
    as the array of the whole match followed by the captures. *)
Fixpoint exec (r : regex) (s : string) : option (list string) :=
  match run r s with
  | (m, _, caps) :: _ => Some (m :: caps)
  | [] =>
      match s with
      | EmptyString => None
      | String _ t => exec r t
      end
  end.

(** [/([MLml])\s*([^,\s]+)[,\s]([^,\s]+)/] *)
Definition coordRegex : regex :=
  RSeq (RGroup (RClass is_MLml))
    (RSeq (RStar is_ws)
       (RSeq (RGroup (RPlus not_sep))
          (RSeq (RClass is_sep) (RGroup (RPlus not_sep))))).

(** *** Numbers and strings *)

Definition digit_val (c : ascii) : Z := Z.of_nat (nat_of_ascii c) - 48.

Definition digits_val (s : string) : Z :=
  fold_left (λ acc c, 10 * acc + digit_val c) (list_ascii_of_string s) 0.

(** The longest prefix of [s] whose characters satisfy [p], and the rest. *)
Fixpoint span (p : ascii -> bool) (s : string) : string * string :=
  match s with
  | EmptyString => (EmptyString, EmptyString)
  | String c r =>
      if p c then let '(a, b) := span p r in (String c a, b)
      else (EmptyString, s)
  end.

Definition take_sign (s : string) : bool * string :=
  match s with
  | String "-" r => (true, r)
  | String "+" r => (false, r)
  | _ => (false, s)
  end.

(** The exponent part [[eE][+-]?digits] at the start of [s], if any. *)
Definition exponent (s : string) : Z :=
  match s with
  | String c r =>
      if char_in "eE" c then
        let '(eneg, r1) := take_sign r in
        let '(ds, _) := span is_digit r1 in
        match ds with
        | EmptyString => 0
        | _ => if eneg then - digits_val ds else digits_val ds
        end
      else 0
  | EmptyString => 0
  end.

(** [parseFloat(s)] on a string: leading white space is skipped and the
    longest prefix that is a decimal literal is read; [NaN] if there is
    none. *)
Definition parseFloatStr (s : string) : num :=
  let s0 := snd (span is_ws s) in
  let '(neg, s1) := take_sign s0 in
  if String.prefix "Infinity" s1 then (if neg then NInf else PInf)
  else
    let '(ip, s2) := span is_digit s1 in
    let '(fp, s3) :=
      match s2 with
      | String "." r => span is_digit r
      | _ => (EmptyString, s2)
      end in
    match ip +:+ fp with
    | EmptyString => NaN
    | ds =>
        let mant := Qmult (inject_Z (digits_val ds))
                          (Qpower (10#1) (- Z.of_nat (String.length fp))) in
        let v := Qmult mant (Qpower (10#1) (exponent s3)) in
        Num.fin (if neg then Qopp v else v)
    end.

Section WithHost.
Context `{Host}.

(** [String(n)] for a number *)
Definition ofNum (n : num) : string :=
  match n with
  | NaN => "NaN"
  | PInf => "Infinity"
  | NInf => "-Infinity"
  | Fin q =>
      let q' := Qred q in
      if Pos.eqb (Qden q') 1 && Z.ltb (Z.abs (Qnum q')) (10 ^ 21)
      then pretty (Qnum q')
      else Number_toString_other q
  end.

(** [String(v)] *)
Definition ofVal (v : jsval) : string :=
  match v with
  | VUndef => "undefined"
  | VNull => "null"
  | VNum n => ofNum n
  | VStr s => s
  end.

(** An array element as [join] prints it: [undefined] and [null] print
    as the empty string. *)
Definition ofElem (v : jsval) : string :=
  match v with
  | VUndef | VNull => EmptyString
  | _ => ofVal v
  end.

(** [parseFloat(v)] *)
Definition parseFloat (v : jsval) : num := parseFloatStr (ofVal v).

End WithHost.

End Str.

(** ** Operators on values *)

Section Operators.
Context `{Host}.

(** An object literal. *)
Definition mkobj (l : list (string * jsval)) : obj := list_to_map l.

(** The number a value stands for in arithmetic. *)
Definition toNumber (v : jsval) : num :=
  match v with
  | VUndef => NaN
  | VNull => Num.of_Z 0
  | VNum n => n
  | VStr s => String_toNumber s
  end.

Definition truthy (v : jsval) : bool :=
  match v with
  | VUndef | VNull => false
  | VNum n => Num.truthy n
  | VStr s => negb (String.eqb s EmptyString)
  end.

(** [a || b] *)
Definition jor (a b : jsval) : jsval := if truthy a then a else b.

(** [a + b]: concatenation when either side is a string. *)
Definition jadd (a b : jsval) : jsval :=
  match a, b with
  | VStr _, _ | _, VStr _ => VStr (Str.ofVal a +:+ Str.ofVal b)
  | _, _ => VNum (Num.add (toNumber a) (toNumber b))
  end.

(** [a - b], [a * b], [a / b] *)
Definition jsub (a b : jsval) : num := Num.sub (toNumber a) (toNumber b).
Definition jmul (a b : jsval) : num := Num.mul (toNumber a) (toNumber b).
Definition jdiv (a b : jsval) : num := Num.div (toNumber a) (toNumber b).

(** [a <= b] and [a >= b]: two strings compare as strings, anything else
    as numbers. *)
Definition jle (a b : jsval) : bool :=
  match a, b with
  | VStr s, VStr t => String.leb s t
  | _, _ => Num.le (toNumber a) (toNumber b)
  end.

Definition jge (a b : jsval) : bool := jle b a.

(** [a === b] *)
Definition jseq (a b : jsval) : bool :=
  match a, b with
  | VUndef, VUndef | VNull, VNull => true
  | VNum m, VNum n => Num.eqb m n
  | VStr s, VStr t => String.eqb s t
  | _, _ => false
  end.

(** [v === 'M' || v === 'L'] *)
Definition isMoveOrLine (v : jsval) : bool :=
  jseq v (VStr "M") || jseq v (VStr "L").

End Operators.

(** ** Path codec *)

Section PathCodec.
Context `{Host}.

(** [cmd.match(/([MLml])\s*([^,\s]+)[,\s]([^,\s]+)/) || [null, type, 0, 0]] *)
Definition matchOrDefault (cmd type : string) : list jsval :=
  match Str.exec Str.coordRegex cmd with
  | Some arr => map VStr arr
  | None => [VNull; VStr type; VNum (Num.of_Z 0); VNum (Num.of_Z 0)]
  end.

(** [const [_, x, y] = arr]: the entries at index 1 and 2. *)
Definition destructure_x_y (arr : list jsval) : jsval * jsval :=
  (default VUndef (arr !! 1%nat), default VUndef (arr !! 2%nat)).

(** The segment [parsePath] pushes for one piece of the split. *)
Definition parseCommand (cmd : string) : obj :=
  let type := Str.charAt0 cmd in
  if isMoveOrLine (VStr type) then
    let '(x, y) := destructure_x_y (matchOrDefault cmd type) in
    mkobj [("command", VStr type);
           ("x", VNum (Str.parseFloat x));
           ("y", VNum (Str.parseFloat y))]
  else
    mkobj [("command", VStr type); ("raw", VStr cmd)].

Definition parsePath (pathData : string) : list obj :=
  map parseCommand (Str.splitCommands pathData).

(** The text [stringifyPath] produces for one segment. *)
Definition stringifySegment (segment : obj) : jsval :=
  if isMoveOrLine (prop segment "command") then
    VStr (Str.ofVal (prop segment "command") +:+ " " +:+
          Str.ofVal (prop segment "x") +:+ " " +:+
          Str.ofVal (prop segment "y"))
  else prop segment "raw".

Definition stringifyPath (segments : list obj) : string :=
  Str.join " " (map (λ s, Str.ofElem (stringifySegment s)) segments).

End PathCodec.

(** ** Geometry kernel *)

Record Point : Type := mkPoint { pt_x : num; pt_y : num }.

Record BBox : Type := mkBBox {
  bb_x : num; bb_y : num; bb_width : num; bb_height : num
}.

Section Geometry.
Context `{Host}.

(** The running minima and maxima of [getBoundingBox]:
    [(minX, minY, maxX, maxY)]. *)
Definition Extent : Type := (num * num * num * num)%type.

Definition extent0 : Extent := (PInf, PInf, NInf, NInf).

(** The body of the [forEach] of [getBoundingBox]. *)
Definition extendExtent (e : Extent) (cmd : string) : Extent :=
  let '(minX, minY, maxX, maxY) := e in
  let type := Str.charAt0 cmd in
  if isMoveOrLine (VStr type) then
    let '(x, y) := destructure_x_y (matchOrDefault cmd type) in
    let numX := Str.parseFloat x in
    let numY := Str.parseFloat y in
    (Num.min minX numX, Num.min minY numY,
     Num.max maxX numX, Num.max maxY numY)
  else e.

Definition bboxOfExtent (e : Extent) : BBox :=
  let '(minX, minY, maxX, maxY) := e in
  mkBBox minX minY (Num.sub maxX minX) (Num.sub maxY minY).

(** [getBoundingBox(pathElement)]; [None] when [pathElement.d] has no
    [split] method. *)
Definition getBoundingBox (pathElement : obj) : option BBox :=
  if negb (jseq (prop pathElement "type") (VStr "path"))
  then Some (mkBBox (Num.of_Z 0) (Num.of_Z 0) (Num.of_Z 0) (Num.of_Z 0))
  else
    match prop pathElement "d" with
    | VStr d =>
        Some (bboxOfExtent (fold_left extendExtent (Str.splitCommands d) extent0))
    | _ => None
    end.

(** [v.length] as an operand of arithmetic; [None] when [v] is
    [undefined] or [null]. *)
Definition lengthOf (v : jsval) : option jsval :=
  match v with
  | VStr s => Some (VNum (Num.of_nat (String.length s)))
  | VNum _ => Some VUndef
  | VUndef | VNull => None
  end.

(** [isPointInElement(point, element)] *)
Definition isPointInElement (point : Point) (element : obj) : option bool :=
  let px := VNum (pt_x point) in
  let py := VNum (pt_y point) in
  let type := prop element "type" in
  if jseq type (VStr "rect") then
    Some (jge px (prop element "x") &&
          jle px (jadd (prop element "x") (prop element "width")) &&
          jge py (prop element "y") &&
          jle py (jadd (prop element "y") (prop element "height")))
  else if jseq type (VStr "circle") then
    let dx := jsub px (prop element "cx") in
    let dy := jsub py (prop element "cy") in
    Some (Num.le (Num.add (Num.mul dx dx) (Num.mul dy dy))
                 (jmul (prop element "r") (prop element "r")))
  else if jseq type (VStr "ellipse") then
    let rx := jor (prop element "rx") (VNum (Num.of_Z 0)) in
    let ry := jor (prop element "ry") (VNum (Num.of_Z 0)) in
    if jseq rx (VNum (Num.of_Z 0)) || jseq ry (VNum (Num.of_Z 0))
    then Some false
    else
      let dx := jdiv (VNum (jsub px (prop element "cx"))) rx in
      let dy := jdiv (VNum (jsub py (prop element "cy"))) ry in
      Some (Num.le (Num.add (Num.mul dx dx) (Num.mul dy dy)) (Num.of_Z 1))
  else if jseq type (VStr "text") then
    len ← lengthOf (prop element "text");
    let textWidth :=
      jmul len (VNum (jmul (prop element "fontSize") (VNum (Fin (3#5))))) in
    let textHeight := jmul (prop element "fontSize") (VNum (Fin (6#5))) in
    Some (jge px (prop element "x") &&
          jle px (jadd (prop element "x") (VNum textWidth)) &&
          jge py (VNum (jsub (prop element "y") (VNum textHeight))) &&
          jle py (prop element "y"))
  else if jseq type (VStr "path") then
    bbox ← getBoundingBox element;
    let buffer := Num.of_Z 5 in
    Some (Num.ge (pt_x point) (Num.sub (bb_x bbox) buffer) &&
          Num.le (pt_x point)
                 (Num.add (Num.add (bb_x bbox) (bb_width bbox)) buffer) &&
          Num.ge (pt_y point) (Num.sub (bb_y bbox) buffer) &&
          Num.le (pt_y point)
                 (Num.add (Num.add (bb_y bbox) (bb_height bbox)) buffer))
  else Some false.

End Geometry.

(** ** Procedural path variants *)

(** A computation that draws from [Math_random] is handed the count of
    numbers drawn so far and returns the new count. *)
Definition Rand (A : Type) : Type := nat -> A * nat.

Section Variants.
Context `{Host}.

Definition half : num := Fin (1#2).

(** The [map] of [generatePathVariations] over the segments. *)
Fixpoint morphSegments (intensity : num) (segs : list obj) : Rand (list obj) :=
  λ k,
  match segs with
  | [] => ([], k)
  | segment :: rest =>
      if isMoveOrLine (prop segment "command") then
        let dx := Num.mul (Num.mul (Num.sub (Math_random k) half)
                                   (Num.of_Z 20)) intensity in
        let dy := Num.mul (Num.mul (Num.sub (Math_random (S k)) half)
                                   (Num.of_Z 20)) intensity in
        let seg' := setp "y" (jadd (prop segment "y") (VNum dy))
                      (setp "x" (jadd (prop segment "x") (VNum dx)) segment) in
        let '(rest', k') := morphSegments intensity rest (S (S k)) in
        (seg' :: rest', k')
      else
        let '(rest', k') := morphSegments intensity rest k in
        (segment :: rest', k')
  end.

(** The [map] of [generateJitterPaths] over the segments. *)
Fixpoint jitterSegments (intensity : num) (segs : list obj) : Rand (list obj) :=
  λ k,
  match segs with
  | [] => ([], k)
  | segment :: rest =>
      if isMoveOrLine (prop segment "command") then
        let jitterX := Num.mul (Num.sub (Math_random k) half) intensity in
        let jitterY := Num.mul (Num.sub (Math_random (S k)) half) intensity in
        let seg' := setp "y" (jadd (prop segment "y") (VNum jitterY))
                      (setp "x" (jadd (prop segment "x") (VNum jitterX)) segment) in
        let '(rest', k') := jitterSegments intensity rest (S (S k)) in
        (seg' :: rest', k')
      else
        let '(rest', k') := jitterSegments intensity rest k in
        (segment :: rest', k')
  end.

(** The [map] of [generateWavePaths] over the segments, from index
    [index] on. *)
Fixpoint waveSegments (intensity phase : num) (index : nat) (segs : list obj)
  : list obj :=
  match segs with
  | [] => []
  | segment :: rest =>
      (if isMoveOrLine (prop segment "command") then
         let waveOffset :=
           Num.mul (Math_sin (Num.add phase (Num.mul (Num.of_nat index) half)))
                   intensity in
         setp "y" (jadd (prop segment "y") (VNum (Num.mul waveOffset half)))
           (setp "x" (jadd (prop segment "x") (VNum waveOffset)) segment)
       else segment)
      :: waveSegments intensity phase (S index) rest
  end.

(** The [for] loop of a generator: [count] more rounds from round [i],
    each pushing one variant. *)
Fixpoint variantLoop (variant : nat -> Rand string) (i count : nat)
  : Rand (list string) :=
  λ k,
  match count with
  | O => ([], k)
  | S count' =>
      let '(v, k1) := variant i k in
      let '(vs, k2) := variantLoop variant (S i) count' k1 in
      (v :: vs, k2)
  end.

(** The array [variations] at the [join] of each generator. *)
Definition morphVariations (pathData : string) (numVariations : nat)
    (intensity : num) : Rand (list string) :=
  λ k,
  let pathSegments := parsePath pathData in
  let '(vs, k') :=
    variantLoop (λ _ k0, let '(segs, k1) := morphSegments intensity pathSegments k0 in
                         (stringifyPath segs, k1))
                0 numVariations k in
  (vs ++ [pathData], k').

Definition jitterVariations (pathData : string) (intensity : num)
    (numVariations : nat) : Rand (list string) :=
  λ k,
  let pathSegments := parsePath pathData in
  let '(vs, k') :=
    variantLoop (λ _ k0, let '(segs, k1) := jitterSegments intensity pathSegments k0 in
                         (stringifyPath segs, k1))
                0 numVariations k in
  (vs ++ [pathData], k').

Definition waveVariations (pathData : string) (intensity : num)
    (numVariations : nat) : Rand (list string) :=
  λ k,
  let pathSegments := parsePath pathData in
  let '(vs, k') :=
    variantLoop (λ i k0,
                   let phase :=
                     Num.mul (Num.mul (Num.div (Num.of_nat i) (Num.of_nat numVariations))
                                      Math_PI) (Num.of_Z 2) in
                   (stringifyPath (waveSegments intensity phase 0 pathSegments), k0))
                0 numVariations k in
  (vs ++ [pathData], k').

(** [generatePathVariations(pathData, numVariations, intensity)] *)
Definition generatePathVariations (pathData : string) (numVariations : nat)
    (intensity : num) : Rand string :=
  λ k, let '(vs, k') := morphVariations pathData numVariations intensity k in
       (Str.join ";" vs, k').

(** [generateJitterPaths(pathData, intensity, numVariations)] *)
Definition generateJitterPaths (pathData : string) (intensity : num)
    (numVariations : nat) : Rand string :=
  λ k, let '(vs, k') := jitterVariations pathData intensity numVariations k in
       (Str.join ";" vs, k').

(** [generateWavePaths(pathData, intensity, numVariations)] *)
Definition generateWavePaths (pathData : string) (intensity : num)
    (numVariations : nat) : Rand string :=
  λ k, let '(vs, k') := waveVariations pathData intensity numVariations k in
       (Str.join ";" vs, k').

End Variants.

(** ** The editor state *)

(** A store location: the identity of an element object. *)
Abbreviation loc := nat.

Record Size : Type := mkSize { sz_width : jsval; sz_height : jsval }.
Record Pos : Type := mkPos { pos_x : jsval; pos_y : jsval }.
Record ViewBox : Type := mkViewBox {
  vb_x : num; vb_y : num; vb_width : num; vb_height : num
}.

(** The [useState] cells of the component that the handlers below read or
    write, the store of element objects, and the position in the
    [Math.random] sequence.  [elementsVersion] stands for the identity of
    the [elements] array: every [setElements] call passes a new array.
    The filter and gradient collections and the panel toggles are not
    part of the embedding. *)
Record State : Type := mkState {
  heap : list obj;
  elements : list loc;
  elementsVersion : nat;
  selectedElement : option loc;
  draggedElement : option loc;
  offset : Point;
  isDrawing : bool;
  drawingPath : string;
  pathPoints : list Point;
  mode : string;
  gridSize : num;
  snapToGrid : bool;
  history : list (list loc);
  historyIndex : Z;
  zoomLevel : num;
  viewBox : ViewBox;
  showTextInput : bool;
  textPosition : Point;
  isResizing : bool;
  resizeDirection : string;
  initialSize : Size;
  initialPosition : Pos;
  clipboard : option loc;
  animations : list obj;
  selectedAnimationId : jsval;
  randomCount : nat
}.

(** [setter proj] builds the function that replaces field [proj]. *)
Ltac setter proj :=
  let eta := constr:(λ st : State,
    mkState (heap st) (elements st) (elementsVersion st) (selectedElement st)
      (draggedElement st) (offset st) (isDrawing st) (drawingPath st)
      (pathPoints st) (mode st) (gridSize st) (snapToGrid st) (history st)
      (historyIndex st) (zoomLevel st) (viewBox st) (showTextInput st)
      (textPosition st) (isResizing st) (resizeDirection st) (initialSize st)
      (initialPosition st) (clipboard st) (animations st)
      (selectedAnimationId st) (randomCount st)) in
  lazymatch eval pattern proj in eta with
  | ?s _ => let t := eval cbv beta in (λ v, s (λ _, v)) in exact t
  end.

Definition setHeap : list obj -> State -> State := ltac:(setter heap).
Definition setElementsArray : list loc -> State -> State := ltac:(setter elements).
Definition setElementsVersion : nat -> State -> State := ltac:(setter elementsVersion).
Definition setSelectedElement : option loc -> State -> State := ltac:(setter selectedElement).
Definition setDraggedElement : option loc -> State -> State := ltac:(setter draggedElement).
Definition setOffset : Point -> State -> State := ltac:(setter offset).
Definition setIsDrawing : bool -> State -> State := ltac:(setter isDrawing).
Definition setDrawingPath : string -> State -> State := ltac:(setter drawingPath).
Definition setPathPoints : list Point -> State -> State := ltac:(setter pathPoints).
Definition setMode : string -> State -> State := ltac:(setter mode).
Definition setGridSize : num -> State -> State := ltac:(setter gridSize).
Definition setHistory : list (list loc) -> State -> State := ltac:(setter history).
Definition setHistoryIndex : Z -> State -> State := ltac:(setter historyIndex).
Definition setShowTextInput : bool -> State -> State := ltac:(setter showTextInput).
Definition setTextPosition : Point -> State -> State := ltac:(setter textPosition).
Definition setIsResizing : bool -> State -> State := ltac:(setter isResizing).
Definition setResizeDirection : string -> State -> State := ltac:(setter resizeDirection).
Definition setInitialSize : Size -> State -> State := ltac:(setter initialSize).
Definition setInitialPosition : Pos -> State -> State := ltac:(setter initialPosition).
Definition setClipboard : option loc -> State -> State := ltac:(setter clipboard).
Definition setAnimations : list obj -> State -> State := ltac:(setter animations).
Definition setSelectedAnimationId : jsval -> State -> State := ltac:(setter selectedAnimationId).
Definition setRandomCount : nat -> State -> State := ltac:(setter randomCount).

(** [setElements(arr)]: a new array takes the place of [elements]. *)
Definition setElements (arr : list loc) (st : State) : State :=
  setElementsVersion (S (elementsVersion st)) (setElementsArray arr st).

(** The state of the component when it mounts. *)
Definition initialState : State := {|
  heap := [];
  elements := [];
  elementsVersion := 0;
  selectedElement := None;
  draggedElement := None;
  offset := mkPoint (Num.of_Z 0) (Num.of_Z 0);
  isDrawing := false;
  drawingPath := EmptyString;
  pathPoints := [];
  mode := "select";
  gridSize := Num.of_Z 20;
  snapToGrid := true;
  history := [];
  historyIndex := -1;
  zoomLevel := Num.of_Z 1;
  viewBox := mkViewBox (Num.of_Z 0) (Num.of_Z 0) (Num.of_Z 800) (Num.of_Z 600);
  showTextInput := false;
  textPosition := mkPoint (Num.of_Z 0) (Num.of_Z 0);
  isResizing := false;
  resizeDirection := EmptyString;
  initialSize := mkSize (VNum (Num.of_Z 0)) (VNum (Num.of_Z 0));
  initialPosition := mkPos (VNum (Num.of_Z 0)) (VNum (Num.of_Z 0));
  clipboard := None;
  animations := [];
  selectedAnimationId := VNull;
  randomCount := 0
|}.

(** The object a reference points to. *)
Definition deref (h : list obj) (l : loc) : obj := default ∅ (h !! l).

(** The objects of an array of references. *)
Definition resolve (h : list obj) (arr : list loc) : list obj :=
  map (deref h) arr.

(** A new object in the store, and the reference to it. *)
Definition alloc (o : obj) (h : list obj) : list obj * loc :=
  (h ++ [o], length h).

(** ** Input events *)

(** The matrix [svg.getScreenCTM()] returns: the entries the editor reads. *)
Record CTM : Type := mkCTM { ctm_a : num; ctm_d : num; ctm_e : num; ctm_f : num }.

(** A mouse event as the handlers see it: the pointer, the matrix of the
    attached [svg] node ([None] while [svgRef.current] is null), whether
    the target carries the class [resize-handle], its [data-direction],
    and the clock. *)
Record MouseEvent : Type := mkMouseEvent {
  clientX : num;
  clientY : num;
  screenCTM : option CTM;
  targetIsResizeHandle : bool;
  targetDirection : string;
  me_now : Z
}.

Record KeyEvent : Type := mkKeyEvent {
  ctrlKey : bool;
  metaKey : bool;
  shiftKey : bool;
  key : string;
  ke_now : Z
}.

(** ** Shape factory and small helpers *)

Section Editor.
Context `{Host}.

(** [arr.findIndex(p)]; [None] stands for -1. *)
Fixpoint findIndex {A : Type} (p : A -> bool) (l : list A) : option nat :=
  match l with
  | [] => None
  | a :: r => if p a then Some O else S <$> findIndex p r
  end.

(** [elements.findIndex(el => el.id === target.id)] *)
Definition findIndexById (h : list obj) (els : list loc) (target : obj)
  : option nat :=
  findIndex (λ l, jseq (prop (deref h l) "id") (prop target "id")) els.

(** [snapToGridValue(value)] *)
Definition snapToGridValue (st : State) (value : num) : num :=
  if snapToGrid st
  then Num.mul (Num.round (Num.div value (gridSize st))) (gridSize st)
  else value.

(** [getSVGCoordinates(event)] *)
Definition getSVGCoordinates (st : State) (e : MouseEvent) : Point :=
  match screenCTM e with
  | None => mkPoint (Num.of_Z 0) (Num.of_Z 0)
  | Some m =>
      mkPoint
        (Num.add (Num.div (Num.div (Num.sub (clientX e) (ctm_e m)) (ctm_a m))
                          (zoomLevel st))
                 (vb_x (viewBox st)))
        (Num.add (Num.div (Num.div (Num.sub (clientY e) (ctm_f m)) (ctm_d m))
                          (zoomLevel st))
                 (vb_y (viewBox st)))
  end.

(** [generateId()] at clock [now] *)
Definition generateId (now : Z) : Rand string :=
  λ k,
  ("element-" +:+ Str.ofNum (Num.of_Z now) +:+ "-" +:+
   Str.ofNum (Num.floor (Num.mul (Math_random k) (Num.of_Z 1000))), S k).

(** [createRectangle(x, y, width, height)] *)
Definition createRectangle (st : State) (now : Z) (x y width height : num)
  : Rand obj :=
  λ k,
  let '(id, k') := generateId now k in
  (mkobj [("id", VStr id); ("type", VStr "rect");
          ("x", VNum (snapToGridValue st x));
          ("y", VNum (snapToGridValue st y));
          ("width", VNum width); ("height", VNum height);
          ("fill", VStr "#ADD8E6"); ("stroke", VStr "#0000FF");
          ("strokeWidth", VNum (Num.of_Z 2))], k').

(** [createCircle(x, y, radius)] *)
Definition createCircle (st : State) (now : Z) (x y radius : num) : Rand obj :=
  λ k,
  let '(id, k') := generateId now k in
  (mkobj [("id", VStr id); ("type", VStr "circle");
          ("cx", VNum (snapToGridValue st x));
          ("cy", VNum (snapToGridValue st y));
          ("r", VNum radius);
          ("fill", VStr "lightgreen"); ("stroke", VStr "green");
          ("strokeWidth", VNum (Num.of_Z 2))], k').

(** The [reduce] that builds path data from the captured points. *)
Definition pathDataOfPoints (points : list Point) : string :=
  fold_left
    (λ acc '(i, point),
       match i with
       | O => "M " +:+ Str.ofNum (pt_x point) +:+ " " +:+ Str.ofNum (pt_y point)
       | _ => acc +:+ " L " +:+ Str.ofNum (pt_x point) +:+ " " +:+
              Str.ofNum (pt_y point)
       end)
    (imap (λ i p, (i, p)) points) EmptyString.

(** [createPath(points)] *)
Definition createPath (now : Z) (points : list Point) : Rand obj :=
  λ k,
  let pathData := pathDataOfPoints points in
  let '(id, k') := generateId now k in
  (mkobj [("id", VStr id); ("type", VStr "path"); ("d", VStr pathData);
          ("fill", VStr "none"); ("stroke", VStr "red");
          ("strokeWidth", VNum (Num.of_Z 2))], k').

(** The ring elements of [createQuantumEffect] from ring [i] on, and the
    rotation animation of the last ring made. *)
Fixpoint quantumRings (st : State) (now : Z) (x y : num) (i count : nat)
  : Rand (list obj * option obj) :=
  λ k,
  match count with
  | O => (([], None), k)
  | S count' =>
      let scale := Num.sub (Num.of_Z 1) (Num.mul (Num.of_nat i) (Fin (1#5))) in
      let '(ringId, k1) := generateId now k in
      let ring :=
        mkobj [("id", VStr ringId); ("type", VStr "ellipse");
               ("cx", VNum (snapToGridValue st x));
               ("cy", VNum (snapToGridValue st y));
               ("rx", VNum (Num.mul (Num.of_Z 150) scale));
               ("ry", VNum (Num.mul (Num.of_Z 100) scale));
               ("fill", VStr "none"); ("stroke", VStr "#B388FF");
               ("strokeWidth", VNum (Num.of_Z 2));
               ("strokeDasharray", VStr "10,20")] in
      let rotationAnim :=
        mkobj [("id", VStr ("anim-" +:+ Str.ofNum (Num.of_Z now) +:+ "-" +:+
                             Str.ofNum (Num.of_nat i)));
               ("elementId", VStr ringId); ("type", VStr "rotate");
               ("attributeName", VStr "transform");
               ("from", VNum (Num.of_Z 0)); ("to", VNum (Num.of_Z 360));
               ("dur", VNum (Num.add (Num.of_Z 3) (Num.of_nat i)));
               ("repeatCount", VStr "indefinite");
               ("name", VStr ("Ring Rotation " +:+
                               Str.ofNum (Num.add (Num.of_nat i) (Num.of_Z 1))))] in
      let '((rings, lastAnim), k2) := quantumRings st now x y (S i) count' k1 in
      ((ring :: rings, Some (default rotationAnim lastAnim)), k2)
  end.

(** [createQuantumEffect(x, y)]: the elements it returns and the value of
    its last [setAnimations] call.  Every [setAnimations] call of the
    function extends the [animations] of the current render, so only the
    last one takes effect.  The filter and the gradient it registers are
    not represented; the random draw for the filter's seed is. *)
Definition createQuantumEffect (st : State) (now : Z) (x y : num)
  : Rand (list obj * list obj) :=
  λ k,
  let '(id, k1) := generateId now k in
  let gradientId := "gradient-" +:+ id in
  let noiseId := "noise-" +:+ id in
  (* seed: Math.floor(Math.random() * 100) *)
  let k2 := S k1 in
  let quantumElement :=
    mkobj [("id", VStr id); ("type", VStr "ellipse");
           ("cx", VNum (snapToGridValue st x));
           ("cy", VNum (snapToGridValue st y));
           ("rx", VNum (Num.of_Z 150)); ("ry", VNum (Num.of_Z 100));
           ("fill", VStr ("url(#" +:+ gradientId +:+ ")"));
           ("filter", VStr noiseId)] in
  let pulseAnimation :=
    mkobj [("id", VStr ("anim-" +:+ Str.ofNum (Num.of_Z now)));
           ("elementId", VStr id); ("type", VStr "attribute");
           ("attributeName", VStr "ry");
           ("from", VNum (Num.of_Z 100)); ("to", VNum (Num.of_Z 120));
           ("dur", VNum (Num.of_Z 3)); ("repeatCount", VStr "indefinite");
           ("name", VStr "Quantum Pulse")] in
  let '((rings, lastAnim), k3) := quantumRings st now x y 0 3 k2 in
  ((quantumElement :: rings,
    animations st ++ [default pulseAnimation lastAnim]), k3).

(** Objects put in the store one after the other, and their references. *)
Fixpoint allocAll (os : list obj) (h : list obj) : list obj * list loc :=
  match os with
  | [] => (h, [])
  | o :: rest =>
      let '(h1, l) := alloc o h in
      let '(h2, ls) := allocAll rest h1 in
      (h2, l :: ls)
  end.

End Editor.

(** ** Transform engine and gesture handlers *)

Section Handlers.
Context `{Host}.

(** [elements.find(el => isPointInElement(svgPoint, el))] *)
Fixpoint findClicked (h : list obj) (svgPoint : Point) (els : list loc)
  : option (option loc) :=
  match els with
  | [] => Some None
  | l :: rest =>
      match isPointInElement svgPoint (deref h l) with
      | Some true => Some (Some l)
      | Some false => findClicked h svgPoint rest
      | None => None
      end
  end.

Definition typeIs (o : obj) (t : string) : bool :=
  jseq (prop o "type") (VStr t).

(** The drag offset [handleMouseDown] captures for a clicked element;
    [None] inside the outer option: the offset is left as it was. *)
Definition dragOffset (svgPoint : Point) (clicked : obj)
  : option (option Point) :=
  let px := VNum (pt_x svgPoint) in
  let py := VNum (pt_y svgPoint) in
  if typeIs clicked "rect" || typeIs clicked "text" || typeIs clicked "ellipse"
  then Some (Some (mkPoint
         (jsub px (jor (prop clicked "x") (prop clicked "cx")))
         (jsub py (jor (prop clicked "y") (prop clicked "cy")))))
  else if typeIs clicked "circle"
  then Some (Some (mkPoint (jsub px (prop clicked "cx"))
                           (jsub py (prop clicked "cy"))))
  else if typeIs clicked "path"
  then bbox ← getBoundingBox clicked;
       Some (Some (mkPoint (Num.sub (pt_x svgPoint) (bb_x bbox))
                           (Num.sub (pt_y svgPoint) (bb_y bbox))))
  else Some None.

(** [handleMouseDown(e)] *)
Definition handleMouseDown (st : State) (e : MouseEvent) : option State :=
  let svgPoint := getSVGCoordinates st e in
  let h := heap st in
  if String.eqb (mode st) "select" then
    match (if targetIsResizeHandle e then selectedElement st else None) with
    | Some sl =>
        let sel := deref h sl in
        let twoR := VNum (jmul (prop sel "r") (VNum (Num.of_Z 2))) in
        Some (setInitialPosition
                (mkPos (jor (prop sel "x")
                            (VNum (jsub (prop sel "cx") (prop sel "r"))))
                       (jor (prop sel "y")
                            (VNum (jsub (prop sel "cy") (prop sel "r")))))
             (setInitialSize
                (mkSize (jor (prop sel "width") twoR)
                        (jor (prop sel "height") twoR))
             (setResizeDirection (targetDirection e)
             (setIsResizing true st))))
    | None =>
        clicked ← findClicked h svgPoint (elements st);
        match clicked with
        | Some l =>
            off ← dragOffset svgPoint (deref h l);
            Some (setOffset (default (offset st) off)
                 (setDraggedElement (Some l)
                 (setSelectedElement (Some l) st)))
        | None => Some (setSelectedElement None st)
        end
    end
  else if String.eqb (mode st) "rect" then
    let '(newRect, k) :=
      createRectangle st (me_now e) (pt_x svgPoint) (pt_y svgPoint)
                      (Num.of_Z 0) (Num.of_Z 0) (randomCount st) in
    let '(h', l) := alloc newRect h in
    Some (setInitialPosition (mkPos (VNum (pt_x svgPoint)) (VNum (pt_y svgPoint)))
         (setResizeDirection "se"
         (setIsResizing true
         (setDraggedElement (Some l)
         (setSelectedElement (Some l)
         (setElements (elements st ++ [l])
         (setHeap h' (setRandomCount k st))))))))
  else if String.eqb (mode st) "circle" then
    let '(newCircle, k) :=
      createCircle st (me_now e) (pt_x svgPoint) (pt_y svgPoint)
                   (Num.of_Z 0) (randomCount st) in
    let '(h', l) := alloc newCircle h in
    Some (setInitialPosition (mkPos (VNum (pt_x svgPoint)) (VNum (pt_y svgPoint)))
         (setResizeDirection "se"
         (setIsResizing true
         (setDraggedElement (Some l)
         (setSelectedElement (Some l)
         (setElements (elements st ++ [l])
         (setHeap h' (setRandomCount k st))))))))
  else if String.eqb (mode st) "text" then
    Some (setShowTextInput true (setTextPosition svgPoint st))
  else if String.eqb (mode st) "path" then
    Some (setDrawingPath
            ("M " +:+ Str.ofNum (pt_x svgPoint) +:+ " " +:+
             Str.ofNum (pt_y svgPoint))
         (setPathPoints [svgPoint] (setIsDrawing true st)))
  else if String.eqb (mode st) "quantum" then
    let '((quantumElements, anims), k) :=
      createQuantumEffect st (me_now e) (pt_x svgPoint) (pt_y svgPoint)
                          (randomCount st) in
    let '(h', ls) := allocAll quantumElements h in
    Some (setMode "select"
         (setSelectedElement (head ls)
         (setElements (elements st ++ ls)
         (setAnimations anims
         (setHeap h' (setRandomCount k st))))))
  else Some st.

(** The new width, height, x and y a rectangle or text resize computes;
    [None] stands for a variable left [undefined]. *)
Record BoxResize : Type := mkBoxResize {
  newWidth : option num;
  newHeight : option num;
  newX : option num;
  newY : option num
}.

Definition resizeBox (st : State) (svgPoint : Point) : BoxResize :=
  let isz := initialSize st in
  let ipos := initialPosition st in
  let dir := resizeDirection st in
  let twenty := Num.of_Z 20 in
  let deltaX := VNum (jsub (VNum (pt_x svgPoint)) (pos_x ipos)) in
  let deltaY := VNum (jsub (VNum (pt_y svgPoint)) (pos_y ipos)) in
  let w1 :=
    if Str.includes dir "e"
    then Some (snapToGridValue st
                 (Num.max twenty (toNumber (jadd (sz_width isz) deltaX))))
    else None in
  let '(w2, x2) :=
    if Str.includes dir "w"
    then let w := snapToGridValue st
                    (Num.max twenty (jsub (sz_width isz) deltaX)) in
         (Some w,
          Some (snapToGridValue st
                  (jsub (jadd (pos_x ipos) (sz_width isz)) (VNum w))))
    else (w1, None) in
  let h1 :=
    if Str.includes dir "s"
    then Some (snapToGridValue st
                 (Num.max twenty (toNumber (jadd (sz_height isz) deltaY))))
    else None in
  let '(h2, y2) :=
    if Str.includes dir "n"
    then let hh := snapToGridValue st
                     (Num.max twenty (jsub (sz_height isz) deltaY)) in
         (Some hh,
          Some (snapToGridValue st
                  (jsub (jadd (pos_y ipos) (sz_height isz)) (VNum hh))))
    else (h1, None) in
  mkBoxResize w2 h2 x2 y2.

(** [if (v !== undefined) el.k = v] *)
Definition assignIfDefined (k : string) (v : option num) (el : obj) : obj :=
  match v with
  | Some n => setp k (VNum n) el
  | None => el
  end.

(** The element after the in-place updates of the resize branch. *)
Definition resizeElement (st : State) (svgPoint : Point) (el : obj) : obj :=
  if typeIs el "rect" || typeIs el "text" then
    let r := resizeBox st svgPoint in
    assignIfDefined "y" (newY r)
      (assignIfDefined "x" (newX r)
         (assignIfDefined "height" (newHeight r)
            (assignIfDefined "width" (newWidth r) el)))
  else if typeIs el "circle" then
    let dx := jsub (VNum (pt_x svgPoint)) (prop el "cx") in
    let dy := jsub (VNum (pt_y svgPoint)) (prop el "cy") in
    let newRadius :=
      snapToGridValue st
        (Num.max (Num.of_Z 10)
                 (Math_sqrt (Num.add (Num.mul dx dx) (Num.mul dy dy)))) in
    setp "r" (VNum newRadius) el
  else el.

(** One command of path data moved by [(tx, ty)], as the drag and paste
    code rewrites it. *)
Definition translateCommand (tx ty : num) (cmd : string) : string :=
  let type := Str.charAt0 cmd in
  if isMoveOrLine (VStr type) then
    let '(x, y) := destructure_x_y (matchOrDefault cmd type) in
    type +:+ " " +:+ Str.ofNum (Num.add (Str.parseFloat x) tx) +:+ " " +:+
    Str.ofNum (Num.add (Str.parseFloat y) ty)
  else cmd.

(** [pathData.split(...).map(...).join(' ')]; [None] when [pathData] has
    no [split] method. *)
Definition translatePathData (tx ty : num) (pathData : jsval) : option string :=
  match pathData with
  | VStr d =>
      Some (Str.join " " (map (translateCommand tx ty) (Str.splitCommands d)))
  | _ => None
  end.

(** The object the drag branch stores at the index of the dragged
    element; [None] inside the option: the entry is left as it is. *)
Definition dragElement (dragged : obj) (nX nY : num) (cur : obj)
  : option (option obj) :=
  if typeIs dragged "rect" || typeIs dragged "text" then
    Some (Some (setp "y" (VNum nY) (setp "x" (VNum nX) cur)))
  else if typeIs dragged "circle" then
    Some (Some (setp "cy" (VNum nY) (setp "cx" (VNum nX) cur)))
  else if typeIs dragged "path" then
    bbox ← getBoundingBox dragged;
    let translateX := Num.sub nX (bb_x bbox) in
    let translateY := Num.sub nY (bb_y bbox) in
    newPathData ← translatePathData translateX translateY (prop dragged "d");
    Some (Some (setp "d" (VStr newPathData) cur))
  else Some None.

(** [handleMouseMove(e)] *)
Definition handleMouseMove (st : State) (e : MouseEvent) : option State :=
  if negb (bool_decide (is_Some (draggedElement st))) && negb (isDrawing st)
     && negb (isResizing st)
  then Some st
  else
    let svgPoint := getSVGCoordinates st e in
    let h := heap st in
    let resizeTarget := if isResizing st then selectedElement st else None in
    match resizeTarget, draggedElement st with
    | Some sl, _ =>
        match findIndexById h (elements st) (deref h sl) with
        | None => Some st
        | Some index =>
            let l := default O (elements st !! index) in
            let el' := resizeElement st svgPoint (deref h l) in
            Some (setElements (elements st) (setHeap (<[l := el']> h) st))
        end
    | None, Some dl =>
        match findIndexById h (elements st) (deref h dl) with
        | None => Some st
        | Some index =>
            let nX := snapToGridValue st
                        (Num.sub (pt_x svgPoint) (pt_x (offset st))) in
            let nY := snapToGridValue st
                        (Num.sub (pt_y svgPoint) (pt_y (offset st))) in
            let l := default O (elements st !! index) in
            moved ← dragElement (deref h dl) nX nY (deref h l);
            match moved with
            | Some o =>
                let '(h', l') := alloc o h in
                Some (setSelectedElement (Some l')
                     (setElements (<[index := l']> (elements st))
                     (setHeap h' st)))
            | None =>
                Some (setSelectedElement (Some l)
                     (setElements (elements st) st))
            end
        end
    | None, None =>
        if isDrawing st then
          let newPoints := pathPoints st ++ [svgPoint] in
          Some (setDrawingPath (pathDataOfPoints newPoints)
               (setPathPoints newPoints st))
        else Some st
    end.

(** [handleMouseUp()] at clock [now] *)
Definition handleMouseUp (st : State) (now : Z) : State :=
  let st1 :=
    if isDrawing st then
      let st0 :=
        if Nat.ltb 1 (length (pathPoints st)) then
          let '(newPath, k) := createPath now (pathPoints st) (randomCount st) in
          let '(h', l) := alloc newPath (heap st) in
          setSelectedElement (Some l)
            (setElements (elements st ++ [l])
               (setHeap h' (setRandomCount k st)))
        else st in
      setDrawingPath EmptyString (setPathPoints [] (setIsDrawing false st0))
    else st in
  setIsResizing false (setDraggedElement None st1).

End Handlers.

(** ** Keyboard commands and the history manager *)

Section History.
Context `{Host}.

(** [arr[i]] for a numeric index; [None] stands for [undefined]. *)
Definition nthZ {A : Type} (arr : list A) (i : Z) : option A :=
  if Z.ltb i 0 then None else arr !! Z.to_nat i.

(** [arr.slice(0, e)] *)
Definition slice0 {A : Type} (arr : list A) (e : Z) : list A :=
  if Z.ltb e 0
  then take (Z.to_nat (Z.max (Z.of_nat (length arr) + e) 0)) arr
  else take (Z.to_nat e) arr.

(** [JSON.stringify(snapshot)], where the snapshot may be [undefined]. *)
Definition stringifySnapshot (h : list obj) (snapshot : option (list loc))
  : option string :=
  (λ arr, JSON_stringify (resolve h arr)) <$> snapshot.

(** The guard of the history effect. *)
Definition mustRecord (st : State) : bool :=
  Nat.ltb 0 (length (elements st)) &&
  (Nat.eqb (length (history st)) 0 ||
   bool_decide (stringifySnapshot (heap st) (nthZ (history st) (historyIndex st))
                ≠ stringifySnapshot (heap st) (Some (elements st)))).

(** The effect that runs after a render in which [elements] changed. *)
Definition historyEffect (st : State) : State :=
  if mustRecord st then
    let newHistory := slice0 (history st) (historyIndex st + 1) ++ [elements st] in
    setHistoryIndex (Z.of_nat (length newHistory) - 1) (setHistory newHistory st)
  else st.

(** A handler, then the effects of the render that follows it. *)
Definition dispatch (handler : State -> option State) (st : State)
  : option State :=
  st' ← handler st;
  Some (if Nat.eqb (elementsVersion st') (elementsVersion st)
        then st' else historyEffect st').

(** [{ ...clipboard, id: generateId() }] moved by 20 units, as the paste
    command builds it. *)
Definition pastedElement (clip : obj) (id : string) : option obj :=
  let newElement := setp "id" (VStr id) clip in
  let twenty := VNum (Num.of_Z 20) in
  if typeIs newElement "rect" || typeIs newElement "text" then
    Some (setp "y" (jadd (prop newElement "y") twenty)
            (setp "x" (jadd (prop newElement "x") twenty) newElement))
  else if typeIs newElement "circle" then
    Some (setp "cy" (jadd (prop newElement "cy") twenty)
            (setp "cx" (jadd (prop newElement "cx") twenty) newElement))
  else if typeIs newElement "path" then
    newPathData ← translatePathData (Num.of_Z 20) (Num.of_Z 20)
                    (prop newElement "d");
    Some (setp "d" (VStr newPathData) newElement)
  else Some newElement.

(** [handleKeyDown(e)].  The four commands test [e.key] against
    different keys, so at most one of them runs. *)
Definition handleKeyDown (st : State) (e : KeyEvent) : option State :=
  let h := heap st in
  let ctrl := ctrlKey e || metaKey e in
  if ctrl && String.eqb (key e) "z" then
    if shiftKey e then
      if Z.ltb (historyIndex st) (Z.of_nat (length (history st)) - 1) then
        snapshot ← nthZ (history st) (historyIndex st + 1);
        Some (setElements snapshot (setHistoryIndex (historyIndex st + 1) st))
      else Some st
    else
      if Z.ltb 0 (historyIndex st) then
        snapshot ← nthZ (history st) (historyIndex st - 1);
        Some (setElements snapshot (setHistoryIndex (historyIndex st - 1) st))
      else Some st
  else if String.eqb (key e) "Delete" then
    match selectedElement st with
    | Some sl =>
        Some (setSelectedElement None
             (setElements
                (filter (λ l, jseq (prop (deref h l) "id")
                                   (prop (deref h sl) "id") = false)
                        (elements st)) st))
    | None => Some st
    end
  else if ctrl && String.eqb (key e) "c" then
    match selectedElement st with
    | Some sl =>
        let '(h', l) := alloc (setp "id" VNull (deref h sl)) h in
        Some (setClipboard (Some l) (setHeap h' st))
    | None => Some st
    end
  else if ctrl && String.eqb (key e) "v" then
    match clipboard st with
    | Some cl =>
        let '(id, k) := generateId (ke_now e) (randomCount st) in
        newElement ← pastedElement (deref h cl) id;
        let '(h', l) := alloc newElement h in
        Some (setSelectedElement (Some l)
             (setElements (elements st ++ [l])
             (setHeap h' (setRandomCount k st))))
    | None => Some st
    end
  else Some st.

(** The undo and redo key strokes. *)
Definition undoKey : KeyEvent := mkKeyEvent true false false "z" 0.
Definition redoKey : KeyEvent := mkKeyEvent true false true "z" 0.

Definition undo (st : State) : option State :=
  dispatch (λ s, handleKeyDown s undoKey) st.

Definition redo (st : State) : option State :=
  dispatch (λ s, handleKeyDown s redoKey) st.

End History.

(** ** Animation descriptors *)

Section Animations.
Context `{Host}.

(** The click handler of the Path Morph button, at clock [now]. *)
Definition addPathMorph (st : State) (now : Z) : option State :=
  match selectedElement st with
  | None => Some st
  | Some sl =>
      let sel := deref (heap st) sl in
      let isPath := typeIs sel "path" in
      '(values, k) ←
        (if isPath then
           match prop sel "d" with
           | VStr d =>
               let '(v, k) :=
                 generatePathVariations d 5 (Fin (1#2)) (randomCount st) in
               Some (VStr v, k)
           | _ => None
           end
         else Some (VNull, randomCount st));
      let id := VStr ("anim-" +:+ Str.ofNum (Num.of_Z now)) in
      let newAnimation :=
        mkobj [("id", id);
               ("elementId", prop sel "id");
               ("type", VStr "motion");
               ("attributeName", VStr "d");
               ("path", if isPath then prop sel "d" else VNull);
               ("keyTimes", VStr "0;0.25;0.5;0.75;1");
               ("values", values);
               ("dur", VNum (Num.of_Z 5));
               ("repeatCount", VStr "indefinite");
               ("name", VStr ("Path Morph " +:+
                  Str.ofNum (Num.add (Num.of_nat (length (animations st)))
                                     (Num.of_Z 1))))] in
      Some (setSelectedAnimationId id
           (setAnimations (animations st ++ [newAnimation])
           (setRandomCount k st)))
  end.

(** [animations.findIndex(a => a.id === selectedAnimationId)] *)
Definition selectedAnimationIndex (st : State) : option nat :=
  findIndex (λ a, jseq (prop a "id") (selectedAnimationId st)) (animations st).

(** The animation whose motion controls the panel shows: the selected
    animation, when it is of type [motion] and carries a [path]. *)
Definition motionControls (st : State) : option obj :=
  if truthy (selectedAnimationId st) then
    index ← selectedAnimationIndex st;
    anim ← animations st !! index;
    if jseq (prop anim "type") (VStr "motion") && truthy (prop anim "path")
    then Some anim else None
  else None.

(** The keyframe list the intensity slider computes for [anim]; [None]
    when [anim.path] has no [split] method. *)
Definition regenerate (anim : obj) (intensity : num) : option (Rand string) :=
  match prop anim "path" with
  | VStr path =>
      let motionType := jor (prop anim "motionType") (VStr "morph") in
      Some (if jseq motionType (VStr "jitter")
            then generateJitterPaths path intensity 5
            else if jseq motionType (VStr "wave")
            then generateWavePaths path intensity 5
            else generatePathVariations path 5
                   (Num.div intensity (Num.of_Z 10)))
  | _ => None
  end.

(** The [onChange] handler of the intensity slider shown for [anim],
    called with the slider's value. *)
Definition intensityOnChange (anim : obj) (value : string) (st : State)
  : option State :=
  let intensity := String_toNumber value in
  gen ← regenerate anim intensity;
  let '(pathVariations, k) := gen (randomCount st) in
  let newAnimations :=
    match selectedAnimationIndex st with
    | Some index =>
        match animations st !! index with
        | Some a =>
            <[index := setp "values" (VStr pathVariations)
                         (setp "intensity" (VNum intensity) a)]>
              (animations st)
        | None => animations st
        end
    | None => animations st
    end in
  Some (setAnimations newAnimations (setRandomCount k st)).

(** The [onChange] handler of the motion type selector. *)
Definition motionTypeOnChange (value : string) (st : State) : State :=
  match selectedAnimationIndex st with
  | Some index =>
      match animations st !! index with
      | Some a =>
          setAnimations (<[index := setp "motionType" (VStr value) a]>
                           (animations st)) st
      | None => st
      end
  | None => st
  end.

(** Moving the intensity slider of the panel to [value]. *)
Definition editIntensity (value : string) (st : State) : option State :=
  anim ← motionControls st;
  intensityOnChange anim value st.

End Animations.

(** ** Notions the statements below use *)

(** The entries of a semicolon-separated value list. *)
Fixpoint keyframes (values : string) : list string :=
  match values with
  | EmptyString => [EmptyString]
  | String c rest =>
      if Ascii.eqb c ";" then EmptyString :: keyframes rest
      else match keyframes rest with
           | entry :: more => String c entry :: more
           | [] => [String c EmptyString]
           end
  end.

(** No character of [s] is [c]. *)
Definition lacks (c : ascii) (s : string) : Prop :=
  ¬ In c (list_ascii_of_string s).

(** [values] is [numVariations] variants and then [pathData], joined
    with semicolons; and when [pathData] itself has no semicolon, the
    last entry of [values] is [pathData]. *)
Definition endsWithSource (numVariations : nat) (pathData values : string)
  : Prop :=
  (∃ variants, length variants = numVariations ∧
               values = Str.join ";" (variants ++ [pathData])) ∧
  (lacks ";" pathData → last (keyframes values) = Some pathData).

(** The scene a state shows: its element objects, in z-order. *)
Definition scene (st : State) : list obj := resolve (heap st) (elements st).

(** Every reference of the state points into the store. *)
Definition allocated (h : list obj) (arr : list loc) : Prop :=
  Forall (λ l, (l < length h)%nat) arr.

(** The value is the number zero. *)
Definition isZero (v : jsval) : Prop := ∃ q : Q, v = VNum (Fin q) ∧ (q == 0)%Q.

(** The shape a pointer move acts on: the selected element while
    resizing, the dragged element otherwise. *)
Definition gestureTarget (st : State) : option loc :=
  match (if isResizing st then selectedElement st else None) with
  | Some sl => Some sl
  | None => draggedElement st
  end.

(** No element of the list carries the identifier of [target]. *)
Definition idAbsent (h : list obj) (els : list loc) (target : obj) : Prop :=
  Forall (λ l, jseq (prop (deref h l) "id") (prop target "id") = false) els.


Section Events.
Context `{Host}.




End Events.

(** The descriptor reduced to what the regeneration of its keyframes
    reads: the stored path and the motion type. *)
Definition motionSource (path : string) (motionType : jsval) : obj :=
  mkobj [("path", VStr path); ("motionType", motionType)].

Section Iteration.
Context `{Host}.

(** The intensity slider moved to each value of the list in turn. *)
Fixpoint editIntensities (values : list string) (st : State) : option State :=
  match values with
  | [] => Some st
  | v :: rest => st' ← editIntensity v st; editIntensities rest st'
  end.

(** A command issued [n] times. *)
Fixpoint times (n : nat) (command : State -> option State) (st : State)
  : option State :=
  match n with
  | O => Some st
  | S n' => st' ← command st; times n' command st'
  end.

(** An edit that is recorded: a handler passes a new array to
    [setElements], may add objects to the store, writes to no object
    already there and leaves the history cells alone; the history effect
    that follows appends the new scene. *)
Definition recordedEdit (st st'' : State) : Prop :=
  ∃ st' fresh,
    heap st' = heap st ++ fresh ∧
    history st' = history st ∧
    historyIndex st' = historyIndex st ∧
    allocated (heap st') (elements st') ∧
    mustRecord st' = true ∧
    st'' = historyEffect st'.

(** [n] recorded edits in a row. *)
Inductive edits : nat -> State -> State -> Prop :=
  | edits_nil st : edits 0 st st
  | edits_cons n st st1 st2 :
      recordedEdit st st1 → edits n st1 st2 → edits (S n) st st2.

End Iteration.

(** The scene of the state is the snapshot at the current history index,
    and it refers to objects of the store only. *)
Definition inSync (st : State) : Prop :=
  nthZ (history st) (historyIndex st) = Some (elements st) ∧
  allocated (heap st) (elements st).

(** The grid leaves the minimum dimension in place: snapping is off, or
    20 is a whole multiple of the grid size. *)
Definition gridKeepsMinimum (st : State) : Prop :=
  snapToGrid st = false ∨
  ∃ (g : Q) (k : positive),
    gridSize st = Fin g ∧ (g * inject_Z (Zpos k) == 20)%Q.



(** ** A host to run closed examples with

    The examples fix the sequence [Math.random] returns and print
    fractions as [n/d]; square root and sine are placeholders that no
    example below reaches. *)

Definition showQ (q : Q) : string :=
  pretty (Qnum q) +:+ "/" +:+ pretty (Zpos (Qden q)).

Definition showVal (v : jsval) : string :=
  match v with
  | VUndef => "undefined"
  | VNull => "null"
  | VNum NaN => "NaN"
  | VNum PInf => "Infinity"
  | VNum NInf => "-Infinity"
  | VNum (Fin q) => showQ (Qred q)
  | VStr s => "'" +:+ s +:+ "'"
  end.

Definition showObj (o : obj) : string :=
  "{" +:+ Str.join "," (map (λ '(k, v), k +:+ ":" +:+ showVal v) (map_to_list o))
  +:+ "}".

Definition exampleHost : Host := {|
  Math_random := λ _, Fin (1#2);
  Math_sqrt := λ x, x;
  Math_sin := λ x, x;
  Math_PI := Fin (355#113);
  Number_toString_other := showQ;
  String_toNumber := Str.parseFloatStr;
  JSON_stringify := λ l, "[" +:+ Str.join "," (map showObj l) +:+ "]"
|}.

(** A screen matrix that maps client coordinates to themselves. *)
Definition identityCTM : CTM :=
  mkCTM (Num.of_Z 1) (Num.of_Z 1) (Num.of_Z 0) (Num.of_Z 0).

(** A pointer event at client position [(x, y)] away from any handle. *)
Definition pointerAt (x y : Z) : MouseEvent :=
  mkMouseEvent (Num.of_Z x) (Num.of_Z y) (Some identityCTM) false EmptyString 1000.

(** Two rectangles in the store, the second one on the canvas, the
    first one (no longer on the canvas) still being dragged. *)
Definition exampleRect (id : string) : obj :=
  mkobj [("id", VStr id); ("type", VStr "rect");
         ("x", VNum (Num.of_Z 0)); ("y", VNum (Num.of_Z 0));
         ("width", VNum (Num.of_Z 100)); ("height", VNum (Num.of_Z 80))].

Definition staleDragState : State :=
  setDraggedElement (Some 0%nat)
    (setElements [1%nat]
       (setHeap [exampleRect "a"; exampleRect "b"] initialState)).

(** One rectangle on the canvas, recorded as the only snapshot. *)
Definition recordedState : State :=
  setHistoryIndex 0
    (setHistory [[0%nat]]
       (setElements [0%nat] (setHeap [exampleRect "a"] initialState))).


(** A path-morph animation of the path "M 10 20 L 30 40", selected in the
    animation panel. *)
Definition exampleMorph : obj :=
  mkobj [("id", VStr "anim-1"); ("type", VStr "motion");
         ("attributeName", VStr "d");
         ("path", VStr "M 10 20 L 30 40");
         ("values", VStr "M 10 20 L 30 40")].

Definition morphState : State :=
  setSelectedAnimationId (VStr "anim-1")
    (setAnimations [exampleMorph] initialState).

(** The recorded rectangle with the rectangle tool chosen, and the state
    a press of the pointer at (200, 200) leaves before the history effect
    runs: a second rectangle is on the canvas. *)
Definition rectToolState : State := setMode "rect" recordedState.

Definition secondRectState : State :=
  default rectToolState
    (handleMouseDown (H := exampleHost) rectToolState (pointerAt 200 200)).

(** A press on the resize handle [direction] of the selected element. *)
Definition handleAt (x y : Z) (direction : string) : MouseEvent :=
  mkMouseEvent (Num.of_Z x) (Num.of_Z y) (Some identityCTM) true direction 1000.

(** A text element on the canvas, selected. *)
Definition selectedTextState : State :=
  setSelectedElement (Some 0%nat)
    (setElements [0%nat]
       (setHeap [mkobj [("id", VStr "t"); ("type", VStr "text");
                        ("x", VNum (Num.of_Z 100)); ("y", VNum (Num.of_Z 100));
                        ("text", VStr "Text");
                        ("fontSize", VNum (Num.of_Z 20));
                        ("fontFamily", VStr "Arial"); ("fill", VStr "black")]]
          initialState)).

(** The recorded rectangle, selected and being resized by its south-east
    handle. *)
Definition recordedResizingState : State :=
  setInitialPosition (mkPos (VNum (Num.of_Z 0)) (VNum (Num.of_Z 0)))
    (setInitialSize (mkSize (VNum (Num.of_Z 100)) (VNum (Num.of_Z 80)))
    (setResizeDirection "se"
    (setIsResizing true
    (setSelectedElement (Some 0%nat) recordedState)))).


(** ** View, toolbar and panel commands *)

Definition setSnapToGrid : bool -> State -> State := ltac:(setter snapToGrid).
Definition setZoomLevel : num -> State -> State := ltac:(setter zoomLevel).
Definition setViewBox : ViewBox -> State -> State := ltac:(setter viewBox).

(** [s.trim()] on 8-bit code units *)
Fixpoint trimStart (s : string) : string :=
  match s with
  | String c rest => if Str.is_ws c then trimStart rest else s
  | EmptyString => EmptyString
  end.

Definition reverse (s : string) : string :=
  string_of_list_ascii (rev (list_ascii_of_string s)).

Definition trim (s : string) : string :=
  reverse (trimStart (reverse (trimStart s))).

(** An expression statement of a click handler: whether its value is
    truthy, and the state after the [set...] calls it made; [None] when
    it throws. *)
Definition Expr : Type := State -> option (bool * State).

Definition test (b : bool) : Expr := λ s, Some (b, s).

(** A call of a state setter; its value is [undefined]. *)
Definition callSetter (f : State -> option State) : Expr :=
  λ s, s' ← f s; Some (false, s').

(** [a && b] *)
Definition andAlso (a b : Expr) : Expr :=
  λ s,
  match a s with
  | Some (true, s1) => b s1
  | Some (false, s1) => Some (false, s1)
  | None => None
  end.

Section Commands.
Context `{Host}.

(** [handleZoom(factor)] *)
Definition handleZoom (factor : num) (st : State) : State :=
  let newZoom :=
    Num.max (Fin (1#10)) (Num.min (Num.of_Z 5) (Num.mul (zoomLevel st) factor)) in
  let vb := viewBox st in
  let centerX := Num.add (vb_x vb) (Num.div (vb_width vb) (Num.of_Z 2)) in
  let centerY := Num.add (vb_y vb) (Num.div (vb_height vb) (Num.of_Z 2)) in
  let newWidth := Num.div (Num.of_Z 800) newZoom in
  let newHeight := Num.div (Num.of_Z 600) newZoom in
  setViewBox
    (mkViewBox (Num.sub centerX (Num.div newWidth (Num.of_Z 2)))
               (Num.sub centerY (Num.div newHeight (Num.of_Z 2)))
               newWidth newHeight)
    (setZoomLevel newZoom st).

(** The zoom buttons of the toolbar. *)
Definition zoomOut : State -> State := handleZoom (Fin (9#10)).
Definition zoomIn : State -> State := handleZoom (Fin (11#10)).


(** The Snap check box of the toolbar. *)
Definition toggleSnap (st : State) : State :=
  setSnapToGrid (negb (snapToGrid st)) st.

(** The Undo button of the toolbar:
    [historyIndex > 0 && setHistoryIndex(historyIndex - 1) &&
     setElements([...history[historyIndex - 1]])] *)
Definition undoButton (st : State) : option State :=
  snd <$>
  andAlso
    (andAlso (test (Z.ltb 0 (historyIndex st)))
             (callSetter (λ s, Some (setHistoryIndex (historyIndex st - 1) s))))
    (callSetter (λ s, snapshot ← nthZ (history st) (historyIndex st - 1);
                      Some (setElements snapshot s)))
    st.

(** The Redo button of the toolbar:
    [historyIndex < history.length - 1 && setHistoryIndex(historyIndex + 1) &&
     setElements([...history[historyIndex + 1]])] *)
Definition redoButton (st : State) : option State :=
  snd <$>
  andAlso
    (andAlso (test (Z.ltb (historyIndex st) (Z.of_nat (length (history st)) - 1)))
             (callSetter (λ s, Some (setHistoryIndex (historyIndex st + 1) s))))
    (callSetter (λ s, snapshot ← nthZ (history st) (historyIndex st + 1);
                      Some (setElements snapshot s)))
    st.

(** [createText(x, y, text)] *)
Definition createText (st : State) (now : Z) (x y : num) (text : string)
  : Rand obj :=
  λ k,
  let '(id, k') := generateId now k in
  (mkobj [("id", VStr id); ("type", VStr "text");
          ("x", VNum (snapToGridValue st x));
          ("y", VNum (snapToGridValue st y));
          ("text", VStr text);
          ("fontSize", VNum (Num.of_Z 20));
          ("fontFamily", VStr "Arial"); ("fill", VStr "black")], k').

(** [handleTextInputComplete()] at clock [now], with [textInput] the
    content of the input box.  The box itself is not part of the state. *)
Definition handleTextInputComplete (textInput : string) (now : Z) (st : State)
  : State :=
  let st1 :=
    if truthy (VStr (trim textInput)) then
      let '(newText, k) :=
        createText st now (pt_x (textPosition st)) (pt_y (textPosition st))
                   textInput (randomCount st) in
      let '(h', l) := alloc newText (heap st) in
      setSelectedElement (Some l)
        (setElements (elements st ++ [l])
           (setHeap h' (setRandomCount k st)))
    else st in
  setShowTextInput false st1.

(** The [onChange] handlers of the properties panel and the Apply
    button of the filter panel.  Each stores a value [v] under a name
    [k] ([fill], [stroke], [strokeWidth], [text], [fontSize],
    [fontFamily], [filter]; for the two numeric inputs [v] is what
    [parseInt] returns):
    [newElements[index] = { ...newElements[index], k: v }] at the index
    of the selected element.  The panel is shown, and the button acts,
    for a selected element only. *)
Definition setProperty (k : string) (v : jsval) (st : State) : State :=
  match selectedElement st with
  | None => st
  | Some sl =>
      match findIndexById (heap st) (elements st) (deref (heap st) sl) with
      | None => st
      | Some index =>
          let l := default O (elements st !! index) in
          let '(h', l') := alloc (setp k v (deref (heap st) l)) (heap st) in
          setSelectedElement (Some l')
            (setElements (<[index := l']> (elements st)) (setHeap h' st))
      end
  end.

(** The Delete Animation button. *)
Definition deleteAnimation (st : State) : State :=
  setSelectedAnimationId VNull
    (setAnimations
       (filter (λ a, jseq (prop a "id") (selectedAnimationId st) = false)
               (animations st)) st).

End Commands.

(** ** The editor as a transition system *)

(** The user actions the embedding covers.  [ChooseMode] stands for the
    tool buttons of the toolbar, [Zoom] for its two zoom buttons,
    [SetProperty] for the inputs of the properties panel and the Apply
    button of the filter panel, [SelectAnimation] for a click on the
    entry at index [i] of the animation list; the two controls of a
    motion animation can be used while the panel shows them. *)
Inductive Command : Type :=
  | PointerDown (e : MouseEvent)
  | PointerMove (e : MouseEvent)
  | PointerUp (now : Z)
  | KeyDown (e : KeyEvent)
  | TextInputComplete (textInput : string) (now : Z)
  | ChooseMode (m : string)
  | ToggleSnap
  | Zoom (inwards : bool)
  | UndoButton
  | RedoButton
  | SetProperty (k : string) (v : jsval)
  | AddPathMorph (now : Z)
  | IntensityChange (value : string)
  | MotionTypeChange (value : string)
  | SelectAnimation (i : nat)
  | DeleteAnimation.

(** The key strokes of the other keyboard commands. *)
Definition deleteKey : KeyEvent := mkKeyEvent false false false "Delete" 0.
Definition copyKey : KeyEvent := mkKeyEvent true false false "c" 0.
Definition pasteKey (now : Z) : KeyEvent := mkKeyEvent true false false "v" now.

Section Session.
Context `{Host}.

Definition handlerOf (c : Command) (st : State) : option State :=
  match c with
  | PointerDown e => handleMouseDown st e
  | PointerMove e => handleMouseMove st e
  | PointerUp now => Some (handleMouseUp st now)
  | KeyDown e => handleKeyDown st e
  | TextInputComplete textInput now =>
      Some (handleTextInputComplete textInput now st)
  | ChooseMode m => Some (setMode m st)
  | ToggleSnap => Some (toggleSnap st)
  | Zoom true => Some (zoomIn st)
  | Zoom false => Some (zoomOut st)
  | UndoButton => undoButton st
  | RedoButton => redoButton st
  | SetProperty k v => Some (setProperty k v st)
  | AddPathMorph now => addPathMorph st now
  | IntensityChange value => editIntensity value st
  | MotionTypeChange value =>
      _ ← motionControls st; Some (motionTypeOnChange value st)
  | SelectAnimation i =>
      anim ← animations st !! i;
      Some (setSelectedAnimationId (prop anim "id") st)
  | DeleteAnimation => Some (deleteAnimation st)
  end.

(** A command, then the effects of the render that follows it. *)
Definition runCommand (c : Command) (st : State) : option State :=
  dispatch (handlerOf c) st.

(** Commands issued one after the other. *)
Fixpoint runCommands (cs : list Command) (st : State) : option State :=
  match cs with
  | [] => Some st
  | c :: rest => st' ← runCommand c st; runCommands rest st'
  end.

(** The states a session reaches from the mounted component. *)
Definition inSession (st : State) : Prop :=
  ∃ cs, runCommands cs initialState = Some st.

End Session.

(** Nothing is recorded yet and the history index is -1, or the index
    is that of a recorded snapshot. *)
Definition historyBounded (st : State) : Prop :=
  (historyIndex st = -1 ∧ history st = []) ∨
  0 <= historyIndex st < Z.of_nat (length (history st)).

(** ** Further notions *)

(** The horizontal extent [getBoundingBox] has accumulated: nothing yet,
    or [NaN] for good. *)
Definition extentLost (e : num * num * num * num) : Prop :=
  (e.1.1.1 = PInf ∧ e.1.2 = NInf) ∨ e.1.1.1 = NaN.

(** The view is centred on (400, 300): the zoom level is between 0.1
    and 5, and the view box is the 800 by 600 canvas scaled down by the
    zoom level around that point. *)
Definition viewCentred (st : State) : Prop :=
  ∃ z x y w h : Q,
    zoomLevel st = Fin z ∧
    viewBox st = mkViewBox (Fin x) (Fin y) (Fin w) (Fin h) ∧
    ((1#10) <= z)%Q ∧ (z <= 5)%Q ∧
    (w == 800 / z)%Q ∧ (h == 600 / z)%Q ∧
    (x + w / 2 == 400)%Q ∧ (y + h / 2 == 300)%Q.

(** A motion animation with a stored path loops back to it: its value
    list is five variants and then the stored path. *)
Definition loopsBack (anim : obj) : Prop :=
  ∀ path : string,
    prop anim "type" = VStr "motion" →
    prop anim "path" = VStr path →
    ∃ values, prop anim "values" = VStr values ∧ endsWithSource 5 path values.

(** The identifiers of the shapes on the canvas, in z-order. *)
Definition ids (st : State) : list jsval :=
  map (λ o, prop o "id") (scene st).

(** The three pointer events of the canvas. *)
Definition isPointerCommand (c : Command) : bool :=
  match c with
  | PointerDown _ | PointerMove _ | PointerUp _ => true
  | _ => false
  end.

(** The store [h1] and array [arr1] show the shapes of [h] and [arr]
    under the same identifiers in the same order, and then perhaps more. *)
Definition keepsShapes (h : list obj) (arr : list loc)
    (h1 : list obj) (arr1 : list loc) : Prop :=
  allocated h arr →
  (∃ more, map (λ o, prop o "id") (resolve h1 arr1)
           = map (λ o, prop o "id") (resolve h arr) ++ more) ∧
  allocated h1 arr1.

Section HostNotions.
Context `{Host}.

(** What the drag and paste code makes of one command: a move or line
    command keeps its letter, gets [NaN] for x and some number for y;
    any other command is kept as it is. *)
Definition movedCommand (cmd cmd' : string) : Prop :=
  if isMoveOrLine (VStr (Str.charAt0 cmd))
  then ∃ y : num, cmd' = Str.charAt0 cmd +:+ " NaN " +:+ Str.ofNum y
  else cmd' = cmd.

(** The preview shows the points captured so far. *)
Definition previewInStep (st : State) : Prop :=
  drawingPath st = pathDataOfPoints (pathPoints st).

End HostNotions.

(** ** Further example scenes *)

(** The path drawn from (10, 20) to (30, 40). *)
Definition examplePath : obj :=
  mkobj [("id", VStr "p"); ("type", VStr "path"); ("d", VStr "M 10 20 L 30 40");
         ("fill", VStr "none"); ("stroke", VStr "red");
         ("strokeWidth", VNum (Num.of_Z 2))].

(** A 100 by 80 rectangle at [(x, y)]. *)
Definition rectAt (id : string) (x y : Z) : obj :=
  mkobj [("id", VStr id); ("type", VStr "rect");
         ("x", VNum (Num.of_Z x)); ("y", VNum (Num.of_Z y));
         ("width", VNum (Num.of_Z 100)); ("height", VNum (Num.of_Z 80));
         ("fill", VStr "#ADD8E6")].


(** The state after a command, or commands, on the example host; the
    state before when a handler throws. *)
Definition after (c : Command) (st : State) : State :=
  default st (runCommand (H := exampleHost) c st).

Definition afterAll (cs : list Command) (st : State) : State :=
  default st (runCommands (H := exampleHost) cs st).

(** The path underneath a rectangle that covers it. *)
Definition pathUnderRectState : State :=
  setElements [0%nat; 1%nat]
    (setHeap [examplePath; rectAt "r" 0 0] initialState).

(** The path on the clipboard. *)
Definition clipboardPathState : State :=
  setClipboard (Some 0%nat) (setHeap [setp "id" VNull examplePath] initialState).

(** Drawing a rectangle; drawing a path, up to the release of the
    pointer; the path finished, animated and its intensity edited; three
    clicks on the zoom buttons. *)
Definition rectangleSession : list Command :=
  [ChooseMode "rect"; PointerDown (pointerAt 100 100);
   PointerMove (pointerAt 200 180); PointerUp 2000].

Definition drawingSession : list Command :=
  [ChooseMode "path"; PointerDown (pointerAt 10 20);
   PointerMove (pointerAt 30 40)].

Definition morphSession : list Command :=
  drawingSession ++ [PointerUp 3000; AddPathMorph 5000; IntensityChange "7"].

Definition zoomSession : list Command := [Zoom true; Zoom true; Zoom false].

(** The recorded rectangle, selected; and copied to the clipboard. *)
Definition selectedRectState : State :=
  setSelectedElement (Some 0%nat) recordedState.

Definition copiedState : State := after (KeyDown copyKey) selectedRectState.

(** Two overlapping rectangles: [a] at (100, 60) underneath, [b] at
    (150, 100) on top. *)
Definition twoRectsState : State :=
  setElements [0%nat; 1%nat]
    (setHeap [rectAt "a" 100 60; rectAt "b" 150 100] initialState).

(** A circle of radius 50 around (200, 200), selected and being resized. *)
Definition circleResizingState : State :=
  setIsResizing true
    (setSelectedElement (Some 0%nat)
       (setElements [0%nat]
          (setHeap [mkobj [("id", VStr "c"); ("type", VStr "circle");
                           ("cx", VNum (Num.of_Z 200));
                           ("cy", VNum (Num.of_Z 200));
                           ("r", VNum (Num.of_Z 50))]] initialState))).

(** ** Tactics

    Case analysis on the handler behind a command. *)

Ltac unfold_handlers :=
  unfold handlerOf, handleMouseDown, handleMouseMove, handleMouseUp,
    handleKeyDown, handleTextInputComplete, toggleSnap, zoomIn, zoomOut,
    handleZoom, undoButton, redoButton, andAlso, test, callSetter,
    setProperty, addPathMorph, editIntensity, intensityOnChange,
    motionTypeOnChange, deleteAnimation in *.

Ltac crush_handler :=
  unfold_handlers; repeat (repeat case_match; simplify_option_eq).

(** * Properties *)

(** ** Numbers, objects and arrays *)

Lemma sgn_nonzero (q : Q) : ¬ (q == 0)%Q → Num.sgn q ≠ Eq.
Proof. unfold Num.sgn. intros Hq Hc. apply Hq. now apply Qeq_alt. Qed.


Lemma div_fin (x y : Q) :
  ¬ (y == 0)%Q → ∃ q, Num.div (Fin x) (Fin y) = Fin q ∧ (q == x / y)%Q.
Proof.
  intros Hy. unfold Num.div. pose proof (sgn_nonzero y Hy) as Hs.
  destruct (Num.sgn y); [congruence | |];
    (eexists; split; [reflexivity | apply Qred_correct]).
Qed.

Lemma sub_fin (x y : Q) : ∃ q, Num.sub (Fin x) (Fin y) = Fin q ∧ (q == x - y)%Q.
Proof.
  eexists. split; [reflexivity|]. unfold Qminus.
  now rewrite !Qred_correct.
Qed.

Lemma mul_fin (x y : Q) : ∃ q, Num.mul (Fin x) (Fin y) = Fin q ∧ (q == x * y)%Q.
Proof. eexists. split; [reflexivity | apply Qred_correct]. Qed.

Lemma add_fin (x y : Q) : ∃ q, Num.add (Fin x) (Fin y) = Fin q ∧ (q == x + y)%Q.
Proof. eexists. split; [reflexivity | apply Qred_correct]. Qed.




Lemma typeIs_other (s t : string) : s ≠ t → jseq (VStr s) (VStr t) = false.
Proof. intros Hne. cbn. now apply String.eqb_neq. Qed.

Lemma prop_setp_eq (k : string) (v : jsval) (o : obj) : prop (setp k v o) k = v.
Proof. unfold prop, setp. now rewrite lookup_insert_eq. Qed.

Lemma prop_setp_ne (k k' : string) (v : jsval) (o : obj) :
  k ≠ k' → prop (setp k v o) k' = prop o k'.
Proof. intros Hne. unfold prop, setp. now rewrite lookup_insert_ne. Qed.

Lemma prop_assign_eq (k : string) (n : num) (o : obj) :
  prop (assignIfDefined k (Some n) o) k = VNum n.
Proof. apply prop_setp_eq. Qed.

Lemma prop_assign_ne (k k' : string) (v : option num) (o : obj) :
  k ≠ k' → prop (assignIfDefined k v o) k' = prop o k'.
Proof. intros Hne. destruct v; [now apply prop_setp_ne | reflexivity]. Qed.

Lemma findIndex_none {A : Type} (p : A → bool) (l : list A) :
  Forall (λ a, p a = false) l → findIndex p l = None.
Proof.
  induction 1 as [|a l Ha _ IH]; cbn; [reflexivity|].
  now rewrite Ha, IH.
Qed.

Lemma findIndex_Some {A : Type} (p : A → bool) (l : list A) (i : nat) :
  findIndex p l = Some i → ∃ a, l !! i = Some a ∧ p a = true.
Proof.
  revert i. induction l as [|a l IH]; intros i; cbn; [discriminate|].
  destruct (p a) eqn:Hp.
  - intros [= <-]. eauto.
  - destruct (findIndex p l) as [j|]; [|discriminate].
    cbn. intros [= <-]. now apply IH.
Qed.

(** Replacing the entry found by one that also satisfies the test leaves
    the index where it is. *)
Lemma findIndex_insert {A : Type} (p : A → bool) (l : list A) (i : nat) (a' : A) :
  findIndex p l = Some i → p a' = true → findIndex p (<[i := a']> l) = Some i.
Proof.
  revert i. induction l as [|a l IH]; intros i; cbn [findIndex]; [discriminate|].
  destruct (p a) eqn:Hp.
  - intros [= <-] Ha'. change (<[0%nat := a']> (a :: l)) with (a' :: l).
    cbn [findIndex]. now rewrite Ha'.
  - destruct (findIndex p l) as [j|] eqn:Hj; [|discriminate].
    intros [= <-] Ha'.
    change (<[S j := a']> (a :: l)) with (a :: <[j := a']> l).
    cbn [findIndex]. rewrite Hp. now rewrite (IH j eq_refl Ha').
Qed.

Lemma nthZ_Some_length {A : Type} (arr : list A) (i : Z) (a : A) :
  nthZ arr i = Some a → 0 <= i ∧ (Z.to_nat i < length arr)%nat.
Proof.
  unfold nthZ. destruct (Z.ltb_spec i 0); [discriminate|].
  intros Hl. split; [assumption|]. eapply lookup_lt_Some, Hl.
Qed.

Lemma nthZ_Some {A : Type} (arr : list A) (i : Z) (a : A) :
  nthZ arr i = Some a ↔ 0 <= i ∧ arr !! Z.to_nat i = Some a.
Proof.
  unfold nthZ. destruct (Z.ltb_spec i 0); split.
  - discriminate.
  - intros [? _]. lia.
  - auto.
  - now intros [_ ?].
Qed.

Lemma nthZ_is_Some {A : Type} (arr : list A) (i : Z) :
  0 <= i < Z.of_nat (length arr) → is_Some (nthZ arr i).
Proof.
  intros Hi. unfold nthZ. destruct (Z.ltb_spec i 0); [lia|].
  apply lookup_lt_is_Some. lia.
Qed.

Lemma deref_insert (h : list obj) (l : loc) (o : obj) :
  (l < length h)%nat → deref (<[l := o]> h) l = o.
Proof. intros Hl. unfold deref. now rewrite list_lookup_insert_eq. Qed.

(** An object whose type is read lives in the store. *)
Lemma typed_allocated (h : list obj) (l : loc) (t1 t2 : string) :
  typeIs (deref h l) t1 || typeIs (deref h l) t2 = true → (l < length h)%nat.
Proof.
  intros Ht. destruct (h !! l) as [o|] eqn:Hl.
  - eapply lookup_lt_Some, Hl.
  - unfold deref in Ht. rewrite Hl in Ht. discriminate.
Qed.

(** Objects already in the store are not touched by later allocations. *)
Lemma resolve_app (h fresh : list obj) (arr : list loc) :
  allocated h arr → resolve (h ++ fresh) arr = resolve h arr.
Proof.
  intros Hall. unfold resolve. apply map_ext_in. intros l Hl.
  unfold allocated in Hall. rewrite Forall_forall in Hall.
  unfold deref. rewrite lookup_app_l; [reflexivity|].
  apply Hall. now apply list_elem_of_In.
Qed.

Lemma last_app_nonempty {A : Type} (l1 l2 : list A) :
  l2 ≠ [] → last (l1 ++ l2) = last l2.
Proof.
  intros Hne. destruct l2 as [|x l2] using rev_ind; [congruence|].
  now rewrite app_assoc, !last_snoc.
Qed.

Lemma lacks_cons (c a : ascii) (s : string) :
  lacks c (String a s) ↔ a ≠ c ∧ lacks c s.
Proof. unfold lacks. cbn. intuition. Qed.

(** ** Snapping *)

(** On a grid of 20, (100, 100) is a grid point; on a grid of 15 it
    snaps to (105, 105). *)
Example snap_to_grid_scenario :
  snapToGridValue initialState (Num.of_Z 100) = Fin 100 ∧
  snapToGridValue (setGridSize (Num.of_Z 15) initialState) (Num.of_Z 100)
  = Fin 105.
Proof. split; vm_compute; reflexivity. Qed.

(** ** Geometry kernel *)

Section GeometryFacts.
Context `{Host}.

Lemma isMoveOrLine_char (c : ascii) (r : string) :
  c ≠ "M"%char → c ≠ "L"%char →
  isMoveOrLine (VStr (Str.charAt0 (String c r))) = false.
Proof.
  intros HM HL. unfold isMoveOrLine. cbn.
  destruct (Ascii.eqb_spec c "M"); [congruence|].
  destruct (Ascii.eqb_spec c "L"); [congruence|]. reflexivity.
Qed.

(** A piece of text without [M] or [L] does not start a move or a line. *)
Lemma isMoveOrLine_lacks (p : string) :
  lacks "M" p → lacks "L" p → isMoveOrLine (VStr (Str.charAt0 p)) = false.
Proof.
  destruct p as [|c r]; [reflexivity|].
  intros HM HL. apply isMoveOrLine_char.
  - intros ->. apply HM. now left.
  - intros ->. apply HL. now left.
Qed.

Lemma pieces_lacks (c : ascii) (s : string) :
  lacks c s →
  lacks c (fst (Str.pieces s)) ∧ Forall (lacks c) (snd (Str.pieces s)).
Proof.
  induction s as [|a s IH]; cbn [Str.pieces].
  - intros _. split; [exact (λ f, f) | constructor].
  - intros [Ha Hs]%lacks_cons. destruct (IH Hs) as [Hcur Hmore].
    destruct (Str.pieces s) as [cur more]. cbn [fst snd] in *.
    destruct (Str.is_cmd a); cbn [fst snd].
    + split; [exact (λ f, f) |]. constructor; [|assumption].
      apply lacks_cons. auto.
    + split; [|assumption]. apply lacks_cons. auto.
Qed.

Lemma splitCommands_lacks (c : ascii) (s : string) :
  lacks c s → Forall (lacks c) (Str.splitCommands s).
Proof.
  destruct s as [|a s]; cbn [Str.splitCommands].
  - intros Hs. constructor; [assumption | constructor].
  - intros [Ha Hs]%lacks_cons. destruct (pieces_lacks c s Hs) as [Hcur Hmore].
    destruct (Str.pieces s) as [cur more]. cbn [fst snd] in *.
    constructor; [|assumption]. apply lacks_cons. auto.
Qed.

(** Pieces that start neither a move nor a line leave the extent alone. *)
Lemma fold_extendExtent_skip (cmds : list string) (e : Extent) :
  Forall (λ p, isMoveOrLine (VStr (Str.charAt0 p)) = false) cmds →
  fold_left extendExtent cmds e = e.
Proof.
  intros Hall. revert e. induction Hall as [|p cmds Hp _ IH]; intros e.
  - reflexivity.
  - cbn [fold_left]. rewrite <- (IH e) at 2. f_equal.
    unfold extendExtent. destruct e as [[[minX minY] maxX] maxY].
    now rewrite Hp.
Qed.

(** C10.  A path whose data contains no [M] and no [L] has the bounding
    box with x = y = +infinity and width = height = -infinity, and no
    point at all is contained in it. *)
Theorem path_without_move_or_line (el : obj) (d : string) :
  prop el "type" = VStr "path" →
  prop el "d" = VStr d →
  lacks "M" d → lacks "L" d →
  getBoundingBox el = Some (mkBBox PInf PInf NInf NInf) ∧
  ∀ point : Point, isPointInElement point el = Some false.
Proof.
  intros Htype Hd HM HL.
  assert (Hbox : getBoundingBox el = Some (mkBBox PInf PInf NInf NInf)).
  { unfold getBoundingBox. rewrite Htype, Hd. cbn [jseq].
    change ("path" =? "path")%string with true. cbn [negb].
    rewrite fold_extendExtent_skip; [reflexivity|].
    pose proof (splitCommands_lacks "M" d HM) as H1.
    pose proof (splitCommands_lacks "L" d HL) as H2.
    rewrite Forall_forall in *. intros p Hp.
    apply isMoveOrLine_lacks; auto. }
  split; [exact Hbox|].
  intros [px py]. unfold isPointInElement. rewrite Htype, Hbox.
  change (jseq (VStr "path") (VStr "rect")) with false.
  change (jseq (VStr "path") (VStr "circle")) with false.
  change (jseq (VStr "path") (VStr "ellipse")) with false.
  change (jseq (VStr "path") (VStr "text")) with false.
  change (jseq (VStr "path") (VStr "path")) with true.
  cbn. destruct px; reflexivity.
Qed.


End GeometryFacts.

Lemma path_without_move_or_line_witness :
  getBoundingBox (H := exampleHost)
    (mkobj [("type", VStr "path"); ("d", VStr "C 1 2 3 4 5 6 Z")])
  = Some (mkBBox PInf PInf NInf NInf) ∧
  ∀ point : Point,
    isPointInElement (H := exampleHost) point
      (mkobj [("type", VStr "path"); ("d", VStr "C 1 2 3 4 5 6 Z")])
    = Some false.
Proof.
  apply (path_without_move_or_line (H := exampleHost) _ "C 1 2 3 4 5 6 Z").
  - reflexivity.
  - reflexivity.
  - unfold lacks. cbn. intuition discriminate.
  - unfold lacks. cbn. intuition discriminate.
Defined.


(** Containment on concrete shapes. *)
Example ellipse_contains_centre_region :
  isPointInElement (H := exampleHost) (mkPoint (Num.of_Z 250) (Num.of_Z 250))
    (mkobj [("type", VStr "ellipse"); ("cx", VNum (Num.of_Z 200));
            ("cy", VNum (Num.of_Z 200)); ("rx", VNum (Num.of_Z 150));
            ("ry", VNum (Num.of_Z 100))])
  = Some true.
Proof. vm_compute. reflexivity. Qed.

Example ellipse_with_zero_radius_contains_nothing :
  isPointInElement (H := exampleHost) (mkPoint (Num.of_Z 200) (Num.of_Z 200))
    (mkobj [("type", VStr "ellipse"); ("cx", VNum (Num.of_Z 200));
            ("cy", VNum (Num.of_Z 200)); ("rx", VNum (Num.of_Z 0));
            ("ry", VNum (Num.of_Z 100))])
  = Some false.
Proof. vm_compute. reflexivity. Qed.

Example circle_boundary_is_inside :
  isPointInElement (H := exampleHost) (mkPoint (Num.of_Z 230) (Num.of_Z 240))
    (mkobj [("type", VStr "circle"); ("cx", VNum (Num.of_Z 200));
            ("cy", VNum (Num.of_Z 200)); ("r", VNum (Num.of_Z 50))])
  = Some true.
Proof. vm_compute. reflexivity. Qed.

(** ** Path codec *)

Section CodecFacts.
Context `{Host}.

Lemma isMLml_cases (c : ascii) :
  Str.is_MLml c = true → c = "M"%char ∨ c = "L"%char ∨ c = "m"%char ∨ c = "l"%char.
Proof.
  unfold Str.is_MLml, Str.char_in. cbn.
  destruct (Ascii.eqb_spec c "M"); [auto|].
  destruct (Ascii.eqb_spec c "L"); [auto|].
  destruct (Ascii.eqb_spec c "m"); [auto|].
  destruct (Ascii.eqb_spec c "l"); [auto|]. discriminate.
Qed.

(** The first capture of every match of the coordinate pattern is the
    command letter. *)
Lemma run_coordRegex_capture (s : string) (a : Str.attempt) :
  In a (Str.run Str.coordRegex s) →
  ∃ c rest, a.2 = String c EmptyString :: rest ∧ Str.is_MLml c = true.
Proof.
  unfold Str.coordRegex. cbn [Str.run]. destruct s as [|c t]; [intros []|].
  destruct (Str.is_MLml c) eqn:Hc; [|intros []].
  cbn [map flat_map]. rewrite app_nil_r. intros Hin.
  apply in_map_iff in Hin as ([[m2 t2] c2] & <- & _).
  exists c, c2. split; [reflexivity | exact Hc].
Qed.

Lemma exec_coordRegex_capture (s : string) (arr : list string) :
  Str.exec Str.coordRegex s = Some arr →
  ∃ c, arr !! 1%nat = Some (String c EmptyString) ∧ Str.is_MLml c = true.
Proof.
  induction s as [|c0 t IH]; cbn [Str.exec].
  - destruct (Str.run Str.coordRegex EmptyString) as [|[[m t'] caps] more] eqn:Hrun;
      [discriminate|].
    intros [= <-].
    destruct (run_coordRegex_capture EmptyString (m, t', caps)) as (c & rest & Hc & Hp).
    { rewrite Hrun. now left. }
    cbn in Hc. subst caps. eauto.
  - destruct (Str.run Str.coordRegex (String c0 t)) as [|[[m t'] caps] more] eqn:Hrun;
      [exact IH|].
    intros [= <-].
    destruct (run_coordRegex_capture (String c0 t) (m, t', caps)) as (c & rest & Hc & Hp).
    { rewrite Hrun. now left. }
    cbn in Hc. subst caps. eauto.
Qed.

(** The defect behind C3: whatever the text of a move or line command,
    its parsed x is [NaN], because the entry bound to [x] is the command
    letter. *)
Lemma parsed_x_is_never_a_number (cmd : string) :
  isMoveOrLine (VStr (Str.charAt0 cmd)) = true →
  prop (parseCommand cmd) "x" = VNum NaN.
Proof.
  intros Hml. unfold parseCommand. rewrite Hml.
  assert (Hx : Str.parseFloat (destructure_x_y (matchOrDefault cmd (Str.charAt0 cmd))).1
               = NaN).
  { unfold matchOrDefault, destructure_x_y.
    destruct (Str.exec Str.coordRegex cmd) as [arr|] eqn:Hexec.
    - destruct (exec_coordRegex_capture cmd arr Hexec) as (c & Hc & Hp).
      cbn [fst]. rewrite list_lookup_fmap, Hc. cbn [fmap option_fmap option_map default].
      destruct (isMLml_cases c Hp) as [-> | [-> | [-> | ->]]]; reflexivity.
    - cbn [fst]. cbn [lookup list_lookup default].
      unfold isMoveOrLine in Hml. cbn [jseq] in Hml.
      apply orb_true_iff in Hml as [Hm | Hl].
      + apply String.eqb_eq in Hm. rewrite Hm. reflexivity.
      + apply String.eqb_eq in Hl. rewrite Hl. reflexivity. }
  destruct (destructure_x_y (matchOrDefault cmd (Str.charAt0 cmd))) as [x y].
  cbn [fst] in Hx. rewrite Hx.
  unfold mkobj, prop. cbn [list_to_map foldr uncurry].
  rewrite lookup_insert_ne by discriminate. now rewrite lookup_insert_eq.
Qed.

(** C3.  The path "M 10 20 L 30 40" does not survive the round trip:
    [parsePath] reads the command letter where the x coordinate should be
    and the x coordinate where the y coordinate should be, so the path is
    serialized as "M NaN 10 L NaN 30", which parses into four segments
    instead of two. *)
Theorem roundtrip_breaks_move_line_path :
  map (λ seg, (prop seg "command", prop seg "x", prop seg "y"))
      (parsePath "M 10 20 L 30 40")
  = [(VStr "M", VNum NaN, VNum (Fin 10)); (VStr "L", VNum NaN, VNum (Fin 30))] ∧
  stringifyPath (parsePath "M 10 20 L 30 40") = "M NaN 10 L NaN 30" ∧
  map (λ seg, prop seg "command")
      (parsePath (stringifyPath (parsePath "M 10 20 L 30 40")))
  = [VStr "M"; VStr "a"; VStr "L"; VStr "a"] ∧
  parsePath (stringifyPath (parsePath "M 10 20 L 30 40"))
  ≠ parsePath "M 10 20 L 30 40".
Proof.
  split; [vm_compute; reflexivity|].
  split; [vm_compute; reflexivity|].
  split; [vm_compute; reflexivity|].
  intros Heq. apply (f_equal length) in Heq. vm_compute in Heq. discriminate.
Qed.

End CodecFacts.

(** ** Procedural path variants *)

Section VariantFacts.
Context `{Host}.

Lemma keyframes_nonempty (s : string) : keyframes s ≠ [].
Proof.
  destruct s as [|c s]; cbn; [discriminate|].
  destruct (Ascii.eqb c ";"); [discriminate|].
  destruct (keyframes s); discriminate.
Qed.

(** A text without semicolon is a single entry. *)
Lemma keyframes_lacks (s : string) : lacks ";" s → keyframes s = [s].
Proof.
  induction s as [|c s IH]; [reflexivity|].
  intros [Hc Hs]%lacks_cons. cbn.
  destruct (Ascii.eqb_spec c ";"); [congruence|].
  now rewrite (IH Hs).
Qed.

(** The entries after a semicolon are the entries of the text after it. *)
Lemma keyframes_app (a b : string) :
  ∃ front, keyframes (a +:+ String ";" b) = front ++ keyframes b ∧ front ≠ [].
Proof.
  induction a as [|c a (front & IH & Hne)].
  - exists [EmptyString]. split; [reflexivity | discriminate].
  - change (String c a +:+ String ";" b) with (String c (a +:+ String ";" b)).
    cbn [keyframes]. rewrite IH.
    destruct (Ascii.eqb c ";").
    + exists (EmptyString :: front). split; [reflexivity | discriminate].
    + destruct front as [|entry more]; [congruence|]. cbn.
      exists (String c entry :: more). split; [reflexivity | discriminate].
Qed.

Lemma join_cons (sep s : string) (rest : list string) :
  rest ≠ [] → Str.join sep (s :: rest) = s +:+ sep +:+ Str.join sep rest.
Proof. destruct rest; [congruence | reflexivity]. Qed.

(** The last entry of a list joined with semicolons is its last element,
    when that element has no semicolon. *)
Lemma last_keyframe_join (vs : list string) (p : string) :
  lacks ";" p → last (keyframes (Str.join ";" (vs ++ [p]))) = Some p.
Proof.
  intros Hp. induction vs as [|v vs IH].
  - cbn. now rewrite keyframes_lacks.
  - cbn [app]. rewrite join_cons by (destruct vs; discriminate).
    destruct (keyframes_app v (Str.join ";" (vs ++ [p]))) as (front & Hk & _).
    change (";" +:+ Str.join ";" (vs ++ [p]))
      with (String ";" (Str.join ";" (vs ++ [p]))).
    rewrite Hk, last_app_nonempty by apply keyframes_nonempty. exact IH.
Qed.

Lemma variantLoop_length (variant : nat → Rand string) (i count k : nat) :
  length (variantLoop variant i count k).1 = count.
Proof.
  revert i k. induction count as [|count IH]; intros i k; [reflexivity|].
  cbn [variantLoop]. destruct (variant i k) as [v k1].
  specialize (IH (S i) k1).
  destruct (variantLoop variant (S i) count k1) as [vs k2].
  cbn [fst length] in *. now rewrite IH.
Qed.

(** C4.  For each of the three strategies, whatever the path data, the
    intensity, the number of variations and the random draws, the
    generated value list is the variants followed by the source path
    data, joined with semicolons: its last entry is the source path
    data. *)
Theorem last_keyframe_is_source_path
    (pathData : string) (intensity : num) (numVariations k : nat) :
  endsWithSource numVariations pathData
    (generatePathVariations pathData numVariations intensity k).1 ∧
  endsWithSource numVariations pathData
    (generateJitterPaths pathData intensity numVariations k).1 ∧
  endsWithSource numVariations pathData
    (generateWavePaths pathData intensity numVariations k).1.
Proof.
  unfold generatePathVariations, generateJitterPaths, generateWavePaths,
    morphVariations, jitterVariations, waveVariations, endsWithSource.
  split; [|split].
  all: match goal with
       | |- context [variantLoop ?f ?i ?n ?k] =>
           pose proof (variantLoop_length f i n k) as Hlen;
           destruct (variantLoop f i n k) as [vs k']
       end; cbn [fst] in *;
       (split; [exists vs; split; [exact Hlen | reflexivity]
               | intros Hp; now apply last_keyframe_join]).
Qed.

End VariantFacts.

Lemma last_keyframe_is_source_path_witness :
  last (keyframes (generateJitterPaths (H := exampleHost)
                     "M 10 20 L 30 40" (Fin 7) 5 0%nat).1)
  = Some "M 10 20 L 30 40".
Proof.
  apply (proj2 (proj1 (proj2 (last_keyframe_is_source_path (H := exampleHost)
                                "M 10 20 L 30 40" (Fin 7) 5 0%nat)))).
  unfold lacks. cbn. intuition discriminate.
Defined.

(** The values generated for the path the editor draws from the points
    (10, 20) and (30, 40). *)
Example last_keyframe_of_drawn_path :
  last (keyframes (generatePathVariations (H := exampleHost)
                     "M 10 20 L 30 40" 5 (Fin (1#2)) 0%nat).1)
  = Some "M 10 20 L 30 40" ∧
  last (keyframes (generateJitterPaths (H := exampleHost)
                     "M 10 20 L 30 40" (Fin 7) 5 0%nat).1)
  = Some "M 10 20 L 30 40" ∧
  last (keyframes (generateWavePaths (H := exampleHost)
                     "M 10 20 L 30 40" (Fin 7) 5 0%nat).1)
  = Some "M 10 20 L 30 40".
Proof. repeat split; vm_compute; reflexivity. Qed.

(** ** Animation descriptors *)

Section AnimationFacts.
Context `{Host}.

Lemma regenerate_source (anim : obj) (path : string) (intensity : num) :
  prop anim "path" = VStr path →
  regenerate anim intensity
  = regenerate (motionSource path (prop anim "motionType")) intensity.
Proof.
  intros Hpath. unfold regenerate. rewrite Hpath.
  change (prop (motionSource path (prop anim "motionType")) "path")
    with (VStr path).
  replace (prop (motionSource path (prop anim "motionType")) "motionType")
    with (prop anim "motionType"); [reflexivity|].
  unfold motionSource, mkobj, prop. cbn.
  rewrite lookup_insert_ne by discriminate. now rewrite lookup_insert_eq.
Qed.

(** One move of the intensity slider. *)
Lemma editIntensity_spec (st : State) (anim : obj) (path value : string) :
  motionControls st = Some anim →
  prop anim "path" = VStr path →
  ∃ st' anim' gen,
    editIntensity value st = Some st' ∧
    motionControls st' = Some anim' ∧
    prop anim' "path" = VStr path ∧
    prop anim' "motionType" = prop anim "motionType" ∧
    regenerate (motionSource path (prop anim "motionType"))
               (String_toNumber value) = Some gen ∧
    prop anim' "values" = VStr (gen (randomCount st)).1 ∧
    prop anim' "intensity" = VNum (String_toNumber value).
Proof.
  intros Hctl Hpath. unfold editIntensity. rewrite Hctl. cbn [mbind option_bind].
  unfold motionControls in Hctl.
  destruct (truthy (selectedAnimationId st)) eqn:Hsel; [|discriminate].
  destruct (selectedAnimationIndex st) as [index|] eqn:Hidx; [|discriminate].
  cbn [mbind option_bind] in Hctl.
  destruct (animations st !! index) as [a|] eqn:Ha; [|discriminate].
  cbn [mbind option_bind] in Hctl.
  destruct (jseq (prop a "type") (VStr "motion") && truthy (prop a "path"))
    eqn:Hmotion; [|discriminate].
  injection Hctl as ->.
  unfold intensityOnChange.
  rewrite (regenerate_source anim path _ Hpath).
  destruct (regenerate (motionSource path (prop anim "motionType"))
              (String_toNumber value)) as [gen|] eqn:Hgen.
  2:{ unfold regenerate in Hgen.
      change (prop (motionSource path (prop anim "motionType")) "path")
        with (VStr path) in Hgen. discriminate. }
  cbn [mbind option_bind]. destruct (gen (randomCount st)) as [pv k] eqn:Hrun.
  rewrite Hidx, Ha.
  set (anim' := setp "values" (VStr pv)
                  (setp "intensity" (VNum (String_toNumber value)) anim)).
  assert (Hid : prop anim' "id" = prop anim "id").
  { unfold anim'. now rewrite !prop_setp_ne by discriminate. }
  assert (Htype : prop anim' "type" = prop anim "type").
  { unfold anim'. now rewrite !prop_setp_ne by discriminate. }
  assert (Hpath' : prop anim' "path" = prop anim "path").
  { unfold anim'. now rewrite !prop_setp_ne by discriminate. }
  exists (setAnimations (<[index := anim']> (animations st)) (setRandomCount k st)),
    anim', gen.
  split; [reflexivity|]. split.
  - unfold motionControls, selectedAnimationIndex in *. cbn.
    rewrite Hsel.
    destruct (findIndex_Some _ _ _ Hidx) as (a0 & Ha0 & Hp0).
    assert (a0 = anim) as -> by congruence.
    rewrite (findIndex_insert _ _ _ anim' Hidx)
      by (cbn beta; rewrite Hid; exact Hp0).
    cbn [mbind option_bind].
    rewrite list_lookup_insert_eq by (eapply lookup_lt_Some; eassumption).
    cbn [mbind option_bind]. now rewrite Htype, Hpath', Hmotion.
  - split; [now rewrite Hpath'|].
    split; [unfold anim'; now rewrite !prop_setp_ne by discriminate|].
    split; [reflexivity|].
    split.
    + unfold anim'. now rewrite prop_setp_eq, Hrun.
    + unfold anim'. rewrite prop_setp_ne by discriminate. apply prop_setp_eq.
Qed.

(** C5.  After any number of earlier intensity edits, editing the
    intensity regenerates the keyframe values from the path stored on the
    descriptor and from nothing else of the descriptor but its motion
    type: the stored path is never replaced, and the new values are what
    the generator of that motion type gives for the stored path and the
    new intensity. *)
Theorem intensity_edit_regenerates_from_stored_path
    (st : State) (anim : obj) (path : string)
    (earlier : list string) (value : string) :
  motionControls st = Some anim →
  prop anim "path" = VStr path →
  ∃ st1 st2 anim2 gen,
    editIntensities earlier st = Some st1 ∧
    editIntensity value st1 = Some st2 ∧
    motionControls st2 = Some anim2 ∧
    prop anim2 "path" = VStr path ∧
    regenerate (motionSource path (prop anim "motionType"))
               (String_toNumber value) = Some gen ∧
    prop anim2 "values" = VStr (gen (randomCount st1)).1 ∧
    prop anim2 "intensity" = VNum (String_toNumber value).
Proof.
  revert st anim. induction earlier as [|v earlier IH]; intros st anim Hctl Hpath.
  - destruct (editIntensity_spec st anim path value Hctl Hpath)
      as (st2 & anim2 & gen & He & Hc & Hp & _ & Hg & Hv & Hi).
    exists st, st2, anim2, gen. cbn [editIntensities]. auto 10.
  - destruct (editIntensity_spec st anim path v Hctl Hpath)
      as (st' & anim' & _ & He & Hc & Hp & Hm & _).
    destruct (IH st' anim' Hc Hp) as (st1 & st2 & anim2 & gen & Hes & Hrest).
    exists st1, st2, anim2, gen. cbn [editIntensities]. rewrite He.
    cbn [mbind option_bind]. rewrite <- Hm. auto.
Qed.

(** The descriptor the Path Morph button creates stores the path data of
    the selected path and the keyframes generated from it. *)
Lemma addPathMorph_stores_path (st : State) (now : Z) (sl : loc) (d : string) :
  selectedElement st = Some sl →
  prop (deref (heap st) sl) "type" = VStr "path" →
  prop (deref (heap st) sl) "d" = VStr d →
  ∃ st' anim,
    addPathMorph st now = Some st' ∧
    animations st' = animations st ++ [anim] ∧
    prop anim "path" = VStr d ∧
    prop anim "values"
    = VStr (generatePathVariations d 5 (Fin (1#2)) (randomCount st)).1.
Proof.
  intros Hsel Htype Hd. unfold addPathMorph. rewrite Hsel.
  unfold typeIs. rewrite Htype, Hd.
  change (jseq (VStr "path") (VStr "path")) with true. cbn iota.
  destruct (generatePathVariations d 5 (Fin (1#2)) (randomCount st))
    as [v k] eqn:Hgen.
  cbn [mbind option_bind]. eexists _, _. split; [reflexivity|].
  cbn. split; [reflexivity|]. split; reflexivity.
Qed.

(** Choosing another motion type keeps the stored path and the values;
    only the next intensity edit regenerates them. *)
Lemma motionTypeOnChange_keeps_path (st : State) (anim : obj) (value : string) :
  motionControls st = Some anim →
  ∃ anim', motionControls (motionTypeOnChange value st) = Some anim' ∧
           prop anim' "path" = prop anim "path" ∧
           prop anim' "values" = prop anim "values" ∧
           prop anim' "motionType" = VStr value.
Proof.
  intros Hctl. unfold motionControls in Hctl.
  destruct (truthy (selectedAnimationId st)) eqn:Hsel; [|discriminate].
  destruct (selectedAnimationIndex st) as [index|] eqn:Hidx; [|discriminate].
  cbn [mbind option_bind] in Hctl.
  destruct (animations st !! index) as [a|] eqn:Ha; [|discriminate].
  cbn [mbind option_bind] in Hctl.
  destruct (jseq (prop a "type") (VStr "motion") && truthy (prop a "path"))
    eqn:Hmotion; [|discriminate].
  injection Hctl as ->.
  set (anim' := setp "motionType" (VStr value) anim).
  exists anim'. unfold motionTypeOnChange. rewrite Hidx, Ha. fold anim'.
  destruct (findIndex_Some _ _ _ Hidx) as (a0 & Ha0 & Hp0).
  assert (a0 = anim) as -> by congruence.
  split.
  - unfold motionControls, selectedAnimationIndex in *. cbn.
    rewrite Hsel.
    rewrite (findIndex_insert _ _ _ anim' Hidx)
      by (cbn beta; unfold anim'; rewrite prop_setp_ne by discriminate;
          exact Hp0).
    cbn [mbind option_bind].
    rewrite list_lookup_insert_eq by (eapply lookup_lt_Some; eassumption).
    cbn [mbind option_bind]. unfold anim'.
    rewrite !prop_setp_ne by discriminate. now rewrite Hmotion.
  - unfold anim'. rewrite !prop_setp_ne by discriminate.
    rewrite prop_setp_eq. auto.
Qed.

End AnimationFacts.

Lemma intensity_edit_regenerates_from_stored_path_witness :
  ∃ st1 st2 anim2 gen,
    editIntensities (H := exampleHost) ["3"; "12"] morphState = Some st1 ∧
    editIntensity (H := exampleHost) "7" st1 = Some st2 ∧
    motionControls st2 = Some anim2 ∧
    prop anim2 "path" = VStr "M 10 20 L 30 40" ∧
    regenerate (H := exampleHost)
               (motionSource "M 10 20 L 30 40" (prop exampleMorph "motionType"))
               (String_toNumber (Host := exampleHost) "7") = Some gen ∧
    prop anim2 "values" = VStr (gen (randomCount st1)).1 ∧
    prop anim2 "intensity" = VNum (String_toNumber (Host := exampleHost) "7").
Proof.
  apply (intensity_edit_regenerates_from_stored_path (H := exampleHost)
           morphState exampleMorph "M 10 20 L 30 40" ["3"; "12"] "7").
  - vm_compute. reflexivity.
  - vm_compute. reflexivity.
Defined.

(** ** Transform engine *)

Section TransformFacts.
Context `{Host}.





(** C7.  A pointer move whose target shape is no longer in the element
    list changes nothing at all and raises no error. *)
Theorem stale_target_move_is_noop (st : State) (e : MouseEvent) (t : loc) :
  gestureTarget st = Some t →
  idAbsent (heap st) (elements st) (deref (heap st) t) →
  handleMouseMove st e = Some st ∧
  dispatch (λ s, handleMouseMove s e) st = Some st.
Proof.
  intros Htarget Habsent.
  assert (Hmove : handleMouseMove st e = Some st).
  { unfold handleMouseMove.
    destruct (negb (bool_decide (is_Some (draggedElement st))) &&
              negb (isDrawing st) && negb (isResizing st)); [reflexivity|].
    unfold gestureTarget in Htarget.
    destruct (if isResizing st then selectedElement st else None) as [sl|].
    - injection Htarget as ->. unfold findIndexById.
      now rewrite (findIndex_none _ _ Habsent).
    - rewrite Htarget. unfold findIndexById.
      now rewrite (findIndex_none _ _ Habsent). }
  split; [exact Hmove|].
  unfold dispatch. rewrite Hmove. cbn. now rewrite Nat.eqb_refl.
Qed.

End TransformFacts.



Lemma stale_target_move_is_noop_witness :
  handleMouseMove (H := exampleHost) staleDragState (pointerAt 50 50)
  = Some staleDragState ∧
  dispatch (H := exampleHost)
    (λ s, handleMouseMove (H := exampleHost) s (pointerAt 50 50))
    staleDragState = Some staleDragState.
Proof.
  apply (stale_target_move_is_noop (H := exampleHost) staleDragState
           (pointerAt 50 50) 0%nat).
  - reflexivity.
  - repeat constructor.
Defined.

(** A text element has no width of its own: the press on a handle
    captures [NaN] as its initial size, and the resize writes [NaN]. *)
Example text_resize_writes_NaN :
  (st1 ← handleMouseDown (H := exampleHost) selectedTextState (handleAt 150 100 "se");
   st2 ← handleMouseMove (H := exampleHost) st1 (pointerAt 300 300);
   Some (initialSize st1, prop (deref (heap st2) 0%nat) "width"))
  = Some (mkSize (VNum NaN) (VNum NaN), VNum NaN).
Proof. vm_compute. reflexivity. Qed.

(** Dragging a circle of radius 50 at (200, 200), picked up at its
    centre, to the pointer (230, 210) puts its centre at the nearest
    grid point, (240, 220). *)
Example drag_circle_snaps_centre :
  (st1 ← handleMouseDown (H := exampleHost)
           (setElements [0%nat]
              (setHeap [mkobj [("id", VStr "c"); ("type", VStr "circle");
                               ("cx", VNum (Num.of_Z 200));
                               ("cy", VNum (Num.of_Z 200));
                               ("r", VNum (Num.of_Z 50))]] initialState))
           (pointerAt 200 200);
   st2 ← handleMouseMove (H := exampleHost) st1 (pointerAt 230 210);
   Some (map (λ o, (prop o "cx", prop o "cy")) (scene st2)))
  = Some [(VNum (Fin 240), VNum (Fin 220))].
Proof. vm_compute. reflexivity. Qed.

(** ** Gesture state *)

Section GestureFacts.
Context `{Host}.

Lemma historyEffect_gesture (st : State) :
  isDrawing (historyEffect st) = isDrawing st ∧
  pathPoints (historyEffect st) = pathPoints st ∧
  drawingPath (historyEffect st) = drawingPath st ∧
  draggedElement (historyEffect st) = draggedElement st ∧
  isResizing (historyEffect st) = isResizing st ∧
  elements (historyEffect st) = elements st ∧
  heap (historyEffect st) = heap st.
Proof. unfold historyEffect. destruct (mustRecord st); cbn; auto 10. Qed.








Lemma dispatch_same_version (handler : State → option State) (st st1 : State) :
  handler st = Some st1 →
  elementsVersion st1 = elementsVersion st →
  dispatch handler st = Some st1.
Proof.
  intros Hh Hv. unfold dispatch. rewrite Hh. cbn.
  now rewrite Hv, Nat.eqb_refl.
Qed.




End GestureFacts.


(** ** History manager *)

Section HistoryFacts.
Context `{Host}.


(** When the scene is the current snapshot, the history effect has
    nothing to record. *)
Lemma historyEffect_inSync (st : State) :
  nthZ (history st) (historyIndex st) = Some (elements st) →
  historyEffect st = st.
Proof.
  intros Hsync. unfold historyEffect.
  replace (mustRecord st) with false; [reflexivity|].
  symmetry. unfold mustRecord. apply andb_false_iff. right.
  apply orb_false_iff. split.
  - apply Nat.eqb_neq. apply nthZ_Some_length in Hsync. lia.
  - apply bool_decide_eq_false. intros Hne. apply Hne. now rewrite Hsync.
Qed.

Lemma dispatch_new_elements (handler : State → option State) (st st1 : State) :
  handler st = Some st1 →
  elementsVersion st1 ≠ elementsVersion st →
  dispatch handler st = Some (historyEffect st1).
Proof.
  intros Hh Hv. unfold dispatch. rewrite Hh. cbn [mbind option_bind].
  now rewrite (proj2 (Nat.eqb_neq _ _) Hv).
Qed.

(** The undo key stroke, away from the first snapshot. *)
Lemma undo_spec (st : State) (snapshot : list loc) :
  0 < historyIndex st →
  nthZ (history st) (historyIndex st - 1) = Some snapshot →
  ∃ st', undo st = Some st' ∧
         history st' = history st ∧
         historyIndex st' = historyIndex st - 1 ∧
         elements st' = snapshot ∧
         heap st' = heap st.
Proof.
  intros Hpos Hsnap.
  set (st1 := setElements snapshot (setHistoryIndex (historyIndex st - 1) st)).
  assert (Hkey : handleKeyDown st undoKey = Some st1).
  { unfold handleKeyDown, undoKey.
    cbn [ctrlKey metaKey shiftKey key orb andb].
    change ("z" =? "z")%string with true. cbv iota.
    destruct (Z.ltb_spec 0 (historyIndex st)); [|lia].
    now rewrite Hsnap. }
  exists st1. unfold undo.
  rewrite (dispatch_new_elements _ st st1 Hkey) by (cbn; lia).
  rewrite historyEffect_inSync by exact Hsnap. auto.
Qed.

(** The redo key stroke, away from the last snapshot. *)
Lemma redo_spec (st : State) (snapshot : list loc) :
  nthZ (history st) (historyIndex st + 1) = Some snapshot →
  ∃ st', redo st = Some st' ∧
         history st' = history st ∧
         historyIndex st' = historyIndex st + 1 ∧
         elements st' = snapshot ∧
         heap st' = heap st.
Proof.
  intros Hsnap.
  set (st1 := setElements snapshot (setHistoryIndex (historyIndex st + 1) st)).
  assert (Hkey : handleKeyDown st redoKey = Some st1).
  { unfold handleKeyDown, redoKey.
    cbn [ctrlKey metaKey shiftKey key orb andb].
    change ("z" =? "z")%string with true. cbv iota.
    pose proof (nthZ_Some_length _ _ _ Hsnap) as [_ Hlen].
    destruct (Z.ltb_spec (historyIndex st) (Z.of_nat (length (history st)) - 1));
      [|apply nthZ_Some in Hsnap; lia].
    now rewrite Hsnap. }
  exists st1. unfold redo.
  rewrite (dispatch_new_elements _ st st1 Hkey) by (cbn; lia).
  rewrite historyEffect_inSync by exact Hsnap. auto.
Qed.

(** [n] undo key strokes, with at least [n] snapshots below the current
    one. *)
Lemma undo_times (n : nat) (st : State) (target : list loc) :
  (∀ j : nat, (j <= n)%nat → is_Some (nthZ (history st) (historyIndex st - Z.of_nat j))) →
  nthZ (history st) (historyIndex st - Z.of_nat n) = Some target →
  nthZ (history st) (historyIndex st) = Some (elements st) →
  ∃ st', times n undo st = Some st' ∧
         history st' = history st ∧
         historyIndex st' = historyIndex st - Z.of_nat n ∧
         elements st' = target ∧
         heap st' = heap st.
Proof.
  revert st. induction n as [|n IH]; intros st Hall Htarget Hsync.
  - exists st. replace (historyIndex st - Z.of_nat 0) with (historyIndex st) in * by lia.
    cbn [times]. split; [reflexivity|]. repeat split; try lia. congruence.
  - destruct (Hall 1%nat ltac:(lia)) as [snapshot Hsnap].
    replace (historyIndex st - Z.of_nat 1) with (historyIndex st - 1) in Hsnap by lia.
    assert (Hpos : 0 < historyIndex st).
    { destruct (Hall (S n) ltac:(lia)) as [x Hx]. apply nthZ_Some in Hx. lia. }
    destruct (undo_spec st snapshot Hpos Hsnap) as (st1 & Hu & Hh & Hi & He & Hp).
    destruct (IH st1) as (st' & Ht & Hh' & Hi' & He' & Hp').
    + intros j Hj. rewrite Hh, Hi.
      replace (historyIndex st - 1 - Z.of_nat j)
        with (historyIndex st - Z.of_nat (S j)) by lia.
      apply Hall. lia.
    + rewrite Hh, Hi.
      replace (historyIndex st - 1 - Z.of_nat n)
        with (historyIndex st - Z.of_nat (S n)) by lia. exact Htarget.
    + rewrite Hh, Hi, He. exact Hsnap.
    + exists st'. cbn [times]. rewrite Hu. cbn [mbind option_bind].
      split; [exact Ht|]. repeat split; try congruence. lia.
Qed.

(** [n] redo key strokes, with at least [n] snapshots above the current
    one. *)
Lemma redo_times (n : nat) (st : State) (target : list loc) :
  (∀ j : nat, (j <= n)%nat → is_Some (nthZ (history st) (historyIndex st + Z.of_nat j))) →
  nthZ (history st) (historyIndex st + Z.of_nat n) = Some target →
  nthZ (history st) (historyIndex st) = Some (elements st) →
  ∃ st', times n redo st = Some st' ∧
         history st' = history st ∧
         historyIndex st' = historyIndex st + Z.of_nat n ∧
         elements st' = target ∧
         heap st' = heap st.
Proof.
  revert st. induction n as [|n IH]; intros st Hall Htarget Hsync.
  - exists st. replace (historyIndex st + Z.of_nat 0) with (historyIndex st) in * by lia.
    cbn [times]. split; [reflexivity|]. repeat split; try lia. congruence.
  - destruct (Hall 1%nat ltac:(lia)) as [snapshot Hsnap].
    replace (historyIndex st + Z.of_nat 1) with (historyIndex st + 1) in Hsnap by lia.
    destruct (redo_spec st snapshot Hsnap) as (st1 & Hu & Hh & Hi & He & Hp).
    destruct (IH st1) as (st' & Ht & Hh' & Hi' & He' & Hp').
    + intros j Hj. rewrite Hh, Hi.
      replace (historyIndex st + 1 + Z.of_nat j)
        with (historyIndex st + Z.of_nat (S j)) by lia.
      apply Hall. lia.
    + rewrite Hh, Hi.
      replace (historyIndex st + 1 + Z.of_nat n)
        with (historyIndex st + Z.of_nat (S n)) by lia. exact Htarget.
    + rewrite Hh, Hi, He. exact Hsnap.
    + exists st'. cbn [times]. rewrite Hu. cbn [mbind option_bind].
      split; [exact Ht|]. repeat split; try congruence. lia.
Qed.

(** What one recorded edit does to the history. *)
Lemma recordedEdit_spec (st st1 : State) :
  inSync st → recordedEdit st st1 →
  inSync st1 ∧
  historyIndex st1 = historyIndex st + 1 ∧
  Z.of_nat (length (history st1)) = historyIndex st1 + 1 ∧
  (∀ j, j <= historyIndex st → nthZ (history st1) j = nthZ (history st) j) ∧
  ∃ fresh, heap st1 = heap st ++ fresh.
Proof.
  intros [Hsync Halloc] (st' & fresh & Hheap & Hhist & Hidx & Halloc' & Hrec & ->).
  apply nthZ_Some in Hsync as Hsync'. destruct Hsync' as [Hnonneg Hlook].
  apply lookup_lt_Some in Hlook as Hlt.
  unfold historyEffect, inSync. rewrite Hrec, Hhist, Hidx.
  cbn [history historyIndex heap elements setHistory setHistoryIndex].
  unfold slice0. destruct (Z.ltb_spec (historyIndex st + 1) 0); [lia|].
  set (pre := take (Z.to_nat (historyIndex st + 1)) (history st)).
  assert (Hpre : length pre = Z.to_nat (historyIndex st + 1)).
  { unfold pre. rewrite length_take. lia. }
  rewrite length_app, Hpre. cbn [length].
  split; [split|].
  - apply nthZ_Some. split; [lia|].
    replace (Z.to_nat (Z.of_nat (Z.to_nat (historyIndex st + 1) + 1) - 1))
      with (length pre + 0)%nat by lia.
    now rewrite lookup_app_r, Nat.add_comm, Nat.add_sub by lia.
  - exact Halloc'.
  - split; [lia|]. split; [lia|]. split; [|eauto].
    intros j Hj. unfold nthZ. destruct (Z.ltb_spec j 0); [reflexivity|].
    rewrite lookup_app_l by lia. unfold pre. apply lookup_take_lt. lia.
Qed.

(** What [n] recorded edits do to the history. *)
Lemma edits_spec (n : nat) (st stn : State) :
  edits n st stn → inSync st →
  inSync stn ∧
  historyIndex stn = historyIndex st + Z.of_nat n ∧
  Z.of_nat (length (history stn)) > historyIndex stn ∧
  (∀ j, j <= historyIndex st → nthZ (history stn) j = nthZ (history st) j) ∧
  ∃ fresh, heap stn = heap st ++ fresh.
Proof.
  induction 1 as [st | n st st1 st2 Hedit _ IH]; intros Hsync.
  - split; [assumption|]. split; [lia|].
    destruct Hsync as [Hs _]. apply nthZ_Some_length in Hs.
    split; [lia|]. split; [auto|]. exists []. now rewrite app_nil_r.
  - destruct (recordedEdit_spec st st1 Hsync Hedit)
      as (Hsync1 & Hi1 & _ & Hpre1 & fresh1 & Hh1).
    destruct (IH Hsync1) as (Hsync2 & Hi2 & Hlen2 & Hpre2 & fresh2 & Hh2).
    split; [assumption|]. split; [lia|]. split; [assumption|]. split.
    + intros j Hj. rewrite Hpre2 by lia. now apply Hpre1.
    + exists (fresh1 ++ fresh2). now rewrite Hh2, Hh1, app_assoc.
Qed.

(** C2, as amended.  From a scene that is the snapshot at the current
    history index, after [n] recorded edits that write to no object
    already in the store, [n] undos bring back the scene before the first
    edit, and [n] redos after them the scene after the last edit. *)
Theorem undo_redo_inverse (n : nat) (st0 stn : State) :
  inSync st0 →
  edits n st0 stn →
  ∃ u r,
    times n undo stn = Some u ∧
    elements u = elements st0 ∧ scene u = scene st0 ∧
    times n redo u = Some r ∧
    elements r = elements stn ∧ scene r = scene stn.
Proof.
  intros Hsync0 Hedits.
  destruct (edits_spec n st0 stn Hedits Hsync0)
    as ([Hsyncn Hallocn] & Hin & Hlen & Hpre & fresh & Hheap).
  destruct Hsync0 as [Hsync0 Halloc0].
  apply nthZ_Some in Hsync0 as Hnonneg. destruct Hnonneg as [Hnonneg _].
  destruct (undo_times n stn (elements st0)) as (u & Hu & Hhu & Hiu & Heu & Hpu).
  { intros j Hj. apply nthZ_is_Some. lia. }
  { rewrite Hin. replace (historyIndex st0 + Z.of_nat n - Z.of_nat n)
      with (historyIndex st0) by lia.
    rewrite Hpre by lia. exact Hsync0. }
  { exact Hsyncn. }
  destruct (redo_times n u (elements stn)) as (r & Hr & Hhr & Hir & Her & Hpr).
  { intros j Hj. rewrite Hhu, Hiu. apply nthZ_is_Some. lia. }
  { rewrite Hhu, Hiu. replace (historyIndex stn - Z.of_nat n + Z.of_nat n)
      with (historyIndex stn) by lia. exact Hsyncn. }
  { rewrite Hhu, Hiu, Heu, Hin.
    replace (historyIndex st0 + Z.of_nat n - Z.of_nat n)
      with (historyIndex st0) by lia.
    rewrite Hpre by lia. exact Hsync0. }
  exists u, r. split; [exact Hu|]. split; [exact Heu|]. split.
  { unfold scene. rewrite Hpu, Heu, Hheap. now apply resolve_app. }
  split; [exact Hr|]. split; [exact Her|].
  unfold scene. now rewrite Hpr, Hpu, Her.
Qed.

End HistoryFacts.


(** C2, as stated, fails: the first edit of an empty scene is recorded,
    and the undo that follows leaves its rectangle on the canvas, since
    the empty scene was never a snapshot. *)
Lemma undo_stops_at_first_snapshot :
  (st1 ← dispatch (H := exampleHost)
           (λ s, handleMouseDown (H := exampleHost) s (pointerAt 100 100))
           (setMode "rect" initialState);
   st2 ← undo (H := exampleHost) st1;
   Some (history st1, length (scene st2),
         length (scene (setMode "rect" initialState))))
  = Some ([[0%nat]], 1%nat, 0%nat).
Proof. vm_compute. reflexivity. Qed.

(** A resize writes to the element object that the current snapshot
    refers to as well: it is not recorded, and the snapshot shows the new
    size. *)
Example resize_rewrites_recorded_snapshot :
  (st1 ← dispatch (H := exampleHost)
           (λ s, handleMouseMove (H := exampleHost) s (pointerAt 100 120))
           recordedResizingState;
   Some (map (λ o, (prop o "width", prop o "height"))
             (resolve (heap recordedResizingState) [0%nat]),
         history st1,
         map (λ o, (prop o "width", prop o "height"))
             (resolve (heap st1) [0%nat])))
  = Some ([(VNum (Fin 100), VNum (Fin 80))], [[0%nat]],
          [(VNum (Fin 200), VNum (Fin 200))]).
Proof. vm_compute. reflexivity. Qed.

(** Undo on the empty history changes nothing. *)
Example undo_on_empty_history :
  undo (H := exampleHost) initialState = Some initialState.
Proof. reflexivity. Qed.

Lemma undo_redo_inverse_witness :
  ∃ u r,
    times 1 (undo (H := exampleHost))
      (historyEffect (H := exampleHost) secondRectState) = Some u ∧
    elements u = elements rectToolState ∧ scene u = scene rectToolState ∧
    times 1 (redo (H := exampleHost)) u = Some r ∧
    elements r = elements (historyEffect (H := exampleHost) secondRectState) ∧
    scene r = scene (historyEffect (H := exampleHost) secondRectState).
Proof.
  apply (undo_redo_inverse (H := exampleHost) 1 rectToolState).
  - split; [reflexivity|]. repeat constructor.
  - eapply edits_cons; [|apply edits_nil].
    exists secondRectState, (drop 1 (heap secondRectState)).
    split; [vm_compute; reflexivity|].
    split; [vm_compute; reflexivity|].
    split; [vm_compute; reflexivity|].
    split; [vm_compute; repeat constructor|].
    split; [vm_compute; reflexivity | reflexivity].
Defined.

(** ** Snapping *)

Lemma snap_finite (st : State) (v g : Q) :
  snapToGrid st = true → gridSize st = Fin g → ¬ (g == 0)%Q →
  snapToGridValue st (Fin v)
  = Num.fin (inject_Z (Qfloor (Qred (v / g) + (1#2))) * g).
Proof.
  intros Hs Hg Hnz. unfold snapToGridValue. rewrite Hs, Hg.
  unfold Num.div. pose proof (sgn_nonzero g Hnz) as Hsg.
  destruct (Num.sgn g); [congruence| |]; reflexivity.
Qed.





Example snap_half_way_goes_up :
  snapToGridValue initialState (Fin 130) = Fin 140 ∧
  snapToGridValue initialState (Fin (-130)) = Fin (-120).
Proof. split; vm_compute; reflexivity. Qed.

(** ** Paths under the pointer *)

Section PathHitFacts.
Context `{Host}.

(** The entry a move or line command binds to [x] is not a number. *)
Lemma destructured_x_NaN (cmd : string) :
  isMoveOrLine (VStr (Str.charAt0 cmd)) = true →
  Str.parseFloat (destructure_x_y (matchOrDefault cmd (Str.charAt0 cmd))).1 = NaN.
Proof.
  intros Hml. unfold matchOrDefault, destructure_x_y.
  destruct (Str.exec Str.coordRegex cmd) as [arr|] eqn:Hexec.
  - destruct (exec_coordRegex_capture cmd arr Hexec) as (c & Hc & Hp).
    cbn [fst]. rewrite list_lookup_fmap, Hc.
    cbn [fmap option_fmap option_map default].
    destruct (isMLml_cases c Hp) as [-> | [-> | [-> | ->]]]; reflexivity.
  - cbn [fst]. cbn [lookup list_lookup default].
    unfold isMoveOrLine in Hml. cbn [jseq] in Hml.
    apply orb_true_iff in Hml as [Hm | Hl].
    + apply String.eqb_eq in Hm. rewrite Hm. reflexivity.
    + apply String.eqb_eq in Hl. rewrite Hl. reflexivity.
Qed.

Lemma extendExtent_lost (e : Extent) (cmd : string) :
  extentLost e → extentLost (extendExtent e cmd).
Proof.
  destruct e as [[[minX minY] maxX] maxY]. unfold extendExtent.
  destruct (isMoveOrLine (VStr (Str.charAt0 cmd))) eqn:Hml; [|auto].
  intros _. pose proof (destructured_x_NaN cmd Hml) as Hx.
  destruct (destructure_x_y (matchOrDefault cmd (Str.charAt0 cmd))) as [x y].
  cbn [fst] in Hx. rewrite Hx. right. cbn [fst snd]. now destruct minX.
Qed.

Lemma fold_extendExtent_lost (cmds : list string) (e : Extent) :
  extentLost e → extentLost (fold_left extendExtent cmds e).
Proof.
  revert e. induction cmds as [|cmd cmds IH]; intros e He; [exact He|].
  cbn [fold_left]. apply IH. now apply extendExtent_lost.
Qed.

Lemma path_not_hit (el : obj) (d : string) (point : Point) :
  prop el "type" = VStr "path" → prop el "d" = VStr d →
  isPointInElement point el = Some false.
Proof.
  intros Htype Hd. unfold isPointInElement, getBoundingBox.
  rewrite Htype, Hd.
  change (jseq (VStr "path") (VStr "rect")) with false.
  change (jseq (VStr "path") (VStr "circle")) with false.
  change (jseq (VStr "path") (VStr "ellipse")) with false.
  change (jseq (VStr "path") (VStr "text")) with false.
  change (jseq (VStr "path") (VStr "path")) with true.
  cbn [negb mbind option_bind].
  pose proof (fold_extendExtent_lost (Str.splitCommands d) extent0) as Hlost.
  destruct (fold_left extendExtent (Str.splitCommands d) extent0)
    as [[[minX minY] maxX] maxY].
  destruct Hlost as [[Hmin Hmax] | Hmin]; [left; split; reflexivity | |];
    cbn [fst snd] in *; subst; cbn [bboxOfExtent bb_x bb_y bb_width bb_height].
  - destruct point as [px py]. cbn. destruct px; reflexivity.
  - destruct point as [px py]. cbn. reflexivity.
Qed.

Lemma path_bbox_lost (el : obj) (d : string) :
  prop el "type" = VStr "path" → prop el "d" = VStr d →
  ∃ bbox, getBoundingBox el = Some bbox ∧
          (bb_x bbox = NaN ∨ (bb_x bbox = PInf ∧ bb_width bbox = NInf)).
Proof.
  intros Htype Hd. unfold getBoundingBox. rewrite Htype, Hd.
  change (jseq (VStr "path") (VStr "path")) with true. cbn [negb].
  eexists. split; [reflexivity|].
  pose proof (fold_extendExtent_lost (Str.splitCommands d) extent0) as Hlost.
  destruct (fold_left extendExtent (Str.splitCommands d) extent0)
    as [[[minX minY] maxX] maxY].
  destruct Hlost as [[Hmin Hmax] | Hmin]; [left; split; reflexivity | |];
    cbn [fst snd] in *; subst; cbn [bboxOfExtent bb_x bb_width]; auto.
Qed.

(** X3. No point is inside a path shape: for every path whose [d] is a
    string, whatever the string, the x of the bounding box is [NaN] (a
    move or line command has been read) or the box is the empty box of
    C10 (none has), and [isPointInElement] answers false for every
    point. *)
Theorem path_is_never_hit (el : obj) (d : string) :
  prop el "type" = VStr "path" →
  prop el "d" = VStr d →
  (∃ bbox, getBoundingBox el = Some bbox ∧
           (bb_x bbox = NaN ∨ (bb_x bbox = PInf ∧ bb_width bbox = NInf))) ∧
  ∀ point : Point, isPointInElement point el = Some false.
Proof.
  intros Htype Hd. split; [now apply (path_bbox_lost el d)|].
  intros point. now apply (path_not_hit el d).
Qed.

Lemma findClicked_hit (h : list obj) (p : Point) (els : list loc) (l : loc) :
  findClicked h p els = Some (Some l) →
  ∃ i, els !! i = Some l ∧
       isPointInElement p (deref h l) = Some true ∧
       ∀ j l', (j < i)%nat → els !! j = Some l' →
               isPointInElement p (deref h l') = Some false.
Proof.
  induction els as [|l0 els IH]; cbn [findClicked]; [discriminate|].
  destruct (isPointInElement p (deref h l0)) as [[|]|] eqn:Hhit; [| |discriminate].
  - intros [= <-]. exists 0%nat. split; [reflexivity|]. split; [exact Hhit|].
    intros j l' Hj. lia.
  - intros Hfind. destruct (IH Hfind) as (i & Hi & Hl & Hbefore).
    exists (S i). split; [exact Hi|]. split; [exact Hl|].
    intros [|j] l' Hj Hlook.
    + cbn in Hlook. injection Hlook as <-. exact Hhit.
    + apply (Hbefore j); [lia | exact Hlook].
Qed.

Lemma hit_is_not_path (p : Point) (o : obj) :
  isPointInElement p o = Some true → typeIs o "path" = false.
Proof.
  intros Hhit. unfold typeIs. destruct (jseq (prop o "type") (VStr "path")) eqn:Ht;
    [|reflexivity].
  assert (Htype : prop o "type" = VStr "path").
  { destruct (prop o "type") as [| | |s]; try discriminate.
    cbn in Ht. apply String.eqb_eq in Ht. now subst. }
  destruct (prop o "d") as [| | |d] eqn:Hd.
  4: { rewrite (path_not_hit o d p Htype Hd) in Hhit. discriminate. }
  all: unfold isPointInElement, getBoundingBox in Hhit;
    rewrite Htype, Hd in Hhit; cbn in Hhit; discriminate.
Qed.

(** X4. A press of the pointer in select mode never picks a path: when
    the press is not on a resize handle, the element it selects and
    starts to drag, if any, is not of type [path].  A path whose [d] is
    not a string makes the handler throw instead. *)
Theorem click_never_selects_path (st st' : State) (e : MouseEvent) (l : loc) :
  mode st = "select" →
  targetIsResizeHandle e = false →
  handleMouseDown st e = Some st' →
  selectedElement st' = Some l →
  typeIs (deref (heap st') l) "path" = false ∧ draggedElement st' = Some l.
Proof.
  intros Hmode Hhandle Hdown Hsel. unfold handleMouseDown in Hdown.
  rewrite Hmode, Hhandle in Hdown.
  change ("select" =? "select")%string with true in Hdown.
  cbv beta iota in Hdown.
  destruct (findClicked (heap st) (getSVGCoordinates st e) (elements st))
    as [[l0|]|] eqn:Hfind; cbn [mbind option_bind] in Hdown; [| |discriminate].
  - destruct (dragOffset (getSVGCoordinates st e) (deref (heap st) l0))
      as [off|]; cbn [mbind option_bind] in Hdown; [|discriminate].
    injection Hdown as <-. cbn in Hsel. injection Hsel as <-.
    cbn [heap setOffset setDraggedElement setSelectedElement draggedElement].
    split; [|reflexivity].
    destruct (findClicked_hit _ _ _ _ Hfind) as (i & _ & Hhit & _).
    exact (hit_is_not_path _ _ Hhit).
  - injection Hdown as <-. cbn in Hsel. discriminate.
Qed.

End PathHitFacts.

Lemma path_is_never_hit_witness :
  (∃ bbox, getBoundingBox (H := exampleHost) examplePath = Some bbox ∧
           (bb_x bbox = NaN ∨ (bb_x bbox = PInf ∧ bb_width bbox = NInf))) ∧
  ∀ point : Point,
    isPointInElement (H := exampleHost) point examplePath = Some false.
Proof.
  apply (path_is_never_hit (H := exampleHost) examplePath "M 10 20 L 30 40");
    reflexivity.
Defined.

Example drawn_path_has_no_box :
  getBoundingBox (H := exampleHost) examplePath
  = Some (mkBBox NaN (Fin 10) NaN (Fin 20)).
Proof. vm_compute. reflexivity. Qed.

Lemma click_never_selects_path_witness :
  typeIs (deref (heap (after (PointerDown (pointerAt 20 30)) pathUnderRectState))
                1%nat) "path" = false ∧
  draggedElement (after (PointerDown (pointerAt 20 30)) pathUnderRectState)
  = Some 1%nat.
Proof.
  apply (click_never_selects_path (H := exampleHost) pathUnderRectState
           (after (PointerDown (pointerAt 20 30)) pathUnderRectState)
           (pointerAt 20 30) 1%nat);
    vm_compute; reflexivity.
Defined.

(** ** Paths on the move *)

Section PathMoveFacts.
Context `{Host}.

Lemma translateCommand_moved (tx ty : num) (cmd : string) :
  movedCommand cmd (translateCommand tx ty cmd).
Proof.
  unfold movedCommand, translateCommand.
  destruct (isMoveOrLine (VStr (Str.charAt0 cmd))) eqn:Hml; [|reflexivity].
  pose proof (destructured_x_NaN cmd Hml) as Hx.
  destruct (destructure_x_y (matchOrDefault cmd (Str.charAt0 cmd))) as [x y].
  cbn [fst] in Hx. rewrite Hx. eexists. reflexivity.
Qed.

Lemma translatePathData_moved (tx ty : num) (d : string) :
  ∃ pieces,
    translatePathData tx ty (VStr d) = Some (Str.join " " pieces) ∧
    Forall2 movedCommand (Str.splitCommands d) pieces.
Proof.
  eexists. split; [reflexivity|].
  induction (Str.splitCommands d) as [|cmd cmds IH]; cbn [map]; constructor.
  - apply translateCommand_moved.
  - exact IH.
Qed.

(** X5. Pasting a path loses the x coordinates: the pasted element's
    [d] is the clipboard's [d] cut into commands, with every move and
    line command rewritten as its letter, [NaN] and a number, and every
    other command kept, joined by spaces. *)
Theorem pasted_path_loses_x (st : State) (e : KeyEvent) (cl : loc) (d : string) :
  (ctrlKey e || metaKey e) = true → key e = "v" →
  clipboard st = Some cl →
  prop (deref (heap st) cl) "type" = VStr "path" →
  prop (deref (heap st) cl) "d" = VStr d →
  ∃ st' l pieces,
    handleKeyDown st e = Some st' ∧
    elements st' = elements st ++ [l] ∧
    selectedElement st' = Some l ∧
    prop (deref (heap st') l) "d" = VStr (Str.join " " pieces) ∧
    Forall2 movedCommand (Str.splitCommands d) pieces.
Proof.
  intros Hctrl Hkey Hclip Htype Hd.
  destruct (translatePathData_moved (Num.of_Z 20) (Num.of_Z 20) d)
    as (pieces & Htr & Hmoved).
  unfold handleKeyDown. rewrite Hctrl, Hkey, Hclip.
  change ("v" =? "z")%string with false.
  change ("v" =? "Delete")%string with false.
  change ("v" =? "c")%string with false.
  change ("v" =? "v")%string with true.
  cbn [andb].
  destruct (generateId (ke_now e) (randomCount st)) as [id k].
  unfold pastedElement.
  assert (Ht : ∀ t, typeIs (setp "id" (VStr id) (deref (heap st) cl)) t
                    = jseq (VStr "path") (VStr t)).
  { intros t. unfold typeIs. rewrite prop_setp_ne by discriminate.
    now rewrite Htype. }
  rewrite !Ht.
  change (jseq (VStr "path") (VStr "rect")) with false.
  change (jseq (VStr "path") (VStr "text")) with false.
  change (jseq (VStr "path") (VStr "circle")) with false.
  change (jseq (VStr "path") (VStr "path")) with true.
  cbn [orb]. rewrite prop_setp_ne by discriminate. rewrite Hd, Htr.
  cbn [mbind option_bind alloc].
  eexists _, _, pieces. split; [reflexivity|].
  cbn [elements selectedElement heap setSelectedElement setElements
       setElementsVersion setElementsArray setHeap setRandomCount].
  split; [reflexivity|]. split; [reflexivity|]. split; [|exact Hmoved].
  unfold deref. rewrite lookup_app_r by lia. rewrite Nat.sub_diag.
  cbn [lookup list_lookup default]. apply prop_setp_eq.
Qed.

End PathMoveFacts.

Lemma pasted_path_loses_x_witness :
  ∃ st' l pieces,
    handleKeyDown (H := exampleHost) clipboardPathState (pasteKey 1000) = Some st' ∧
    elements st' = elements clipboardPathState ++ [l] ∧
    selectedElement st' = Some l ∧
    prop (deref (heap st') l) "d" = VStr (Str.join " " pieces) ∧
    Forall2 (movedCommand (H := exampleHost))
            (Str.splitCommands "M 10 20 L 30 40") pieces.
Proof.
  apply (pasted_path_loses_x (H := exampleHost) clipboardPathState
           (pasteKey 1000) 0%nat "M 10 20 L 30 40");
    reflexivity.
Defined.

Example paste_path_scenario :
  Str.join " " (map (translateCommand (H := exampleHost) (Num.of_Z 20) (Num.of_Z 20))
                    (Str.splitCommands "M 10 20 L 30 40 Z"))
  = "M NaN 30 L NaN 50 Z".
Proof. vm_compute. reflexivity. Qed.

(** ** Rectangles and text under the pointer *)

Section ContainmentFacts.
Context `{Host}.




End ContainmentFacts.



(** ** Sessions *)

Section SessionFacts.
Context `{Host}.

Lemma inSession_inv (P : State → Prop) :
  P initialState →
  (∀ c st st', P st → runCommand c st = Some st' → P st') →
  ∀ st, inSession st → P st.
Proof.
  intros Hinit Hstep st [cs Hrun]. revert Hrun.
  generalize initialState, Hinit. clear Hinit.
  induction cs as [|c cs IH]; intros st0 H0; cbn [runCommands].
  - now intros [= <-].
  - destruct (runCommand c st0) as [st1|] eqn:Hc; [|discriminate].
    cbn [mbind option_bind]. apply IH. eapply Hstep; eassumption.
Qed.

Lemma historyEffect_gridSize (st : State) :
  gridSize (historyEffect st) = gridSize st.
Proof. unfold historyEffect. now destruct (mustRecord st). Qed.

Lemma handlerOf_gridSize (c : Command) (st st1 : State) :
  handlerOf c st = Some st1 → gridSize st1 = gridSize st.
Proof. intros Hh. destruct c; crush_handler; reflexivity. Qed.

Lemma runCommand_gridSize (c : Command) (st st' : State) :
  runCommand c st = Some st' → gridSize st' = gridSize st.
Proof.
  unfold runCommand, dispatch. intros Hr.
  destruct (handlerOf c st) as [st1|] eqn:Hh; [|discriminate].
  cbn in Hr. injection Hr as <-.
  destruct (Nat.eqb _ _); rewrite ?historyEffect_gridSize;
    eapply handlerOf_gridSize; eassumption.
Qed.

(** X8. No command writes the grid size: in every state of a session
    it is 20, the value the component mounts with, so the grid never
    moves the minimum dimension of a resize. *)
Theorem grid_size_is_constant (st : State) :
  inSession st → gridSize st = Num.of_Z 20 ∧ gridKeepsMinimum st.
Proof.
  intros Hs.
  assert (Hg : gridSize st = Num.of_Z 20).
  { revert st Hs. apply inSession_inv; [reflexivity|].
    intros c st st' IH Hr. now rewrite (runCommand_gridSize c st st' Hr). }
  split; [exact Hg|]. right. exists 20%Q, 1%positive.
  split; [exact Hg | reflexivity].
Qed.

Lemma length_slice0 {A : Type} (arr : list A) (e : Z) :
  0 <= e <= Z.of_nat (length arr) → Z.of_nat (length (slice0 arr e)) = e.
Proof.
  intros He. unfold slice0. destruct (Z.ltb_spec e 0); [lia|].
  rewrite length_take. lia.
Qed.

Lemma historyEffect_bounded (st : State) :
  historyBounded st → historyBounded (historyEffect st).
Proof.
  intros Hb. unfold historyEffect. destruct (mustRecord st); [|exact Hb].
  right. cbn [history historyIndex setHistory setHistoryIndex].
  rewrite length_app. cbn [length].
  destruct Hb as [[Hi Hh] | Hb].
  - rewrite Hi, Hh. cbn. lia.
  - rewrite Nat2Z.inj_add, length_slice0 by lia. cbn. lia.
Qed.

Lemma handlerOf_bounded (c : Command) (st st1 : State) :
  handlerOf c st = Some st1 → historyBounded st → historyBounded st1.
Proof.
  intros Hh Hb. unfold historyBounded in *.
  destruct c; crush_handler; cbn; try exact Hb;
    repeat match goal with
      | Hlt : (_ <? _) = true |- _ => apply Z.ltb_lt in Hlt
      | Hlt : (_ <? _) = false |- _ => apply Z.ltb_ge in Hlt
      end; try lia.
Qed.

(** X9. In every state of a session either nothing has been recorded
    and the history index is -1, or the index is that of a recorded
    snapshot: [history[historyIndex]] is defined from the first record
    on, through every undo and redo. *)
Theorem history_index_stays_in_bounds (st : State) :
  inSession st → historyBounded st.
Proof.
  revert st. apply inSession_inv; [left; split; reflexivity|].
  intros c st st' IH. unfold runCommand, dispatch.
  destruct (handlerOf c st) as [st1|] eqn:Hh; [|discriminate].
  cbn. intros [= <-].
  pose proof (handlerOf_bounded c st st1 Hh IH) as Hb.
  destruct (Nat.eqb _ _); [exact Hb | now apply historyEffect_bounded].
Qed.

Lemma pathDataOfPoints_one (p : Point) :
  pathDataOfPoints [p] = "M " +:+ Str.ofNum (pt_x p) +:+ " " +:+ Str.ofNum (pt_y p).
Proof. reflexivity. Qed.

Lemma historyEffect_preview (st : State) :
  previewInStep st → previewInStep (historyEffect st).
Proof. unfold previewInStep, historyEffect. now destruct (mustRecord st). Qed.

Lemma handlerOf_preview (c : Command) (st st1 : State) :
  handlerOf c st = Some st1 → previewInStep st → previewInStep st1.
Proof.
  intros Hh Hb. unfold previewInStep in *.
  destruct c; crush_handler; cbn; try exact Hb; try reflexivity.
Qed.

Lemma session_preview (st : State) : inSession st → previewInStep st.
Proof.
  revert st. apply inSession_inv; [reflexivity|].
  intros c st st' IH. unfold runCommand, dispatch.
  destruct (handlerOf c st) as [st1|] eqn:Hh; [|discriminate].
  cbn. intros [= <-].
  pose proof (handlerOf_preview c st st1 Hh IH) as Hb.
  destruct (Nat.eqb _ _); [exact Hb | now apply historyEffect_preview].
Qed.

Lemma deref_alloc (h : list obj) (o : obj) : deref (h ++ [o]) (length h) = o.
Proof.
  unfold deref. rewrite lookup_app_r by lia. now rewrite Nat.sub_diag.
Qed.

Lemma createPath_props (now : Z) (points : list Point) (k : nat) :
  prop (createPath now points k).1 "type" = VStr "path" ∧
  prop (createPath now points k).1 "d" = VStr (pathDataOfPoints points).
Proof.
  unfold createPath. destruct (generateId now k) as [id k']. cbn [fst].
  split; reflexivity.
Qed.

(** X10. The path a pointer-up finishes is the path of the preview: in
    a session, when a path with at least two captured points is being
    drawn, pointer-up appends one element of type [path] whose [d] is
    the preview's path data, selects it and ends the drawing; and no
    point is inside the new element, so no later click picks it. *)
Theorem finished_path_is_the_preview (st : State) (now : Z) :
  inSession st →
  isDrawing st = true →
  (2 <= length (pathPoints st))%nat →
  ∃ st' l,
    runCommand (PointerUp now) st = Some st' ∧
    elements st' = elements st ++ [l] ∧
    selectedElement st' = Some l ∧
    prop (deref (heap st') l) "type" = VStr "path" ∧
    prop (deref (heap st') l) "d" = VStr (drawingPath st) ∧
    isDrawing st' = false ∧
    ∀ point, isPointInElement point (deref (heap st') l) = Some false.
Proof.
  intros Hs Hdraw Hlen. pose proof (session_preview st Hs) as Hprev.
  unfold previewInStep in Hprev.
  destruct (createPath now (pathPoints st) (randomCount st)) as [newPath k] eqn:Hnew.
  pose proof (createPath_props now (pathPoints st) (randomCount st)) as [Ht Hd].
  rewrite Hnew in Ht, Hd. cbn [fst] in Ht, Hd. rewrite <- Hprev in Hd.
  set (st1 := handleMouseUp st now).
  assert (H1 : st1 = setIsResizing false (setDraggedElement None
                 (setDrawingPath EmptyString (setPathPoints [] (setIsDrawing false
                 (setSelectedElement (Some (length (heap st)))
                    (setElements (elements st ++ [length (heap st)])
                       (setHeap (heap st ++ [newPath]) (setRandomCount k st))))))))).
  { unfold st1, handleMouseUp. rewrite Hdraw, Hnew.
    destruct (Nat.ltb_spec 1 (length (pathPoints st))); [reflexivity | lia]. }
  exists (historyEffect st1), (length (heap st)).
  destruct (historyEffect_gesture st1) as (Hg1 & _ & _ & _ & _ & Hg6 & Hg7).
  assert (Hsel : selectedElement (historyEffect st1) = selectedElement st1).
  { unfold historyEffect. now destruct (mustRecord st1). }
  split.
  { unfold runCommand. cbn [handlerOf]. apply dispatch_new_elements; [reflexivity|].
    fold st1. rewrite H1. cbn. lia. }
  rewrite Hg6, Hg7, Hg1, Hsel, H1.
  cbn [elements heap selectedElement isDrawing setIsResizing setDraggedElement
       setDrawingPath setPathPoints setIsDrawing setSelectedElement setElements
       setElementsVersion setElementsArray setHeap setRandomCount].
  rewrite deref_alloc.
  split; [reflexivity|]. split; [reflexivity|]. split; [exact Ht|].
  split; [exact Hd|]. split; [reflexivity|].
  intros point. now apply (path_not_hit newPath (drawingPath st)).
Qed.

End SessionFacts.

Lemma grid_size_is_constant_witness :
  gridSize (afterAll rectangleSession initialState) = Num.of_Z 20 ∧
  gridKeepsMinimum (afterAll rectangleSession initialState).
Proof.
  apply (grid_size_is_constant (H := exampleHost)).
  exists rectangleSession. vm_compute. reflexivity.
Defined.

Lemma history_index_stays_in_bounds_witness :
  historyBounded (afterAll rectangleSession initialState).
Proof.
  apply (history_index_stays_in_bounds (H := exampleHost)).
  exists rectangleSession. vm_compute. reflexivity.
Defined.

Lemma finished_path_is_the_preview_witness :
  ∃ st' l,
    runCommand (H := exampleHost) (PointerUp 3000)
      (afterAll drawingSession initialState) = Some st' ∧
    elements st' = elements (afterAll drawingSession initialState) ++ [l] ∧
    selectedElement st' = Some l ∧
    prop (deref (heap st') l) "type" = VStr "path" ∧
    prop (deref (heap st') l) "d"
    = VStr (drawingPath (afterAll drawingSession initialState)) ∧
    isDrawing st' = false ∧
    ∀ point, isPointInElement (H := exampleHost) point (deref (heap st') l)
             = Some false.
Proof.
  apply (finished_path_is_the_preview (H := exampleHost)
           (afterAll drawingSession initialState) 3000).
  - exists drawingSession. vm_compute. reflexivity.
  - vm_compute. reflexivity.
  - vm_compute. lia.
Defined.

Example drawn_path_preview :
  drawingPath (afterAll drawingSession initialState) = "M 10 20 L 30 40".
Proof. vm_compute. reflexivity. Qed.

(** ** The history effect and the toolbar buttons *)

Section HistoryEffectFacts.
Context `{Host}.

Lemma nthZ_last {A : Type} (l : list A) (a : A) :
  nthZ (l ++ [a]) (Z.of_nat (length (l ++ [a])) - 1) = Some a.
Proof.
  rewrite length_app. cbn [length]. apply nthZ_Some. split; [lia|].
  replace (Z.to_nat (Z.of_nat (length l + 1) - 1)) with (length l) by lia.
  rewrite lookup_app_r by lia. now rewrite Nat.sub_diag.
Qed.

(** X11. After the history effect has run on a non-empty scene, the
    snapshot at the history index prints like the scene: either the
    effect has just appended the scene and moved the index to it, or it
    found the two equal; in both cases the index is that of a snapshot. *)
Theorem history_effect_tracks_scene (st : State) :
  elements st ≠ [] →
  stringifySnapshot (heap (historyEffect st))
    (nthZ (history (historyEffect st)) (historyIndex (historyEffect st)))
  = stringifySnapshot (heap (historyEffect st)) (Some (elements (historyEffect st))) ∧
  0 <= historyIndex (historyEffect st)
    < Z.of_nat (length (history (historyEffect st))).
Proof.
  intros Hne. unfold historyEffect. destruct (mustRecord st) eqn:Hm.
  - cbn [history historyIndex heap elements setHistory setHistoryIndex].
    rewrite nthZ_last. split; [reflexivity|]. rewrite length_app. cbn. lia.
  - unfold mustRecord in Hm.
    destruct (elements st) as [|l els] eqn:Hels; [congruence|].
    cbn [length Nat.ltb Nat.leb andb] in Hm.
    apply orb_false_iff in Hm as [_ Hm].
    apply bool_decide_eq_false in Hm.
    assert (Heq : stringifySnapshot (heap st) (nthZ (history st) (historyIndex st))
                  = stringifySnapshot (heap st) (Some (l :: els))).
    { destruct (decide (stringifySnapshot (heap st) (nthZ (history st) (historyIndex st))
                        = stringifySnapshot (heap st) (Some (l :: els)))); tauto. }
    split; [exact Heq|].
    destruct (nthZ (history st) (historyIndex st)) as [snap|] eqn:Hn;
      [|discriminate].
    apply nthZ_Some_length in Hn. lia.
Qed.

Lemma redo_at_tail (st : State) :
  historyIndex st = Z.of_nat (length (history st)) - 1 →
  redo st = Some st ∧ redoButton st = Some st.
Proof.
  intros Hi. split.
  - unfold redo. apply dispatch_same_version; [|reflexivity].
    unfold handleKeyDown, redoKey. cbn [ctrlKey metaKey shiftKey key orb andb].
    change ("z" =? "z")%string with true. cbv beta iota.
    destruct (Z.ltb_spec (historyIndex st) (Z.of_nat (length (history st)) - 1));
      [lia | reflexivity].
  - unfold redoButton, andAlso, test, callSetter.
    destruct (Z.ltb_spec (historyIndex st) (Z.of_nat (length (history st)) - 1));
      [lia | reflexivity].
Qed.

(** X12. A recorded edit leaves nothing to redo: the history effect
    cuts the snapshots after the index before it appends, so right
    after a recorded edit the redo key stroke and the Redo button both
    leave the whole state as it is, whatever had been undone before. *)
Theorem recorded_edit_leaves_nothing_to_redo (st st1 : State) :
  recordedEdit st st1 →
  historyIndex st1 = Z.of_nat (length (history st1)) - 1 ∧
  redo st1 = Some st1 ∧ redoButton st1 = Some st1.
Proof.
  intros (st' & fresh & _ & _ & _ & _ & Hm & ->).
  assert (Hi : historyIndex (historyEffect st')
               = Z.of_nat (length (history (historyEffect st'))) - 1).
  { unfold historyEffect. rewrite Hm. reflexivity. }
  split; [exact Hi|]. now apply redo_at_tail.
Qed.

(** X13. The Undo and Redo buttons of the toolbar never restore a
    snapshot: [setHistoryIndex] returns [undefined], so the [&&] chain
    stops before [setElements].  A click moves the history index by one
    when the guard allows it and leaves the elements, the store and the
    recorded snapshots as they are; no history effect follows. *)
Theorem toolbar_buttons_move_index_only (st : State) :
  ∃ u r,
    runCommand UndoButton st = Some u ∧
    runCommand RedoButton st = Some r ∧
    u = setHistoryIndex
          (if Z.ltb 0 (historyIndex st)
           then historyIndex st - 1 else historyIndex st) st ∧
    r = setHistoryIndex
          (if Z.ltb (historyIndex st) (Z.of_nat (length (history st)) - 1)
           then historyIndex st + 1 else historyIndex st) st ∧
    scene u = scene st ∧ scene r = scene st.
Proof.
  destruct st as [h els ver sel drg off drw dp pp md gs sn hist hi zl vb sti tp
                  rs rd isz ipos cb an said rc].
  unfold runCommand, dispatch, handlerOf, undoButton, redoButton, andAlso, test,
    callSetter. cbn [historyIndex history].
  destruct (0 <? hi); destruct (hi <? Z.of_nat (length hist) - 1);
    cbn; rewrite Nat.eqb_refl; eexists _, _; repeat split; reflexivity.
Qed.

End HistoryEffectFacts.

Lemma history_effect_tracks_scene_witness :
  stringifySnapshot (H := exampleHost)
    (heap (historyEffect (H := exampleHost) secondRectState))
    (nthZ (history (historyEffect (H := exampleHost) secondRectState))
          (historyIndex (historyEffect (H := exampleHost) secondRectState)))
  = stringifySnapshot (H := exampleHost)
      (heap (historyEffect (H := exampleHost) secondRectState))
      (Some (elements (historyEffect (H := exampleHost) secondRectState))) ∧
  0 <= historyIndex (historyEffect (H := exampleHost) secondRectState)
    < Z.of_nat (length (history (historyEffect (H := exampleHost) secondRectState))).
Proof.
  apply (history_effect_tracks_scene (H := exampleHost) secondRectState).
  vm_compute. discriminate.
Defined.

Lemma recorded_edit_leaves_nothing_to_redo_witness :
  historyIndex (historyEffect (H := exampleHost) secondRectState)
  = Z.of_nat (length (history (historyEffect (H := exampleHost) secondRectState))) - 1 ∧
  redo (H := exampleHost) (historyEffect (H := exampleHost) secondRectState)
  = Some (historyEffect (H := exampleHost) secondRectState) ∧
  redoButton (historyEffect (H := exampleHost) secondRectState)
  = Some (historyEffect (H := exampleHost) secondRectState).
Proof.
  apply (recorded_edit_leaves_nothing_to_redo (H := exampleHost) rectToolState).
  exists secondRectState, (drop 1 (heap secondRectState)).
  split; [vm_compute; reflexivity|].
  split; [vm_compute; reflexivity|].
  split; [vm_compute; reflexivity|].
  split; [vm_compute; repeat constructor|].
  split; [vm_compute; reflexivity | reflexivity].
Defined.

(** ** The Delete key *)

Section DeleteFacts.
Context `{Host}.

Lemma handleKeyDown_delete (st : State) (sl : loc) :
  selectedElement st = Some sl →
  handleKeyDown st deleteKey
  = Some (setSelectedElement None
            (setElements
               (filter (λ l, jseq (prop (deref (heap st) l) "id")
                                  (prop (deref (heap st) sl) "id") = false)
                       (elements st)) st)).
Proof. intros Hsel. unfold handleKeyDown, deleteKey. cbn. now rewrite Hsel. Qed.

Lemma filter_none {A : Type} (P : A → Prop) `{∀ x, Decision (P x)} (l : list A) :
  Forall (λ x, ¬ P x) l → filter P l = [].
Proof.
  induction 1 as [|x l Hx _ IH]; [reflexivity|].
  rewrite filter_cons. destruct (decide (P x)); [contradiction | exact IH].
Qed.

(** X14. Deleting the last shape is not recorded and cannot be undone:
    when every element on the canvas carries the identifier of the
    selected one, the Delete key empties the scene and clears the
    selection, the history effect that follows records nothing (it
    skips an empty scene), and if the history index is at the first
    snapshot or before, an undo key stroke afterwards changes nothing. *)
Theorem deleting_the_last_shape_is_not_recorded (st : State) (sl : loc) :
  selectedElement st = Some sl →
  Forall (λ l, jseq (prop (deref (heap st) l) "id")
                    (prop (deref (heap st) sl) "id") = true) (elements st) →
  ∃ st',
    runCommand (KeyDown deleteKey) st = Some st' ∧
    elements st' = [] ∧ selectedElement st' = None ∧
    history st' = history st ∧ historyIndex st' = historyIndex st ∧
    (historyIndex st <= 0 → undo st' = Some st').
Proof.
  intros Hsel Hall.
  set (st1 := setSelectedElement None (setElements [] st)).
  assert (Hkey : handleKeyDown st deleteKey = Some st1).
  { rewrite (handleKeyDown_delete st sl Hsel). unfold st1.
    rewrite filter_none; [reflexivity|].
    eapply Forall_impl; [exact Hall|]. cbn. intros l ->. discriminate. }
  assert (Heff : historyEffect st1 = st1) by reflexivity.
  exists st1. split.
  { unfold runCommand. cbn [handlerOf].
    rewrite (dispatch_new_elements _ st st1 Hkey) by (cbn; lia).
    now rewrite Heff. }
  repeat (split; [reflexivity|]).
  intros Hi. unfold undo. apply dispatch_same_version; [|reflexivity].
  unfold handleKeyDown, undoKey. cbn [ctrlKey metaKey shiftKey key orb andb].
  change ("z" =? "z")%string with true. cbv beta iota.
  change (historyIndex st1) with (historyIndex st).
  destruct (Z.ltb_spec 0 (historyIndex st)); [lia | reflexivity].
Qed.

(** X15. Deleting a shape in the middle of a gesture ends the gesture
    without an error: after the Delete key has removed the selected
    element, no element of the scene carries its identifier, and while
    no path is being drawn every later pointer move that still refers
    to it (as the dragged element) leaves the whole state unchanged. *)
Theorem delete_during_drag_stops_the_drag (st : State) (sl : loc) :
  selectedElement st = Some sl →
  isDrawing st = false →
  draggedElement st = None ∨ draggedElement st = Some sl →
  ∃ st',
    runCommand (KeyDown deleteKey) st = Some st' ∧
    idAbsent (heap st') (elements st') (deref (heap st') sl) ∧
    ∀ e, runCommand (PointerMove e) st' = Some st'.
Proof.
  intros Hsel Hdraw Hdrag.
  pose proof (handleKeyDown_delete st sl Hsel) as Hkey.
  set (st1 := setSelectedElement None _) in Hkey.
  assert (Habs : idAbsent (heap st1) (elements st1) (deref (heap st1) sl)).
  { unfold idAbsent, st1.
    cbn [heap elements setSelectedElement setElements setElementsVersion
         setElementsArray].
    apply Forall_forall. intros l Hl. apply list_elem_of_filter in Hl. tauto. }
  destruct (historyEffect_gesture st1) as (Hg1 & _ & _ & Hg4 & Hg5 & Hg6 & Hg7).
  assert (Hsel1 : selectedElement (historyEffect st1) = None).
  { unfold historyEffect. now destruct (mustRecord st1). }
  exists (historyEffect st1). split.
  { unfold runCommand. cbn [handlerOf].
    apply (dispatch_new_elements _ st st1 Hkey). unfold st1. cbn. lia. }
  split; [now rewrite Hg6, Hg7|].
  intros e. unfold runCommand. cbn [handlerOf].
  apply dispatch_same_version; [|reflexivity].
  cbn [handlerOf]. unfold handleMouseMove. rewrite Hg1, Hg4, Hg5, Hsel1, Hg6, Hg7.
  change (isDrawing st1) with (isDrawing st). rewrite Hdraw.
  change (draggedElement st1) with (draggedElement st).
  destruct Hdrag as [-> | ->].
  - rewrite bool_decide_eq_false_2 by (intros [? ?]; discriminate).
    cbn [negb andb]. now destruct (isResizing st1).
  - rewrite bool_decide_eq_true_2 by eauto. cbn [negb andb].
    destruct (isResizing st1); cbv beta iota;
      unfold findIndexById; rewrite findIndex_none by exact Habs; reflexivity.
Qed.

End DeleteFacts.

Lemma deleting_the_last_shape_is_not_recorded_witness :
  ∃ st',
    runCommand (H := exampleHost) (KeyDown deleteKey) selectedRectState = Some st' ∧
    elements st' = [] ∧ selectedElement st' = None ∧
    history st' = history selectedRectState ∧
    historyIndex st' = historyIndex selectedRectState ∧
    (historyIndex selectedRectState <= 0 → undo (H := exampleHost) st' = Some st').
Proof.
  apply (deleting_the_last_shape_is_not_recorded (H := exampleHost)
           selectedRectState 0%nat).
  - reflexivity.
  - repeat constructor.
Defined.

Lemma delete_during_drag_stops_the_drag_witness :
  ∃ st',
    runCommand (H := exampleHost) (KeyDown deleteKey)
      (after (PointerDown (pointerAt 10 10)) recordedState) = Some st' ∧
    idAbsent (heap st') (elements st') (deref (heap st') 0%nat) ∧
    ∀ e, runCommand (H := exampleHost) (PointerMove e) st' = Some st'.
Proof.
  apply (delete_during_drag_stops_the_drag (H := exampleHost)
           (after (PointerDown (pointerAt 10 10)) recordedState) 0%nat).
  - vm_compute. reflexivity.
  - vm_compute. reflexivity.
  - right. vm_compute. reflexivity.
Defined.

(** ** Copy and paste *)

Section PasteFacts.
Context `{Host}.

Lemma historyEffect_cases (st : State) :
  historyEffect st = st ∨
  ∃ hist idx, historyEffect st = setHistoryIndex idx (setHistory hist st).
Proof.
  unfold historyEffect. destruct (mustRecord st); [right; eauto | now left].
Qed.

Lemma deref_app (h fresh : list obj) (l : loc) :
  (l < length h)%nat → deref (h ++ fresh) l = deref h l.
Proof. intros Hl. unfold deref. now rewrite lookup_app_l. Qed.

(** One paste of a rectangle or text: the state the handler returns. *)
Lemma paste_box (st : State) (now : Z) (cl : loc) :
  clipboard st = Some cl →
  typeIs (deref (heap st) cl) "rect" || typeIs (deref (heap st) cl) "text" = true →
  ∃ st' id k,
    runCommand (KeyDown (pasteKey now)) st = Some st' ∧
    generateId now (randomCount st) = (id, k) ∧
    heap st' = heap st ++
      [setp "y" (jadd (prop (deref (heap st) cl) "y") (VNum (Num.of_Z 20)))
         (setp "x" (jadd (prop (deref (heap st) cl) "x") (VNum (Num.of_Z 20)))
            (setp "id" (VStr id) (deref (heap st) cl)))] ∧
    elements st' = elements st ++ [length (heap st)] ∧
    selectedElement st' = Some (length (heap st)) ∧
    clipboard st' = Some cl.
Proof.
  intros Hclip Htype.
  destruct (generateId now (randomCount st)) as [id k] eqn:Hid.
  set (new :=
    setp "y" (jadd (prop (deref (heap st) cl) "y") (VNum (Num.of_Z 20)))
      (setp "x" (jadd (prop (deref (heap st) cl) "x") (VNum (Num.of_Z 20)))
         (setp "id" (VStr id) (deref (heap st) cl)))).
  set (st1 := setSelectedElement (Some (length (heap st)))
                (setElements (elements st ++ [length (heap st)])
                   (setHeap (heap st ++ [new]) (setRandomCount k st)))).
  assert (Hkey : handleKeyDown st (pasteKey now) = Some st1).
  { unfold handleKeyDown, pasteKey.
    cbn [ctrlKey metaKey shiftKey key ke_now orb andb].
    change ("v" =? "z")%string with false.
    change ("v" =? "Delete")%string with false.
    change ("v" =? "c")%string with false.
    change ("v" =? "v")%string with true.
    cbv beta iota. rewrite Hclip, Hid. unfold pastedElement.
    assert (Ht : ∀ t, typeIs (setp "id" (VStr id) (deref (heap st) cl)) t
                      = typeIs (deref (heap st) cl) t).
    { intros t. unfold typeIs. now rewrite prop_setp_ne by discriminate. }
    rewrite !Ht, Htype. cbn [mbind option_bind alloc].
    rewrite !prop_setp_ne by discriminate. reflexivity. }
  exists (historyEffect st1), id, k. split.
  { unfold runCommand. cbn [handlerOf].
    apply (dispatch_new_elements _ st st1 Hkey). unfold st1. cbn. lia. }
  split; [reflexivity|].
  destruct (historyEffect_cases st1) as [-> | (hist & idx & ->)];
    unfold st1; cbn; rewrite Hclip; auto.
Qed.

(** X16. Repeated pastes land on one spot: the clipboard keeps the
    copied rectangle or text as it was, and every paste offsets its
    coordinates by 20, so two pastes in a row append two elements, the
    second one selected, both at (x + 20, y + 20) for the clipboard's
    (x, y), the second exactly on top of the first. *)
Theorem repeated_paste_lands_on_one_spot
    (st : State) (now1 now2 : Z) (cl : loc) (x y : Q) :
  clipboard st = Some cl →
  (cl < length (heap st))%nat →
  typeIs (deref (heap st) cl) "rect" || typeIs (deref (heap st) cl) "text" = true →
  prop (deref (heap st) cl) "x" = VNum (Fin x) →
  prop (deref (heap st) cl) "y" = VNum (Fin y) →
  ∃ st2 l1 l2 x' y',
    runCommands [KeyDown (pasteKey now1); KeyDown (pasteKey now2)] st = Some st2 ∧
    elements st2 = elements st ++ [l1; l2] ∧
    selectedElement st2 = Some l2 ∧
    prop (deref (heap st2) l1) "x" = VNum (Fin x') ∧
    prop (deref (heap st2) l1) "y" = VNum (Fin y') ∧
    prop (deref (heap st2) l2) "x" = VNum (Fin x') ∧
    prop (deref (heap st2) l2) "y" = VNum (Fin y') ∧
    (x' == x + 20)%Q ∧ (y' == y + 20)%Q.
Proof.
  intros Hclip Hcl Htype Hx Hy.
  destruct (paste_box st now1 cl Hclip Htype)
    as (st1 & id1 & k1 & Hrun1 & _ & Hh1 & He1 & _ & Hc1).
  assert (Hd1 : deref (heap st1) cl = deref (heap st) cl).
  { rewrite Hh1. now apply deref_app. }
  assert (Htype1 : typeIs (deref (heap st1) cl) "rect"
                   || typeIs (deref (heap st1) cl) "text" = true)
    by now rewrite Hd1.
  destruct (paste_box st1 now2 cl Hc1 Htype1)
    as (st2 & id2 & k2 & Hrun2 & _ & Hh2 & He2 & Hs2 & _).
  destruct (add_fin x 20) as (x' & Hx' & Ex).
  destruct (add_fin y 20) as (y' & Hy' & Ey).
  exists st2, (length (heap st)), (length (heap st1)), x', y'.
  split. { cbn [runCommands]. rewrite Hrun1. cbn [mbind option_bind].
           rewrite Hrun2. reflexivity. }
  split. { rewrite He2, He1, <- app_assoc. reflexivity. }
  split; [exact Hs2|].
  assert (Hl1 : deref (heap st2) (length (heap st))
                = default ∅ (heap st1 !! length (heap st))).
  { rewrite Hh2. apply deref_app. rewrite Hh1, length_app. cbn. lia. }
  rewrite Hl1, Hh2, deref_alloc, Hd1, Hh1.
  rewrite lookup_app_r by lia. rewrite Nat.sub_diag.
  cbn [lookup list_lookup default]. unfold id.
  rewrite Hx, Hy. cbn [jadd toNumber].
  change (Num.of_Z 20) with (Fin 20). rewrite Hx', Hy'.
  rewrite !prop_setp_eq.
  rewrite !(prop_setp_ne "y" "x") by discriminate. rewrite !prop_setp_eq.
  auto 10.
Qed.

End PasteFacts.

Lemma repeated_paste_lands_on_one_spot_witness :
  ∃ st2 l1 l2 x' y',
    runCommands (H := exampleHost)
      [KeyDown (pasteKey 1000); KeyDown (pasteKey 2000)] copiedState = Some st2 ∧
    elements st2 = elements copiedState ++ [l1; l2] ∧
    selectedElement st2 = Some l2 ∧
    prop (deref (heap st2) l1) "x" = VNum (Fin x') ∧
    prop (deref (heap st2) l1) "y" = VNum (Fin y') ∧
    prop (deref (heap st2) l2) "x" = VNum (Fin x') ∧
    prop (deref (heap st2) l2) "y" = VNum (Fin y') ∧
    (x' == 0 + 20)%Q ∧ (y' == 0 + 20)%Q.
Proof.
  apply (repeated_paste_lands_on_one_spot (H := exampleHost) copiedState
           1000 2000 1%nat 0 0).
  - vm_compute. reflexivity.
  - vm_compute. lia.
  - vm_compute. reflexivity.
  - vm_compute. reflexivity.
  - vm_compute. reflexivity.
Defined.

(** ** The properties panel *)

Section PanelFacts.
Context `{Host}.

Lemma setProperty_found (k : string) (v : jsval) (st : State)
    (sl l : loc) (index : nat) :
  selectedElement st = Some sl →
  findIndexById (heap st) (elements st) (deref (heap st) sl) = Some index →
  elements st !! index = Some l →
  setProperty k v st
  = setSelectedElement (Some (length (heap st)))
      (setElements (<[index := length (heap st)]> (elements st))
         (setHeap (heap st ++ [setp k v (deref (heap st) l)]) st)).
Proof.
  intros Hsel Hidx Hl. unfold setProperty. rewrite Hsel, Hidx, Hl. reflexivity.
Qed.

Lemma allocated_insert (h : list obj) (o : obj) (arr : list loc) (i : nat) :
  allocated h arr → allocated (h ++ [o]) (<[i := length h]> arr).
Proof.
  unfold allocated. intros Hall. rewrite length_app. cbn [length].
  apply Forall_insert; [|lia].
  eapply Forall_impl; [exact Hall|]. cbn. intros; lia.
Qed.

(** X17. An input of the properties panel writes one field of one
    object, on a copy: when the selected identifier is found at [index],
    the handler stores at that index a new object that differs from the
    old one in the edited field only, selects it, and writes to no
    object of the store, so the snapshots of the history keep their
    look; when the identifier is not on the canvas the handler changes
    nothing. *)
Theorem property_edit_writes_one_field_of_a_copy
    (k : string) (v : jsval) (st : State) (sl : loc) :
  selectedElement st = Some sl →
  (idAbsent (heap st) (elements st) (deref (heap st) sl) →
   setProperty k v st = st) ∧
  (∀ index l,
     findIndexById (heap st) (elements st) (deref (heap st) sl) = Some index →
     elements st !! index = Some l →
     ∃ l',
       elements (setProperty k v st) = <[index := l']> (elements st) ∧
       selectedElement (setProperty k v st) = Some l' ∧
       prop (deref (heap (setProperty k v st)) l') k = v ∧
       (∀ k', k ≠ k' →
          prop (deref (heap (setProperty k v st)) l') k'
          = prop (deref (heap st) l) k') ∧
       (∀ m, (m < length (heap st))%nat →
          deref (heap (setProperty k v st)) m = deref (heap st) m)).
Proof.
  intros Hsel. split.
  - intros Habs. unfold setProperty. rewrite Hsel.
    unfold findIndexById. now rewrite findIndex_none by exact Habs.
  - intros index l Hidx Hl.
    rewrite (setProperty_found k v st sl l index Hsel Hidx Hl).
    exists (length (heap st)).
    cbn [elements selectedElement heap setSelectedElement setElements
         setElementsVersion setElementsArray setHeap].
    rewrite deref_alloc.
    split; [reflexivity|]. split; [reflexivity|].
    split; [apply prop_setp_eq|].
    split; [intros k' Hk; now apply prop_setp_ne|].
    intros m Hm. now apply deref_app.
Qed.

(** X18. A property edit can be undone: from a state whose scene is the
    snapshot at the history index, an edit of the properties panel that
    the history effect records is a recorded edit in the sense of C2,
    and one undo key stroke after it restores the scene as it was
    before the edit, the edited field included. *)
Theorem property_edit_can_be_undone
    (k : string) (v : jsval) (st : State) (sl l : loc) (index : nat) :
  inSync st →
  selectedElement st = Some sl →
  findIndexById (heap st) (elements st) (deref (heap st) sl) = Some index →
  elements st !! index = Some l →
  mustRecord (setProperty k v st) = true →
  ∃ st' u,
    runCommand (SetProperty k v) st = Some st' ∧
    recordedEdit st st' ∧
    prop (deref (heap st') (default O (elements st' !! index))) k = v ∧
    undo st' = Some u ∧
    scene u = scene st.
Proof.
  intros Hsync Hsel Hidx Hl Hrec.
  pose proof (setProperty_found k v st sl l index Hsel Hidx Hl) as Hset.
  set (st1 := setProperty k v st) in *.
  assert (Hedit : recordedEdit st (historyEffect st1)).
  { exists st1, [setp k v (deref (heap st) l)].
    rewrite Hset at 1 2 3 4 5.
    cbn [elements heap history historyIndex setSelectedElement setElements
         setElementsVersion setElementsArray setHeap].
    repeat (split; [reflexivity|]).
    split; [apply allocated_insert, Hsync|]. split; [exact Hrec | reflexivity]. }
  destruct (recordedEdit_spec st (historyEffect st1) Hsync Hedit)
    as (Hsync' & Hi' & _ & Hkeep & fresh & Hheap).
  destruct Hsync as [Hnth Halloc].
  pose proof (nthZ_Some_length _ _ _ Hnth) as [Hi0 _].
  destruct (undo_spec (historyEffect st1) (elements st)) as (u & Hu & _ & _ & Heu & Hhu).
  { lia. }
  { rewrite Hi'. replace (historyIndex st + 1 - 1) with (historyIndex st) by lia.
    rewrite Hkeep by lia. exact Hnth. }
  exists (historyEffect st1), u.
  split.
  { unfold runCommand. cbn [handlerOf]. apply dispatch_new_elements; [reflexivity|].
    fold st1. rewrite Hset. cbn. lia. }
  split; [exact Hedit|].
  split.
  { destruct (historyEffect_gesture st1) as (_ & _ & _ & _ & _ & -> & ->).
    rewrite Hset.
    cbn [elements heap setSelectedElement setElements
         setElementsVersion setElementsArray setHeap].
    rewrite list_lookup_insert_eq by (eapply lookup_lt_Some; exact Hl).
    cbn [default]. unfold id. rewrite deref_alloc. apply prop_setp_eq. }
  split; [exact Hu|].
  unfold scene. rewrite Heu, Hhu, Hheap. now apply resolve_app.
Qed.

End PanelFacts.

Lemma property_edit_writes_one_field_of_a_copy_witness :
  ∃ l',
    elements (setProperty "fill" (VStr "#ff0000") selectedRectState)
    = <[0%nat := l']> (elements selectedRectState) ∧
    selectedElement (setProperty "fill" (VStr "#ff0000")
                       selectedRectState) = Some l' ∧
    prop (deref (heap (setProperty "fill" (VStr "#ff0000")
                         selectedRectState)) l') "fill" = VStr "#ff0000" ∧
    (∀ k', "fill" ≠ k' →
       prop (deref (heap (setProperty "fill" (VStr "#ff0000")
                            selectedRectState)) l') k'
       = prop (deref (heap selectedRectState) 0%nat) k') ∧
    (∀ m, (m < length (heap selectedRectState))%nat →
       deref (heap (setProperty "fill" (VStr "#ff0000")
                      selectedRectState)) m
       = deref (heap selectedRectState) m).
Proof.
  apply (proj2 (property_edit_writes_one_field_of_a_copy
                  "fill" (VStr "#ff0000") selectedRectState 0%nat eq_refl)
           0%nat 0%nat);
    reflexivity.
Defined.

Lemma property_edit_can_be_undone_witness :
  ∃ st' u,
    runCommand (H := exampleHost) (SetProperty "fill" (VStr "#ff0000"))
      selectedRectState = Some st' ∧
    recordedEdit (H := exampleHost) selectedRectState st' ∧
    prop (deref (heap st') (default O (elements st' !! 0%nat))) "fill"
    = VStr "#ff0000" ∧
    undo (H := exampleHost) st' = Some u ∧
    scene u = scene selectedRectState.
Proof.
  apply (property_edit_can_be_undone (H := exampleHost) "fill" (VStr "#ff0000")
           selectedRectState 0%nat 0%nat 0%nat).
  - split; [reflexivity|]. repeat constructor.
  - reflexivity.
  - reflexivity.
  - reflexivity.
  - vm_compute. reflexivity.
Defined.

(** ** The text input *)

Section TextInputFacts.
Context `{Host}.

Lemma trimStart_blank (s : string) :
  Forall (λ c, Str.is_ws c = true) (list_ascii_of_string s) →
  trimStart s = EmptyString.
Proof.
  induction s as [|c s IH]; cbn; [reflexivity|].
  intros Hall. inversion Hall as [|? ? Hc Hs]; subst. rewrite Hc. auto.
Qed.

Lemma trimStart_not_blank (s : string) :
  Exists (λ c, Str.is_ws c = false) (list_ascii_of_string s) →
  ∃ c rest, trimStart s = String c rest ∧ Str.is_ws c = false.
Proof.
  induction s as [|c s IH]; cbn; intros Hex.
  - inversion Hex.
  - destruct (Str.is_ws c) eqn:Hc.
    + apply IH. inversion Hex as [? ? Hc'|]; subst; [congruence | assumption].
    + eauto.
Qed.

Lemma list_ascii_reverse (s : string) :
  list_ascii_of_string (reverse s) = rev (list_ascii_of_string s).
Proof. unfold reverse. apply list_ascii_of_string_of_list_ascii. Qed.

Lemma trim_blank (s : string) :
  Forall (λ c, Str.is_ws c = true) (list_ascii_of_string s) →
  trim s = EmptyString.
Proof. intros Hall. unfold trim. now rewrite (trimStart_blank s Hall). Qed.

Lemma trim_not_blank (s : string) :
  Exists (λ c, Str.is_ws c = false) (list_ascii_of_string s) →
  trim s ≠ EmptyString.
Proof.
  intros Hex. unfold trim.
  destruct (trimStart_not_blank s Hex) as (c & rest & -> & Hc).
  destruct (trimStart_not_blank (reverse (String c rest))) as (c' & rest' & -> & _).
  { rewrite list_ascii_reverse. cbn [list_ascii_of_string rev].
    apply Exists_app. right. now constructor. }
  intros Hnil. apply (f_equal list_ascii_of_string) in Hnil.
  rewrite list_ascii_reverse in Hnil. cbn [list_ascii_of_string rev] in Hnil.
  now apply app_nil in Hnil as [_ [=]].
Qed.

(** X19. Completing the text input: an input that consists of white
    space only (or is empty) adds nothing and just closes the input box;
    any other input appends one text element at the snapped position of
    the box and selects it, and the element carries the input as it was
    typed, leading and trailing white space included. *)
Theorem text_input_completion (textInput : string) (now : Z) (st : State) :
  (Forall (λ c, Str.is_ws c = true) (list_ascii_of_string textInput) →
   handleTextInputComplete textInput now st = setShowTextInput false st) ∧
  (Exists (λ c, Str.is_ws c = false) (list_ascii_of_string textInput) →
   ∃ l,
     let st' := handleTextInputComplete textInput now st in
     elements st' = elements st ++ [l] ∧
     selectedElement st' = Some l ∧
     showTextInput st' = false ∧
     prop (deref (heap st') l) "type" = VStr "text" ∧
     prop (deref (heap st') l) "text" = VStr textInput ∧
     prop (deref (heap st') l) "x"
     = VNum (snapToGridValue st (pt_x (textPosition st))) ∧
     prop (deref (heap st') l) "y"
     = VNum (snapToGridValue st (pt_y (textPosition st)))).
Proof.
  split.
  - intros Hall. unfold handleTextInputComplete. now rewrite (trim_blank _ Hall).
  - intros Hex. pose proof (trim_not_blank _ Hex) as Hne.
    unfold handleTextInputComplete.
    assert (Ht : truthy (VStr (trim textInput)) = true).
    { cbn [truthy]. destruct (String.eqb_spec (trim textInput) EmptyString);
        [contradiction | reflexivity]. }
    rewrite Ht. unfold createText.
    destruct (generateId now (randomCount st)) as [id k].
    cbn [alloc]. exists (length (heap st)).
    cbn [elements selectedElement heap showTextInput setShowTextInput
         setSelectedElement setElements setElementsVersion setElementsArray
         setHeap setRandomCount].
    rewrite deref_alloc. repeat split; reflexivity.
Qed.

End TextInputFacts.

Lemma text_input_completion_witness :
  ∃ l,
    let st' := handleTextInputComplete (H := exampleHost) "hi " 4000
                 (setTextPosition (mkPoint (Fin 130) (Fin 50)) initialState) in
    elements st' = elements initialState ++ [l] ∧
    selectedElement st' = Some l ∧
    showTextInput st' = false ∧
    prop (deref (heap st') l) "type" = VStr "text" ∧
    prop (deref (heap st') l) "text" = VStr "hi " ∧
    prop (deref (heap st') l) "x"
    = VNum (snapToGridValue initialState (Fin 130)) ∧
    prop (deref (heap st') l) "y"
    = VNum (snapToGridValue initialState (Fin 50)).
Proof.
  apply (proj2 (text_input_completion (H := exampleHost) "hi " 4000
                  (setTextPosition (mkPoint (Fin 130) (Fin 50)) initialState))).
  constructor. reflexivity.
Defined.

(** ** Zoom and pan *)

Section ViewFacts.
Context `{Host}.

Lemma clamp_zoom (m : Q) :
  ∃ c, Num.max (Fin (1#10)) (Num.min (Num.of_Z 5) (Fin m)) = Fin c ∧
       ((1#10) <= c)%Q ∧ (c <= 5)%Q ∧
       (((1#10) <= m)%Q → (m <= 5)%Q → (c == m)%Q).
Proof.
  unfold Num.min, Num.max, Num.of_Z, Num.le.
  change (inject_Z 5) with 5%Q.
  destruct (Qle_bool 5 m) eqn:H5.
  - exists 5%Q. split; [reflexivity|]. split; [discriminate|].
    split; [apply Qle_refl|]. intros _ Hm. apply Qle_bool_iff in H5.
    now apply Qle_antisym.
  - destruct (Qle_bool (1#10) m) eqn:H1.
    + exists m. split; [reflexivity|]. apply Qle_bool_iff in H1.
      split; [exact H1|]. split; [|reflexivity].
      apply Qlt_le_weak, Qnot_le_lt. intros Hc.
      apply Qle_bool_iff in Hc. congruence.
    + exists (1#10)%Q. split; [reflexivity|]. split; [apply Qle_refl|].
      split; [discriminate|]. intros Hm _. apply Qle_bool_iff in Hm. congruence.
Qed.

(** The numbers [handleZoom] computes from a finite zoom level, factor
    and view box. *)
Lemma zoomed_view (z f x y w h : Q) :
  ∃ z' x' y' w' h' : Q,
    Num.max (Fin (1#10)) (Num.min (Num.of_Z 5) (Num.mul (Fin z) (Fin f))) = Fin z' ∧
    Num.div (Num.of_Z 800) (Fin z') = Fin w' ∧
    Num.div (Num.of_Z 600) (Fin z') = Fin h' ∧
    Num.sub (Num.add (Fin x) (Num.div (Fin w) (Num.of_Z 2)))
            (Num.div (Fin w') (Num.of_Z 2)) = Fin x' ∧
    Num.sub (Num.add (Fin y) (Num.div (Fin h) (Num.of_Z 2)))
            (Num.div (Fin h') (Num.of_Z 2)) = Fin y' ∧
    ((1#10) <= z')%Q ∧ (z' <= 5)%Q ∧
    (((1#10) <= z * f)%Q → (z * f <= 5)%Q → (z' == z * f)%Q) ∧
    (w' == 800 / z')%Q ∧ (h' == 600 / z')%Q ∧
    (x' + w' / 2 == x + w / 2)%Q ∧ (y' + h' / 2 == y + h / 2)%Q.
Proof.
  destruct (mul_fin z f) as (m & -> & Em).
  destruct (clamp_zoom m) as (c & -> & Hlo & Hhi & Hmid).
  assert (Hc : ¬ (c == 0)%Q).
  { intros E. rewrite E in Hlo. exact (Hlo eq_refl). }
  assert (H2 : ¬ (2 == 0)%Q) by discriminate.
  change (Num.of_Z 2) with (Fin 2). change (Num.of_Z 800) with (Fin 800).
  change (Num.of_Z 600) with (Fin 600).
  destruct (div_fin w 2 H2) as (w2 & -> & Ew2).
  destruct (div_fin h 2 H2) as (h2 & -> & Eh2).
  destruct (add_fin x w2) as (cx & -> & Ecx).
  destruct (add_fin y h2) as (cy & -> & Ecy).
  destruct (div_fin 800 c Hc) as (nw & Hnw & Enw).
  destruct (div_fin 600 c Hc) as (nh & Hnh & Enh).
  destruct (div_fin nw 2 H2) as (nw2 & Hnw2 & Enw2).
  destruct (div_fin nh 2 H2) as (nh2 & Hnh2 & Enh2).
  destruct (sub_fin cx nw2) as (nx & Hnx & Enx).
  destruct (sub_fin cy nh2) as (ny & Hny & Eny).
  exists c, nx, ny, nw, nh. rewrite Hnw, Hnh, Hnw2, Hnh2.
  split; [reflexivity|]. split; [reflexivity|]. split; [reflexivity|].
  split; [exact Hnx|]. split; [exact Hny|].
  split; [exact Hlo|]. split; [exact Hhi|].
  split; [intros; rewrite <- Em; apply Hmid; now rewrite Em|].
  split; [exact Enw|]. split; [exact Enh|].
  split.
  - rewrite Enx, Enw2, Ecx, Ew2. field.
  - rewrite Eny, Enh2, Ecy, Eh2. field.
Qed.


Lemma historyEffect_view (st : State) :
  zoomLevel (historyEffect st) = zoomLevel st ∧
  viewBox (historyEffect st) = viewBox st.
Proof. unfold historyEffect. now destruct (mustRecord st). Qed.

Lemma handlerOf_view_frame (c : Command) (st st1 : State) :
  handlerOf c st = Some st1 →
  (∃ b, c = Zoom b) ∨
  (zoomLevel st1 = zoomLevel st ∧ viewBox st1 = viewBox st).
Proof.
  intros Hh. destruct c; try (left; eauto; fail); right; crush_handler;
    split; reflexivity.
Qed.

Lemma handlerOf_view (c : Command) (st st1 : State) :
  handlerOf c st = Some st1 → viewCentred st → viewCentred st1.
Proof.
  intros Hh Hv.
  assert (Hzoom : ∀ f, viewCentred (handleZoom (Fin f) st)).
  { intros f. destruct Hv as (z & x & y & w & h & Hz & Hvb & _ & _ & _ & _ & Hx & Hy).
    destruct (zoomed_view z f x y w h)
      as (z' & x' & y' & w' & h' & Ez & Ew & Eh & Ex & Ey
          & ? & ? & _ & ? & ? & Hx' & Hy').
    exists z', x', y', w', h'. unfold handleZoom. rewrite Hz, Hvb.
    cbn [zoomLevel viewBox setViewBox setZoomLevel vb_x vb_y vb_width vb_height].
    rewrite Ez, Ew, Eh, Ex, Ey, Hx', Hy'. auto 10. }
  destruct (handlerOf_view_frame c st st1 Hh) as [[b ->] | [Hz Hvb]].
  - destruct b; injection Hh as <-; apply Hzoom.
  - unfold viewCentred in *. rewrite Hz, Hvb. exact Hv.
Qed.

(** X21. In every state of a session the zoom level is a finite number
    between 0.1 and 5 and the view box is the 800 by 600 canvas divided
    by it, centred on the point (400, 300): the zoom buttons are the
    only code that writes either, and nothing calls [handlePan]. *)
Theorem view_stays_centred (st : State) : inSession st → viewCentred st.
Proof.
  revert st. apply inSession_inv.
  - exists 1%Q, 0%Q, 0%Q, 800%Q, 600%Q. repeat split; discriminate.
  - intros c st st' IH. unfold runCommand, dispatch.
    destruct (handlerOf c st) as [st1|] eqn:Hh; [|discriminate].
    cbn. intros [= <-].
    pose proof (handlerOf_view c st st1 Hh IH) as Hb.
    destruct (Nat.eqb _ _); [exact Hb|].
    unfold viewCentred in *. destruct (historyEffect_view st1) as [-> ->].
    exact Hb.
Qed.


End ViewFacts.


Lemma view_stays_centred_witness :
  viewCentred (afterAll zoomSession initialState).
Proof.
  apply (view_stays_centred (H := exampleHost)).
  exists zoomSession. vm_compute. reflexivity.
Defined.


(** ** Dragging *)

Section DragFacts.
Context `{Host}.

(** A press on an element in select mode followed by one pointer move:
    the element at the index of the pressed identifier is replaced by
    the object the drag branch builds. *)
Lemma press_then_move (st : State) (e1 e2 : MouseEvent) (l l0 : loc)
    (index : nat) (off : Point) (o : obj) :
  mode st = "select" →
  targetIsResizeHandle e1 = false →
  isResizing st = false →
  findClicked (heap st) (getSVGCoordinates st e1) (elements st) = Some (Some l) →
  dragOffset (getSVGCoordinates st e1) (deref (heap st) l) = Some (Some off) →
  findIndexById (heap st) (elements st) (deref (heap st) l) = Some index →
  elements st !! index = Some l0 →
  dragElement (deref (heap st) l)
    (snapToGridValue st (Num.sub (pt_x (getSVGCoordinates st e2)) (pt_x off)))
    (snapToGridValue st (Num.sub (pt_y (getSVGCoordinates st e2)) (pt_y off)))
    (deref (heap st) l0) = Some (Some o) →
  ∃ st2,
    runCommands [PointerDown e1; PointerMove e2] st = Some st2 ∧
    elements st2 = <[index := length (heap st)]> (elements st) ∧
    heap st2 = heap st ++ [o] ∧
    selectedElement st2 = Some (length (heap st)).
Proof.
  intros Hmode Hhandle Hres Hfind Hoff Hidx Hl0 Hdrag.
  set (st1 := setOffset off (setDraggedElement (Some l)
                (setSelectedElement (Some l) st))).
  assert (Hdown : runCommand (PointerDown e1) st = Some st1).
  { unfold runCommand. apply dispatch_same_version; [|reflexivity].
    cbn [handlerOf]. unfold handleMouseDown. rewrite Hmode, Hhandle, Hfind.
    change ("select" =? "select")%string with true. cbv beta iota.
    cbn [mbind option_bind]. rewrite Hoff. reflexivity. }
  set (st2 := setSelectedElement (Some (length (heap st)))
                (setElements (<[index := length (heap st)]> (elements st))
                   (setHeap (heap st ++ [o]) st1))).
  assert (Hmove : handleMouseMove st1 e2 = Some st2).
  { unfold handleMouseMove.
    change (draggedElement st1) with (Some l).
    change (isResizing st1) with (isResizing st). rewrite Hres.
    rewrite bool_decide_eq_true_2 by eauto.
    cbn [negb andb]. cbv beta iota zeta.
    change (heap st1) with (heap st). change (elements st1) with (elements st).
    rewrite Hidx, Hl0. cbn [default]. unfold id.
    change (getSVGCoordinates st1 e2) with (getSVGCoordinates st e2).
    change (snapToGridValue st1) with (snapToGridValue st).
    change (offset st1) with off.
    rewrite Hdrag. reflexivity. }
  exists (historyEffect st2). split.
  { cbn [runCommands]. rewrite Hdown. cbn [mbind option_bind].
    unfold runCommand. cbn [handlerOf].
    rewrite (dispatch_new_elements _ st1 st2 Hmove) by (cbn; lia). reflexivity. }
  destruct (historyEffect_cases st2) as [-> | (hist & idx & ->)];
    repeat split; reflexivity.
Qed.


(** X24. A rectangle or text whose x is 0 is dragged to [NaN]: the
    drag offset is taken from [x || cx], zero is falsy and a rectangle
    has no [cx], so the offset and with it the x of the dragged copy are
    not numbers, with snapping on or off, wherever the pointer goes. *)
Theorem drag_from_the_left_edge_loses_x
    (st : State) (e1 e2 : MouseEvent) (l l0 : loc) (index : nat) :
  mode st = "select" →
  targetIsResizeHandle e1 = false →
  isResizing st = false →
  findClicked (heap st) (getSVGCoordinates st e1) (elements st) = Some (Some l) →
  typeIs (deref (heap st) l) "rect" || typeIs (deref (heap st) l) "text" = true →
  isZero (prop (deref (heap st) l) "x") →
  prop (deref (heap st) l) "cx" = VUndef →
  findIndexById (heap st) (elements st) (deref (heap st) l) = Some index →
  elements st !! index = Some l0 →
  ∃ st2 l',
    runCommands [PointerDown e1; PointerMove e2] st = Some st2 ∧
    elements st2 = <[index := l']> (elements st) ∧
    prop (deref (heap st2) l') "x" = VNum NaN.
Proof.
  intros Hmode Hhandle Hres Hfind Htype (x & Hx & Ex) Hcx Hidx Hl0.
  set (p := getSVGCoordinates st e1). set (q := getSVGCoordinates st e2).
  set (oy := jsub (VNum (pt_y p))
               (jor (prop (deref (heap st) l) "y") (prop (deref (heap st) l) "cy"))).
  set (nY := snapToGridValue st (Num.sub (pt_y q) oy)).
  assert (HnX : ∀ v, snapToGridValue st (Num.sub v NaN) = NaN).
  { intros v. unfold snapToGridValue.
    replace (Num.sub v NaN) with NaN by now destruct v.
    now destruct (snapToGrid st). }
  destruct (press_then_move st e1 e2 l l0 index (mkPoint NaN oy)
              (setp "y" (VNum nY) (setp "x" (VNum NaN) (deref (heap st) l0))))
    as (st2 & Hrun & Hels & Hheap & Hsel); try assumption.
  - fold p. unfold dragOffset.
    assert (Ht3 : typeIs (deref (heap st) l) "rect"
                  || typeIs (deref (heap st) l) "text"
                  || typeIs (deref (heap st) l) "ellipse" = true)
      by now rewrite Htype.
    rewrite Ht3, Hx, Hcx. unfold jor at 1. cbn [truthy Num.truthy].
    apply Qeq_bool_iff in Ex. rewrite Ex. cbn [negb].
    unfold jsub at 1. cbn [toNumber].
    replace (Num.sub (pt_x p) NaN) with NaN by now destruct (pt_x p).
    reflexivity.
  - cbn [pt_x pt_y]. fold q. rewrite HnX. fold nY. unfold dragElement.
    now rewrite Htype.
  - exists st2, (length (heap st)).
    split; [exact Hrun|]. split; [exact Hels|].
    rewrite Hheap, deref_alloc.
    rewrite prop_setp_ne by discriminate. apply prop_setp_eq.
Qed.

End DragFacts.


Lemma drag_from_the_left_edge_loses_x_witness :
  ∃ st2 l',
    runCommands (H := exampleHost)
      [PointerDown (pointerAt 10 10); PointerMove (pointerAt 60 50)]
      recordedState = Some st2 ∧
    elements st2 = <[0%nat := l']> (elements recordedState) ∧
    prop (deref (heap st2) l') "x" = VNum NaN.
Proof.
  apply (drag_from_the_left_edge_loses_x (H := exampleHost) recordedState
           (pointerAt 10 10) (pointerAt 60 50) 0%nat 0%nat 0%nat);
    try (vm_compute; reflexivity).
  exists 0%Q. split; reflexivity.
Defined.

(** ** Resizing a circle *)

Section CircleFacts.
Context `{Host}.

Lemma max_ten (s : Q) :
  ∃ v, Num.max (Num.of_Z 10) (Fin s) = Fin v ∧ (10 <= v)%Q ∧
       ((s <= 10)%Q → (v == 10)%Q).
Proof.
  unfold Num.max, Num.of_Z, Num.le. change (inject_Z 10) with 10%Q.
  destruct (Qle_bool 10 s) eqn:E.
  - exists s. split; [reflexivity|]. apply Qle_bool_iff in E.
    split; [exact E|]. intros Hs. now apply Qle_antisym.
  - exists 10%Q. split; [reflexivity|]. split; [apply Qle_refl | reflexivity].
Qed.

Lemma snap_on_grid_20 (st : State) (v : Q) :
  gridSize st = Num.of_Z 20 → snapToGrid st = true → (10 <= v)%Q →
  ∃ r, snapToGridValue st (Fin v) = Fin r ∧ (20 <= r)%Q.
Proof.
  intros Hg Hs Hv.
  rewrite (snap_finite st v 20 Hs Hg) by discriminate.
  eexists. split; [reflexivity|]. rewrite Qred_correct.
  set (k := Qfloor (Qred (v / 20) + (1#2))).
  assert (Hk : 1 <= k).
  { unfold k. change 1 with (Qfloor 1). apply Qfloor_resp_le.
    rewrite Qred_correct.
    apply Qle_trans with (10 / 20 + (1#2))%Q; [discriminate|].
    apply Qplus_le_l. apply Qmult_le_compat_r; [exact Hv | discriminate]. }
  apply Qle_trans with (inject_Z 1 * 20)%Q; [discriminate|].
  apply Qmult_le_compat_r; [|discriminate].
  now rewrite <- Zle_Qle.
Qed.

(** X25. Resizing a circle never makes it smaller than the minimum:
    while the selected circle is being resized, a pointer move sets its
    radius to the distance of the pointer from the centre, at least 10,
    passed through [snapToGridValue]; so, on the grid of 20 that every
    session has, the radius is at least 10 with snapping off and at
    least 20 with snapping on, whenever the square root is a number. *)
Theorem circle_resize_keeps_minimum_radius
    (st : State) (e : MouseEvent) (sl l : loc) (index : nat) (s : Q) :
  isResizing st = true →
  selectedElement st = Some sl →
  findIndexById (heap st) (elements st) (deref (heap st) sl) = Some index →
  elements st !! index = Some l →
  typeIs (deref (heap st) l) "circle" = true →
  gridSize st = Num.of_Z 20 →
  (let dx := jsub (VNum (pt_x (getSVGCoordinates st e))) (prop (deref (heap st) l) "cx") in
   let dy := jsub (VNum (pt_y (getSVGCoordinates st e))) (prop (deref (heap st) l) "cy") in
   Math_sqrt (Num.add (Num.mul dx dx) (Num.mul dy dy)) = Fin s) →
  ∃ st' r,
    handleMouseMove st e = Some st' ∧
    prop (deref (heap st') l) "r" = VNum (Fin r) ∧
    (10 <= r)%Q ∧
    (snapToGrid st = true → (20 <= r)%Q) ∧
    (snapToGrid st = false → (s <= 10)%Q → (r == 10)%Q) ∧
    (snapToGrid st = false → (10 <= s)%Q → (r == s)%Q).
Proof.
  intros Hres Hsel Hidx Hl Htype Hg Hsqrt. cbv zeta in Hsqrt.
  assert (Hlt : (l < length (heap st))%nat).
  { apply (typed_allocated _ _ "circle" "circle"). now rewrite Htype. }
  assert (Hcirc : ∀ t, t ≠ "circle" → typeIs (deref (heap st) l) t = false).
  { intros t Ht. unfold typeIs in *.
    destruct (prop (deref (heap st) l) "type") as [| | |ty]; try discriminate.
    cbn in Htype. apply String.eqb_eq in Htype. subst ty.
    apply typeIs_other. congruence. }
  destruct (max_ten s) as (v & Hv & Hv10 & Hveq).
  assert (Hsnap : ∃ r, snapToGridValue st (Fin v) = Fin r ∧ (10 <= r)%Q ∧
                       (snapToGrid st = true → (20 <= r)%Q) ∧
                       (snapToGrid st = false → r = v)).
  { destruct (snapToGrid st) eqn:Hs.
    - destruct (snap_on_grid_20 st v Hg Hs Hv10) as (r & Hr & Hr20).
      exists r. split; [exact Hr|]. split; [|split; [auto | discriminate]].
      eapply Qle_trans; [|exact Hr20]. discriminate.
    - exists v. unfold snapToGridValue. rewrite Hs.
      split; [reflexivity|]. split; [exact Hv10|]. split; [discriminate | auto]. }
  destruct Hsnap as (r & Hr & Hr10 & Hr20 & Hoff).
  eexists _, r. split.
  { unfold handleMouseMove. rewrite Hres, Hsel, Hidx, Hl.
    rewrite andb_false_r. reflexivity. }
  cbn [heap setElements setElementsVersion setElementsArray setHeap default].
  unfold id. rewrite deref_insert by exact Hlt.
  unfold resizeElement. rewrite !Hcirc by discriminate. rewrite Htype.
  cbn [orb]. rewrite Hsqrt, Hv, Hr, prop_setp_eq.
  split; [reflexivity|]. split; [exact Hr10|]. split; [exact Hr20|].
  split.
  - intros Hs Hle. rewrite (Hoff Hs). auto.
  - intros Hs Hge. rewrite (Hoff Hs).
    unfold Num.max, Num.of_Z, Num.le in Hv. change (inject_Z 10) with 10%Q in Hv.
    apply Qle_bool_iff in Hge. rewrite Hge in Hv. now injection Hv as <-.
Qed.

End CircleFacts.

Lemma circle_resize_keeps_minimum_radius_witness :
  ∃ st' r,
    handleMouseMove (H := exampleHost) circleResizingState (pointerAt 203 204)
    = Some st' ∧
    prop (deref (heap st') 0%nat) "r" = VNum (Fin r) ∧
    (10 <= r)%Q ∧
    (snapToGrid circleResizingState = true → (20 <= r)%Q) ∧
    (snapToGrid circleResizingState = false → (25 <= 10)%Q → (r == 10)%Q) ∧
    (snapToGrid circleResizingState = false → (10 <= 25)%Q → (r == 25)%Q).
Proof.
  apply (circle_resize_keeps_minimum_radius (H := exampleHost)
           circleResizingState (pointerAt 203 204) 0%nat 0%nat 0%nat 25);
    vm_compute; reflexivity.
Defined.

(** ** Clicks and the quantum tool *)

Section ClickFacts.
Context `{Host}.

Lemma findClicked_miss (h : list obj) (p : Point) (els : list loc) :
  findClicked h p els = Some None →
  Forall (λ l, isPointInElement p (deref h l) = Some false) els.
Proof.
  induction els as [|l0 els IH]; cbn [findClicked]; [constructor|].
  destruct (isPointInElement p (deref h l0)) as [[|]|] eqn:Hhit;
    [discriminate | | discriminate].
  intros Hfind. constructor; auto.
Qed.

(** X26. A press in select mode picks the first element in array order
    that contains the point, that is the one drawn underneath when
    shapes overlap: the element it selects contains the point and no
    element before it in [elements] does; and it clears the selection
    exactly when no element contains the point. *)
Theorem click_selects_first_hit (st st' : State) (e : MouseEvent) :
  mode st = "select" →
  targetIsResizeHandle e = false →
  handleMouseDown st e = Some st' →
  match selectedElement st' with
  | Some l =>
      ∃ i, elements st !! i = Some l ∧
           isPointInElement (getSVGCoordinates st e) (deref (heap st) l) = Some true ∧
           ∀ j l', (j < i)%nat → elements st !! j = Some l' →
                   isPointInElement (getSVGCoordinates st e) (deref (heap st) l')
                   = Some false
  | None =>
      Forall (λ l, isPointInElement (getSVGCoordinates st e) (deref (heap st) l)
                   = Some false) (elements st)
  end.
Proof.
  intros Hmode Hhandle Hdown. unfold handleMouseDown in Hdown.
  rewrite Hmode, Hhandle in Hdown.
  change ("select" =? "select")%string with true in Hdown.
  cbv beta iota in Hdown.
  destruct (findClicked (heap st) (getSVGCoordinates st e) (elements st))
    as [[l0|]|] eqn:Hfind; cbn [mbind option_bind] in Hdown; [| |discriminate].
  - destruct (dragOffset (getSVGCoordinates st e) (deref (heap st) l0))
      as [off|]; cbn [mbind option_bind] in Hdown; [|discriminate].
    injection Hdown as <-.
    cbn [selectedElement setOffset setDraggedElement setSelectedElement].
    now apply findClicked_hit.
  - injection Hdown as <-. cbn [selectedElement setSelectedElement].
    now apply findClicked_miss.
Qed.

Lemma createQuantumEffect_spec (st : State) (now : Z) (x y : num) (k : nat) :
  ∃ q r0 r1 r2 anim k',
    createQuantumEffect st now x y k
    = (([q; r0; r1; r2], animations st ++ [anim]), k') ∧
    Forall (λ o, prop o "type" = VStr "ellipse" ∧
                 prop o "cx" = VNum (snapToGridValue st x) ∧
                 prop o "cy" = VNum (snapToGridValue st y)) [q; r0; r1; r2] ∧
    map (λ o, (prop o "rx", prop o "ry")) [q; r0; r1; r2]
    = [(VNum (Fin 150), VNum (Fin 100)); (VNum (Fin 150), VNum (Fin 100));
       (VNum (Fin 120), VNum (Fin 80)); (VNum (Fin 90), VNum (Fin 60))] ∧
    prop anim "type" = VStr "rotate" ∧
    prop anim "elementId" = prop r2 "id" ∧
    prop anim "name" = VStr "Ring Rotation 3".
Proof.
  unfold createQuantumEffect. cbn [quantumRings].
  destruct (generateId now k) as [id k1].
  destruct (generateId now (S k1)) as [id0 k2].
  destruct (generateId now k2) as [id1 k3].
  destruct (generateId now k3) as [id2 k4].
  cbn [default].
  eexists _, _, _, _, _, _. split; [reflexivity|].
  split; [repeat constructor|].
  split; [reflexivity|]. repeat split; reflexivity.
Qed.

Lemma allocAll_four (h : list obj) (a b c d : obj) :
  allocAll [a; b; c; d] h
  = (h ++ [a; b; c; d],
     [length h; S (length h); S (S (length h)); S (S (S (length h)))]).
Proof.
  cbn [allocAll alloc]. rewrite !length_app. cbn [length].
  rewrite <- !app_assoc. cbn [app].
  repeat f_equal; lia.
Qed.

(** X27. The quantum tool keeps one animation out of four: a press in
    quantum mode appends four ellipses centred on the snapped point
    (the anomaly of radii 150 by 100 and three rings), selects the
    first and goes back to select mode; of the pulse animation and the
    three ring rotations it builds, only the rotation of the last ring
    is added to the animations, because every [setAnimations] call
    extends the animations of the same render. *)
Theorem quantum_tool_keeps_last_animation (st : State) (e : MouseEvent) :
  mode st = "quantum" →
  ∃ st' l0 l1 l2 l3 anim,
    runCommand (PointerDown e) st = Some st' ∧
    elements st' = elements st ++ [l0; l1; l2; l3] ∧
    selectedElement st' = Some l0 ∧
    mode st' = "select" ∧
    Forall (λ l,
        prop (deref (heap st') l) "type" = VStr "ellipse" ∧
        prop (deref (heap st') l) "cx"
        = VNum (snapToGridValue st (pt_x (getSVGCoordinates st e))) ∧
        prop (deref (heap st') l) "cy"
        = VNum (snapToGridValue st (pt_y (getSVGCoordinates st e))))
      [l0; l1; l2; l3] ∧
    map (λ l, (prop (deref (heap st') l) "rx", prop (deref (heap st') l) "ry"))
        [l0; l1; l2; l3]
    = [(VNum (Fin 150), VNum (Fin 100)); (VNum (Fin 150), VNum (Fin 100));
       (VNum (Fin 120), VNum (Fin 80)); (VNum (Fin 90), VNum (Fin 60))] ∧
    animations st' = animations st ++ [anim] ∧
    prop anim "type" = VStr "rotate" ∧
    prop anim "elementId" = prop (deref (heap st') l3) "id" ∧
    prop anim "name" = VStr "Ring Rotation 3".
Proof.
  intros Hmode.
  destruct (createQuantumEffect_spec st (me_now e)
              (pt_x (getSVGCoordinates st e)) (pt_y (getSVGCoordinates st e))
              (randomCount st))
    as (q & r0 & r1 & r2 & anim & k' & Hcq & Hall & Hrad & Htype & Hel & Hname).
  set (h' := heap st ++ [q; r0; r1; r2]).
  set (ls := [length (heap st); S (length (heap st)); S (S (length (heap st)));
              S (S (S (length (heap st))))]).
  set (st1 := setMode "select"
                (setSelectedElement (head ls)
                (setElements (elements st ++ ls)
                (setAnimations (animations st ++ [anim])
                (setHeap h' (setRandomCount k' st)))))).
  assert (Hdown : handleMouseDown st e = Some st1).
  { unfold handleMouseDown. rewrite Hmode.
    change ("quantum" =? "select")%string with false.
    change ("quantum" =? "rect")%string with false.
    change ("quantum" =? "circle")%string with false.
    change ("quantum" =? "text")%string with false.
    change ("quantum" =? "path")%string with false.
    change ("quantum" =? "quantum")%string with true.
    cbv beta iota zeta. rewrite Hcq, allocAll_four. reflexivity. }
  exists (historyEffect st1), (length (heap st)), (S (length (heap st))),
         (S (S (length (heap st)))), (S (S (S (length (heap st))))), anim.
  split.
  { unfold runCommand. cbn [handlerOf].
    apply (dispatch_new_elements _ st st1 Hdown). unfold st1. cbn. lia. }
  assert (Hf : heap (historyEffect st1) = h' ∧
               elements (historyEffect st1) = elements st ++ ls ∧
               selectedElement (historyEffect st1) = Some (length (heap st)) ∧
               mode (historyEffect st1) = "select" ∧
               animations (historyEffect st1) = animations st ++ [anim]).
  { destruct (historyEffect_cases st1) as [-> | (hist & idx & ->)];
      repeat split; reflexivity. }
  destruct Hf as (-> & -> & -> & -> & ->).
  split; [reflexivity|]. split; [reflexivity|]. split; [reflexivity|].
  assert (Hd : map (deref h') ls = [q; r0; r1; r2]).
  { unfold h', ls, deref. cbn [map].
    rewrite !lookup_app_r by lia. rewrite Nat.sub_diag.
    replace (S (length (heap st)) - length (heap st))%nat with 1%nat by lia.
    replace (S (S (length (heap st))) - length (heap st))%nat with 2%nat by lia.
    replace (S (S (S (length (heap st)))) - length (heap st))%nat with 3%nat by lia.
    reflexivity. }
  cbn [map] in Hd. injection Hd as H0 H1 H2 H3.
  rewrite !Forall_cons in Hall. rewrite !Forall_cons.
  cbn [map] in Hrad |- *. cbv beta.
  rewrite H0, H1, H2, H3.
  destruct Hall as (Hq & Hr0 & Hr1 & Hr2 & _).
  split; [auto 10 using Forall_nil_2|]. auto.
Qed.

End ClickFacts.

Lemma click_selects_first_hit_witness :
  match selectedElement (after (PointerDown (pointerAt 160 110)) twoRectsState) with
  | Some l =>
      ∃ i, elements twoRectsState !! i = Some l ∧
           isPointInElement (H := exampleHost)
             (getSVGCoordinates twoRectsState (pointerAt 160 110))
             (deref (heap twoRectsState) l) = Some true ∧
           ∀ j l', (j < i)%nat → elements twoRectsState !! j = Some l' →
                   isPointInElement (H := exampleHost)
                     (getSVGCoordinates twoRectsState (pointerAt 160 110))
                     (deref (heap twoRectsState) l') = Some false
  | None =>
      Forall (λ l, isPointInElement (H := exampleHost)
                     (getSVGCoordinates twoRectsState (pointerAt 160 110))
                     (deref (heap twoRectsState) l) = Some false)
             (elements twoRectsState)
  end.
Proof.
  apply (click_selects_first_hit (H := exampleHost) twoRectsState
           (after (PointerDown (pointerAt 160 110)) twoRectsState)
           (pointerAt 160 110));
    vm_compute; reflexivity.
Defined.

Example click_on_overlap_selects_lower_rectangle :
  selectedElement (after (PointerDown (pointerAt 160 110)) twoRectsState)
  = Some 0%nat ∧
  isPointInElement (H := exampleHost) (mkPoint (Fin 160) (Fin 110))
    (rectAt "b" 150 100) = Some true.
Proof. split; vm_compute; reflexivity. Qed.

Lemma quantum_tool_keeps_last_animation_witness :
  ∃ st' l0 l1 l2 l3 anim,
    runCommand (H := exampleHost) (PointerDown (pointerAt 400 300))
      (setMode "quantum" initialState) = Some st' ∧
    elements st' = elements (setMode "quantum" initialState) ++ [l0; l1; l2; l3] ∧
    selectedElement st' = Some l0 ∧
    mode st' = "select" ∧
    Forall (λ l,
        prop (deref (heap st') l) "type" = VStr "ellipse" ∧
        prop (deref (heap st') l) "cx"
        = VNum (snapToGridValue (setMode "quantum" initialState)
                  (pt_x (getSVGCoordinates (setMode "quantum" initialState)
                           (pointerAt 400 300)))) ∧
        prop (deref (heap st') l) "cy"
        = VNum (snapToGridValue (setMode "quantum" initialState)
                  (pt_y (getSVGCoordinates (setMode "quantum" initialState)
                           (pointerAt 400 300)))))
      [l0; l1; l2; l3] ∧
    map (λ l, (prop (deref (heap st') l) "rx", prop (deref (heap st') l) "ry"))
        [l0; l1; l2; l3]
    = [(VNum (Fin 150), VNum (Fin 100)); (VNum (Fin 150), VNum (Fin 100));
       (VNum (Fin 120), VNum (Fin 80)); (VNum (Fin 90), VNum (Fin 60))] ∧
    animations st' = animations (setMode "quantum" initialState) ++ [anim] ∧
    prop anim "type" = VStr "rotate" ∧
    prop anim "elementId" = prop (deref (heap st') l3) "id" ∧
    prop anim "name" = VStr "Ring Rotation 3".
Proof.
  apply (quantum_tool_keeps_last_animation (H := exampleHost)
           (setMode "quantum" initialState) (pointerAt 400 300)).
  reflexivity.
Defined.

(** ** Motion animations of a session *)

Section MorphFacts.
Context `{Host}.

Lemma generated_ends_with_source
    (pathData : string) (intensity : num) (numVariations k : nat) :
  endsWithSource numVariations pathData
    (generatePathVariations pathData numVariations intensity k).1 ∧
  endsWithSource numVariations pathData
    (generateJitterPaths pathData intensity numVariations k).1 ∧
  endsWithSource numVariations pathData
    (generateWavePaths pathData intensity numVariations k).1.
Proof.
  unfold generatePathVariations, generateJitterPaths, generateWavePaths,
    morphVariations, jitterVariations, waveVariations, endsWithSource.
  split; [|split].
  all: match goal with
       | |- context [variantLoop ?f ?i ?n ?k] =>
           pose proof (variantLoop_length f i n k) as Hlen;
           destruct (variantLoop f i n k) as [vs k']
       end; cbn [fst] in *;
       (split; [exists vs; split; [exact Hlen | reflexivity]
               | intros Hp; now apply last_keyframe_join]).
Qed.

Lemma regenerate_ends_with_source (anim : obj) (path : string) (intensity : num)
    (gen : Rand string) (k : nat) :
  prop anim "path" = VStr path →
  regenerate anim intensity = Some gen →
  endsWithSource 5 path (gen k).1.
Proof.
  intros Hp. unfold regenerate. rewrite Hp. intros [= <-].
  destruct (generated_ends_with_source path intensity 5 k) as (_ & Hj & Hw).
  destruct (generated_ends_with_source path (Num.div intensity (Num.of_Z 10)) 5 k)
    as (Hm & _ & _).
  repeat case_match; assumption.
Qed.

Lemma loopsBack_other (anim : obj) (t : string) :
  prop anim "type" = VStr t → t ≠ "motion" → loopsBack anim.
Proof. intros Ht Hne path Hm. congruence. Qed.

Lemma loopsBack_setp (k : string) (v : jsval) (anim : obj) :
  k ≠ "type" → k ≠ "path" → k ≠ "values" →
  loopsBack anim → loopsBack (setp k v anim).
Proof.
  intros H1 H2 H3 Hl path. unfold loopsBack in Hl.
  rewrite !prop_setp_ne by assumption. apply Hl.
Qed.

Lemma handleMouseDown_animations (st st1 : State) (e : MouseEvent) :
  handleMouseDown st e = Some st1 →
  animations st1 = animations st ∨
  ∃ anim, animations st1 = animations st ++ [anim] ∧
          prop anim "type" = VStr "rotate".
Proof.
  unfold handleMouseDown. intros Hd.
  repeat (repeat case_match; simplify_option_eq); auto.
  right.
  match goal with
  | Hq : createQuantumEffect ?s ?n ?x ?y ?k = _ |- _ =>
      destruct (createQuantumEffect_spec s n x y k)
        as (q & r0 & r1 & r2 & anim & k' & Hcq & _ & _ & Ht & _);
      rewrite Hcq in Hq; injection Hq as <- <- <-
  end.
  eauto.
Qed.

Lemma addPathMorph_animations (st st1 : State) (now : Z) :
  addPathMorph st now = Some st1 →
  animations st1 = animations st ∨
  ∃ anim, animations st1 = animations st ++ [anim] ∧ loopsBack anim.
Proof.
  unfold addPathMorph. intros Ha.
  destruct (selectedElement st) as [sl|]; [|injection Ha as <-; now left].
  right.
  destruct (typeIs (deref (heap st) sl) "path") eqn:Hpath.
  - destruct (prop (deref (heap st) sl) "d") as [| | |d] eqn:Hd;
      try discriminate.
    destruct (generatePathVariations d 5 (Fin (1#2)) (randomCount st))
      as [v k] eqn:Hgen.
    cbn [mbind option_bind] in Ha. injection Ha as <-.
    eexists. split; [reflexivity|].
    intros path _ Hp. exists v. split; [reflexivity|].
    assert (path = d) as ->.
    { match type of Hp with
      | prop ?a _ = _ => assert (E : prop a "path" = VStr d) by reflexivity
      end. congruence. }
    destruct (generated_ends_with_source d (Fin (1#2)) 5 (randomCount st))
      as (Hm & _ & _).
    now rewrite Hgen in Hm.
  - cbn [mbind option_bind] in Ha. injection Ha as <-.
    eexists. split; [reflexivity|].
    intros path _ Hp.
    match type of Hp with
    | prop ?a _ = _ => assert (E : prop a "path" = VNull) by reflexivity
    end. congruence.
Qed.

Lemma motionControls_lookup (st : State) (anim : obj) :
  motionControls st = Some anim →
  ∃ index, selectedAnimationIndex st = Some index ∧
           animations st !! index = Some anim.
Proof.
  unfold motionControls. intros Hm.
  destruct (truthy (selectedAnimationId st)); [|discriminate].
  destruct (selectedAnimationIndex st) as [index|]; [|discriminate].
  cbn [mbind option_bind] in Hm.
  destruct (animations st !! index) as [a|] eqn:Ha; [|discriminate].
  cbn [mbind option_bind] in Hm.
  destruct (_ && _); [|discriminate]. injection Hm as <-. eauto.
Qed.

Lemma editIntensity_animations (st st1 : State) (value : string) :
  editIntensity value st = Some st1 →
  Forall loopsBack (animations st) → Forall loopsBack (animations st1).
Proof.
  unfold editIntensity. intros He Hall.
  destruct (motionControls st) as [anim|] eqn:Hm; [|discriminate].
  cbn [mbind option_bind] in He.
  destruct (motionControls_lookup st anim Hm) as (index & Hidx & Hlook).
  unfold intensityOnChange in He. rewrite Hidx, Hlook in He.
  destruct (regenerate anim (String_toNumber value)) as [gen|] eqn:Hgen;
    [|discriminate].
  cbn [mbind option_bind] in He.
  destruct (gen (randomCount st)) as [pv k] eqn:Hpv.
  injection He as <-. cbn [animations setAnimations setRandomCount].
  apply Forall_insert; [exact Hall|].
  intros path _ Hp. rewrite prop_setp_eq. exists pv. split; [reflexivity|].
  rewrite !prop_setp_ne in Hp by discriminate.
  pose proof (regenerate_ends_with_source anim path _ gen (randomCount st) Hp Hgen)
    as Hends.
  now rewrite Hpv in Hends.
Qed.

Lemma handlerOf_loopsBack (c : Command) (st st1 : State) :
  handlerOf c st = Some st1 →
  Forall loopsBack (animations st) → Forall loopsBack (animations st1).
Proof.
  intros Hh Hall.
  destruct c; cbn [handlerOf] in Hh.
  - destruct (handleMouseDown_animations _ _ _ Hh) as [-> | (a & -> & Ht)];
      [exact Hall|].
    apply Forall_app. split; [exact Hall|]. constructor; [|constructor].
    eapply loopsBack_other; [exact Ht | discriminate].
  - unfold handleMouseMove in Hh.
    repeat (repeat case_match; simplify_option_eq); exact Hall.
  - injection Hh as <-. unfold handleMouseUp.
    repeat case_match; exact Hall.
  - unfold handleKeyDown in Hh.
    repeat (repeat case_match; simplify_option_eq); exact Hall.
  - injection Hh as <-. unfold handleTextInputComplete.
    repeat case_match; exact Hall.
  - injection Hh as <-. exact Hall.
  - injection Hh as <-. exact Hall.
  - destruct inwards; injection Hh as <-; exact Hall.
  - unfold undoButton, andAlso, test, callSetter in Hh.
    repeat (repeat case_match; simplify_option_eq); exact Hall.
  - unfold redoButton, andAlso, test, callSetter in Hh.
    repeat (repeat case_match; simplify_option_eq); exact Hall.
  - injection Hh as <-. unfold setProperty.
    repeat case_match; exact Hall.
  - destruct (addPathMorph_animations _ _ _ Hh) as [-> | (a & -> & Ha)];
      [exact Hall|].
    apply Forall_app. split; [exact Hall|]. now constructor.
  - now apply (editIntensity_animations st st1 value).
  - destruct (motionControls st); [|discriminate].
    cbn [mbind option_bind] in Hh. injection Hh as <-.
    unfold motionTypeOnChange.
    destruct (selectedAnimationIndex st) as [index|]; [|exact Hall].
    destruct (animations st !! index) as [a|] eqn:Ha; [|exact Hall].
    cbn [animations setAnimations].
    apply Forall_insert; [exact Hall|].
    apply loopsBack_setp; try discriminate.
    eapply Forall_lookup_1; eassumption.
  - destruct (animations st !! i); [|discriminate].
    cbn [mbind option_bind] in Hh. injection Hh as <-. exact Hall.
  - injection Hh as <-. unfold deleteAnimation.
    cbn [animations setAnimations setSelectedAnimationId].
    apply Forall_forall. intros a [_ Ha]%list_elem_of_filter.
    rewrite Forall_forall in Hall. auto.
Qed.

(** X28. Every motion animation of a session loops back: in every state
    that a session reaches, each animation of type [motion] that stores
    a path has a value list made of five variants and then the stored
    path, so (for a path without a semicolon) its last key frame is the
    stored path, whatever was created, edited, retyped or deleted in
    the animation panel before. *)
Theorem session_animations_loop_back (st : State) :
  inSession st → Forall loopsBack (animations st).
Proof.
  revert st. apply inSession_inv; [constructor|].
  intros c st st' IH. unfold runCommand, dispatch.
  destruct (handlerOf c st) as [st1|] eqn:Hh; [|discriminate].
  cbn. intros [= <-].
  pose proof (handlerOf_loopsBack c st st1 Hh IH) as Hb.
  destruct (Nat.eqb _ _); [exact Hb|].
  destruct (historyEffect_cases st1) as [-> | (hist & idx & ->)]; exact Hb.
Qed.

End MorphFacts.

Lemma session_animations_loop_back_witness :
  Forall loopsBack (animations (afterAll morphSession initialState)).
Proof.
  apply (session_animations_loop_back (H := exampleHost)).
  exists morphSession. vm_compute. reflexivity.
Defined.

Example morph_session_has_one_animation :
  map (λ a, (prop a "type", prop a "path", prop a "intensity"))
      (animations (afterAll morphSession initialState))
  = [(VStr "motion", VStr "M 10 20 L 30 40", VNum (Fin 7))].
Proof. vm_compute. reflexivity. Qed.

(** ** Shapes through a gesture *)

Section ShapeFacts.
Context `{Host}.

Lemma resizeElement_id (st : State) (p : Point) (el : obj) :
  prop (resizeElement st p el) "id" = prop el "id".
Proof.
  unfold resizeElement. repeat case_match;
    rewrite ?prop_assign_ne, ?prop_setp_ne by discriminate; reflexivity.
Qed.

Lemma dragElement_id (dragged cur o : obj) (nX nY : num) :
  dragElement dragged nX nY cur = Some (Some o) → prop o "id" = prop cur "id".
Proof.
  unfold dragElement. intros Hd.
  repeat (repeat case_match; simplify_option_eq);
    rewrite ?prop_setp_ne by discriminate; reflexivity.
Qed.

Lemma ids_heap_insert (h : list obj) (l : loc) (o : obj) (arr : list loc) :
  prop o "id" = prop (deref h l) "id" →
  map (λ o, prop o "id") (resolve (<[l := o]> h) arr)
  = map (λ o, prop o "id") (resolve h arr).
Proof.
  intros Hid. unfold resolve. rewrite !map_map. apply map_ext. intros m.
  destruct (decide (m = l)) as [-> | Hne].
  - destruct (decide (l < length h)%nat) as [Hlt | Hge].
    + now rewrite deref_insert.
    + now rewrite list_insert_ge by lia.
  - unfold deref. now rewrite list_lookup_insert_ne.
Qed.

Lemma ids_replace (h : list obj) (o : obj) (arr : list loc) (index : nat) (l0 : loc) :
  allocated h arr →
  arr !! index = Some l0 →
  prop o "id" = prop (deref h l0) "id" →
  map (λ o, prop o "id") (resolve (h ++ [o]) (<[index := length h]> arr))
  = map (λ o, prop o "id") (resolve h arr).
Proof.
  intros Hall. revert index. induction Hall as [|l arr Hl Harr IH]; intros index.
  - discriminate.
  - destruct index as [|index]; cbn [lookup list_lookup insert list_insert].
    + intros [= ->] Hid. unfold resolve. cbn [map].
      rewrite deref_alloc, Hid. f_equal.
      fold (resolve (h ++ [o]) arr). fold (resolve h arr).
      rewrite resolve_app; [reflexivity | exact Harr].
    + intros Hlook Hid. unfold resolve. cbn [map].
      rewrite deref_app by exact Hl. f_equal. now apply IH.
Qed.

Lemma resolve_snoc (h : list obj) (os : list obj) (arr : list loc) :
  allocated h arr →
  resolve (h ++ os) (arr ++ seq (length h) (length os)) = resolve h arr ++ os.
Proof.
  intros Hall. unfold resolve. rewrite map_app.
  fold (resolve (h ++ os) arr). rewrite resolve_app by exact Hall.
  fold (resolve h arr). f_equal.
  apply list_eq. intros i. rewrite list_lookup_fmap.
  destruct (decide (i < length os)%nat) as [Hlt | Hge].
  - rewrite lookup_seq_lt by exact Hlt. cbn. unfold deref.
    rewrite lookup_app_r by lia.
    replace (length h + i - length h)%nat with i by lia.
    destruct (lookup_lt_is_Some_2 os i Hlt) as [o ->]. reflexivity.
  - rewrite lookup_seq_ge by lia. cbn.
    symmetry. apply lookup_ge_None. lia.
Qed.

Lemma allocated_snoc (h : list obj) (os : list obj) (arr : list loc) :
  allocated h arr →
  allocated (h ++ os) (arr ++ seq (length h) (length os)).
Proof.
  unfold allocated. intros Hall. rewrite length_app. apply Forall_app. split.
  - eapply Forall_impl; [exact Hall|]. cbn. intros; lia.
  - apply Forall_forall. intros l Hl%elem_of_seq. lia.
Qed.

Lemma keeps_same (h : list obj) (arr : list loc) : keepsShapes h arr h arr.
Proof. intros Hall. split; [exists []; now rewrite app_nil_r | exact Hall]. Qed.

Lemma keeps_written (h : list obj) (arr : list loc) (l : loc) (o : obj) :
  prop o "id" = prop (deref h l) "id" → keepsShapes h arr (<[l := o]> h) arr.
Proof.
  intros Hid Hall. split.
  - exists []. rewrite app_nil_r. now apply ids_heap_insert.
  - unfold allocated in *. now rewrite length_insert.
Qed.

Lemma keeps_replaced (h : list obj) (arr : list loc) (index : nat) (l0 : loc)
    (o : obj) :
  arr !! index = Some l0 →
  prop o "id" = prop (deref h l0) "id" →
  keepsShapes h arr (h ++ [o]) (<[index := length h]> arr).
Proof.
  intros Hl Hid Hall. split.
  - exists []. rewrite app_nil_r. now apply (ids_replace h o arr index l0).
  - unfold allocated in *. rewrite length_app. cbn [length].
    apply Forall_insert; [|lia].
    eapply Forall_impl; [exact Hall|]. cbn. intros; lia.
Qed.

Lemma keeps_appended (h : list obj) (arr : list loc) (os : list obj) :
  keepsShapes h arr (h ++ os) (arr ++ seq (length h) (length os)).
Proof.
  intros Hall. split.
  - exists (map (λ o, prop o "id") os).
    rewrite resolve_snoc by exact Hall. apply map_app.
  - now apply allocated_snoc.
Qed.

Lemma handleMouseDown_keeps (st st1 : State) (e : MouseEvent) :
  handleMouseDown st e = Some st1 →
  keepsShapes (heap st) (elements st) (heap st1) (elements st1).
Proof.
  unfold handleMouseDown, alloc. intros Hd.
  repeat (repeat case_match; simplify_option_eq);
    cbn [heap elements setInitialPosition setInitialSize setResizeDirection
         setIsResizing setOffset setDraggedElement setSelectedElement
         setElements setElementsVersion setElementsArray setHeap
         setRandomCount setShowTextInput setTextPosition setDrawingPath
         setPathPoints setIsDrawing setMode setAnimations];
    try apply keeps_same;
    try (match goal with
         | |- keepsShapes ?h ?arr (?h ++ [?o]) _ =>
             apply (keeps_appended h arr [o])
         end).
  match goal with
  | Hq : createQuantumEffect ?s ?n ?x ?y ?k = _ |- _ =>
      destruct (createQuantumEffect_spec s n x y k)
        as (q & r0 & r1 & r2 & anim & k' & Hcq & _);
      rewrite Hcq in Hq; injection Hq as <- <- <-
  end.
  match goal with
  | Ha : allocAll _ _ = _ |- _ =>
      rewrite allocAll_four in Ha; injection Ha as <- <-
  end.
  apply (keeps_appended (heap st) (elements st) [q; r0; r1; r2]).
Qed.

Lemma handleMouseMove_keeps (st st1 : State) (e : MouseEvent) :
  handleMouseMove st e = Some st1 →
  keepsShapes (heap st) (elements st) (heap st1) (elements st1).
Proof.
  unfold handleMouseMove, alloc. intros Hd.
  destruct (_ && _); [injection Hd as <-; apply keeps_same|].
  destruct (if isResizing st then selectedElement st else None) as [sl|].
  - destruct (findIndexById _ _ _) as [index|];
      [|injection Hd as <-; apply keeps_same].
    injection Hd as <-.
    cbn [heap elements setElements setElementsVersion setElementsArray setHeap].
    apply keeps_written, resizeElement_id.
  - destruct (draggedElement st) as [dl|].
    + destruct (findIndexById _ _ _) as [index|] eqn:Hidx;
        [|injection Hd as <-; apply keeps_same].
      destruct (findIndex_Some _ _ _ Hidx) as (l0 & Hl0 & _).
      rewrite Hl0 in Hd. cbn [default] in Hd. unfold id in Hd.
      destruct (dragElement _ _ _ _) as [[o|]|] eqn:Hdrag;
        cbn [mbind option_bind] in Hd; [| |discriminate]; injection Hd as <-.
      * cbn [heap elements setSelectedElement setElements setElementsVersion
             setElementsArray setHeap].
        apply (keeps_replaced _ _ index l0); [exact Hl0|].
        eapply dragElement_id; exact Hdrag.
      * apply keeps_same.
    + destruct (isDrawing st); injection Hd as <-; apply keeps_same.
Qed.

Lemma handleMouseUp_keeps (st : State) (now : Z) :
  keepsShapes (heap st) (elements st)
    (heap (handleMouseUp st now)) (elements (handleMouseUp st now)).
Proof.
  unfold handleMouseUp, alloc.
  repeat case_match;
    cbn [heap elements setIsResizing setDraggedElement setDrawingPath
         setPathPoints setIsDrawing setSelectedElement setElements
         setElementsVersion setElementsArray setHeap setRandomCount];
    try apply keeps_same.
  match goal with
  | |- keepsShapes ?h ?arr (?h ++ [?o]) _ => apply (keeps_appended h arr [o])
  end.
Qed.

(** X29. Pointer gestures never remove, reorder or rename a shape: when
    every element of the scene is an object of the store, after a
    pointer press, move or release the identifiers of the shapes on the
    canvas are the identifiers from before, in the same order, followed
    by those of the shapes the gesture has added; and every element is
    again an object of the store. *)
Theorem pointer_gestures_keep_the_shapes (c : Command) (st st' : State) :
  isPointerCommand c = true →
  allocated (heap st) (elements st) →
  runCommand c st = Some st' →
  (∃ more, ids st' = ids st ++ more) ∧
  allocated (heap st') (elements st').
Proof.
  intros Hc Hall. unfold runCommand, dispatch.
  destruct (handlerOf c st) as [st1|] eqn:Hh; [|discriminate].
  cbn. intros [= <-].
  assert (Hk : keepsShapes (heap st) (elements st) (heap st1) (elements st1)).
  { destruct c; try discriminate; cbn [handlerOf] in Hh.
    - now apply (handleMouseDown_keeps st st1 e).
    - now apply (handleMouseMove_keeps st st1 e).
    - injection Hh as <-. apply handleMouseUp_keeps. }
  unfold ids, scene.
  destruct (Nat.eqb _ _); [exact (Hk Hall)|].
  destruct (historyEffect_gesture st1) as (_ & _ & _ & _ & _ & -> & ->).
  exact (Hk Hall).
Qed.

End ShapeFacts.

Lemma pointer_gestures_keep_the_shapes_witness :
  (∃ more,
     ids (after (PointerMove (pointerAt 150 130))
            (after (PointerDown (pointerAt 120 100)) twoRectsState))
     = ids (after (PointerDown (pointerAt 120 100)) twoRectsState) ++ more) ∧
  allocated
    (heap (after (PointerMove (pointerAt 150 130))
             (after (PointerDown (pointerAt 120 100)) twoRectsState)))
    (elements (after (PointerMove (pointerAt 150 130))
                 (after (PointerDown (pointerAt 120 100)) twoRectsState))).
Proof.
  apply (pointer_gestures_keep_the_shapes (H := exampleHost)
           (PointerMove (pointerAt 150 130))
           (after (PointerDown (pointerAt 120 100)) twoRectsState)).
  - reflexivity.
  - vm_compute. repeat constructor.
  - vm_compute. reflexivity.
Defined.

(** ** Resizing a text *)

Section TextResizeFacts.
Context `{Host}.

Lemma snap_NaN (st : State) : snapToGridValue st NaN = NaN.
Proof. unfold snapToGridValue. now destruct (snapToGrid st). Qed.

Lemma max_NaN (a : num) : Num.max a NaN = NaN.
Proof. now destruct a. Qed.

Lemma resizeBox_NaN (st : State) (p : Point) :
  initialSize st = mkSize (VNum NaN) (VNum NaN) →
  (Str.includes (resizeDirection st) "e" || Str.includes (resizeDirection st) "w"
   = true → newWidth (resizeBox st p) = Some NaN) ∧
  (Str.includes (resizeDirection st) "s" || Str.includes (resizeDirection st) "n"
   = true → newHeight (resizeBox st p) = Some NaN).
Proof.
  intros Hsize. unfold resizeBox. rewrite Hsize. cbn [sz_width sz_height].
  unfold jsub. cbn [jadd toNumber Num.add Num.sub].
  rewrite !max_NaN, !snap_NaN.
  destruct (Str.includes (resizeDirection st) "e"),
           (Str.includes (resizeDirection st) "w"),
           (Str.includes (resizeDirection st) "s"),
           (Str.includes (resizeDirection st) "n");
    cbn [newWidth newHeight orb]; split; (reflexivity || discriminate).
Qed.

(** X30. A shape without [width], [height] and [r], such as every text
    element the editor creates, cannot be resized to a number: a press
    on one of its resize handles captures the initial size (NaN, NaN),
    and the pointer move that follows writes [NaN] to the width of a
    text element when the handle's direction contains e or w, and to its
    height when it contains s or n; the minimum of 20 does not apply. *)
Theorem text_resize_writes_not_a_number
    (st : State) (e1 e2 : MouseEvent) (sl : loc) (index : nat) :
  mode st = "select" →
  targetIsResizeHandle e1 = true →
  selectedElement st = Some sl →
  findIndexById (heap st) (elements st) (deref (heap st) sl) = Some index →
  elements st !! index = Some sl →
  typeIs (deref (heap st) sl) "text" = true →
  prop (deref (heap st) sl) "width" = VUndef →
  prop (deref (heap st) sl) "height" = VUndef →
  prop (deref (heap st) sl) "r" = VUndef →
  ∃ st1 st2,
    runCommand (PointerDown e1) st = Some st1 ∧
    initialSize st1 = mkSize (VNum NaN) (VNum NaN) ∧
    runCommand (PointerMove e2) st1 = Some st2 ∧
    (Str.includes (targetDirection e1) "e" || Str.includes (targetDirection e1) "w"
     = true →
     prop (deref (heap st2) sl) "width" = VNum NaN) ∧
    (Str.includes (targetDirection e1) "s" || Str.includes (targetDirection e1) "n"
     = true →
     prop (deref (heap st2) sl) "height" = VNum NaN).
Proof.
  intros Hmode Hhandle Hsel Hidx Hl Htype Hw Hh Hr.
  assert (Hlt : (sl < length (heap st))%nat).
  { apply (typed_allocated _ _ "text" "text"). now rewrite Htype. }
  set (sel := deref (heap st) sl) in *.
  set (ipos := mkPos (jor (prop sel "x") (VNum (jsub (prop sel "cx") VUndef)))
                     (jor (prop sel "y") (VNum (jsub (prop sel "cy") VUndef)))).
  set (st1 := setInitialPosition ipos
                (setInitialSize (mkSize (VNum NaN) (VNum NaN))
                (setResizeDirection (targetDirection e1)
                (setIsResizing true st)))).
  assert (Hdown : handleMouseDown st e1 = Some st1).
  { unfold handleMouseDown. rewrite Hmode, Hhandle, Hsel.
    change ("select" =? "select")%string with true. cbv beta iota zeta.
    fold sel. rewrite Hw, Hh, Hr. reflexivity. }
  set (p := getSVGCoordinates st1 e2).
  set (st2 := setElements (elements st)
                (setHeap (<[sl := resizeElement st1 p sel]> (heap st)) st1)).
  assert (Hmove : handleMouseMove st1 e2 = Some st2).
  { unfold handleMouseMove.
    change (isResizing st1) with true. rewrite andb_false_r.
    change (selectedElement st1) with (selectedElement st). rewrite Hsel.
    change (heap st1) with (heap st). change (elements st1) with (elements st).
    fold sel. rewrite Hidx, Hl. reflexivity. }
  exists st1, (historyEffect st2).
  split. { unfold runCommand. now apply dispatch_same_version. }
  split; [reflexivity|].
  split. { unfold runCommand. cbn [handlerOf].
           apply (dispatch_new_elements _ st1 st2 Hmove). cbn. lia. }
  destruct (historyEffect_gesture st2) as (_ & _ & _ & _ & _ & _ & ->).
  cbn [heap st2 setElements setElementsVersion setElementsArray setHeap].
  unfold st2. cbn [heap setElements setElementsVersion setElementsArray setHeap].
  rewrite deref_insert by exact Hlt.
  unfold resizeElement. fold sel in Htype. rewrite Htype, orb_true_r.
  split; intros Hdir; rewrite !prop_assign_ne by discriminate.
  - rewrite (proj1 (resizeBox_NaN st1 p eq_refl)) by exact Hdir.
    apply prop_assign_eq.
  - rewrite (proj2 (resizeBox_NaN st1 p eq_refl)) by exact Hdir.
    apply prop_assign_eq.
Qed.

End TextResizeFacts.

Lemma text_resize_writes_not_a_number_witness :
  ∃ st1 st2,
    runCommand (H := exampleHost) (PointerDown (handleAt 150 100 "se"))
      selectedTextState = Some st1 ∧
    initialSize st1 = mkSize (VNum NaN) (VNum NaN) ∧
    runCommand (H := exampleHost) (PointerMove (pointerAt 300 300)) st1 = Some st2 ∧
    (Str.includes (targetDirection (handleAt 150 100 "se")) "e"
     || Str.includes (targetDirection (handleAt 150 100 "se")) "w" = true →
     prop (deref (heap st2) 0%nat) "width" = VNum NaN) ∧
    (Str.includes (targetDirection (handleAt 150 100 "se")) "s"
     || Str.includes (targetDirection (handleAt 150 100 "se")) "n" = true →
     prop (deref (heap st2) 0%nat) "height" = VNum NaN).
Proof.
  apply (text_resize_writes_not_a_number (H := exampleHost) selectedTextState
           (handleAt 150 100 "se") (pointerAt 300 300) 0%nat 0%nat);
    reflexivity.
Defined.
